(** * SceneManager: texture and material registries, transforms and the
      per-draw render state

    A shallow embedding of [Source/SceneManager.cpp].  The methods of the
    class become computations in a state-and-fault monad over a [World]
    that holds the members of the [SceneManager] object together with the
    collaborators it talks to (the GL driver, the shader interface and the
    mesh library).

    Conventions.
    - C++ [float] is idealised as an exact rational ([Q]); rounding is
      outside the model.  [cosf] and [sinf] are parameters.
    - C++ [int] and [GLuint] are [Z]; the one narrowing conversion of the
      file, [GLuint] to [int] in [FindTextureID], is written out.
    - Undefined behaviour (a null [m_pShaderManager] dereferenced, an index
      outside [m_textureIDs]) is an explicit outcome, [Undefined]. *)

From Stdlib Require Import ZArith QArith Qabs String List Bool Lia Lqa.
Import ListNotations.

Open Scope string_scope.
Open Scope Z_scope.

(** ** Scalars *)

Definition float : Type := Q.
Bind Scope Q_scope with float.

(** ** GLM: vectors, matrices and the three transform builders

    GLM is an external library.  Matrices are column-major, as in GLM:
    [col0 .. col3] are the four columns [m[0] .. m[3]]. *)

Module glm.

Local Open Scope Q_scope.

Record vec2 : Type := Vec2 { u : float; v : float }.
Record vec3 : Type := Vec3 { x : float; y : float; z : float }.
Record vec4 : Type := Vec4 { r : float; g : float; b : float; a : float }.
Record mat4 : Type := Mat4 { col0 : vec4; col1 : vec4; col2 : vec4; col3 : vec4 }.

(** [glm::radians]: [degrees * 0.01745329251994329576923690768489]. *)
Definition radians (degrees : float) : float :=
  (degrees * 0.01745329251994329576923690768489)%Q.

(** column [*] scalar and column [+] column *)
Definition scale4 (c : vec4) (k : float) : vec4 :=
  Vec4 (r c * k)%Q (g c * k)%Q (b c * k)%Q (a c * k)%Q.

Definition add4 (c d : vec4) : vec4 :=
  Vec4 (r c + r d)%Q (g c + g d)%Q (b c + b d)%Q (a c + a d)%Q.

(** [mat4 * vec4]: [m[0]*v.x + m[1]*v.y + m[2]*v.z + m[3]*v.w]. *)
Definition mul_vec (m : mat4) (p : vec4) : vec4 :=
  add4 (add4 (add4 (scale4 (col0 m) (r p)) (scale4 (col1 m) (g p)))
             (scale4 (col2 m) (b p)))
       (scale4 (col3 m) (a p)).

(** [mat4 * mat4]: column [i] of the product is [m1 * m2[i]]. *)
Definition mul (m1 m2 : mat4) : mat4 :=
  Mat4 (mul_vec m1 (col0 m2)) (mul_vec m1 (col1 m2))
       (mul_vec m1 (col2 m2)) (mul_vec m1 (col3 m2)).

(** [glm::scale(v)]: the identity with its diagonal scaled by [v]. *)
Definition scale (s : vec3) : mat4 :=
  Mat4 (Vec4 (x s) 0 0 0) (Vec4 0 (y s) 0 0) (Vec4 0 0 (z s) 0) (Vec4 0 0 0 1).

(** [glm::translate(v)]: the identity with [v] as its fourth column. *)
Definition translate (t : vec3) : mat4 :=
  Mat4 (Vec4 1 0 0 0) (Vec4 0 1 0 0) (Vec4 0 0 1 0) (Vec4 (x t) (y t) (z t) 1).

Section Rotate.

(** [cos] and [sin] of the C library, on [float]. *)
Variables cosf sinf : float -> float.

(** [glm::rotate(angle, axis)], that is [rotate(mat4(1), angle, axis)].
    GLM normalises [axis] first; the callers here pass the three unit
    axes, which normalisation leaves as they are.  Entry names follow
    GLM's [Rotate[column][row]]. *)
Definition rotate (angle : float) (axis : vec3) : mat4 :=
  let c := cosf angle in
  let s := sinf angle in
  let temp := Vec3 ((1 - c) * x axis)%Q ((1 - c) * y axis)%Q ((1 - c) * z axis)%Q in
  let R00 := (c + x temp * x axis)%Q in
  let R01 := (x temp * y axis + s * z axis)%Q in
  let R02 := (x temp * z axis - s * y axis)%Q in
  let R10 := (y temp * x axis - s * z axis)%Q in
  let R11 := (c + y temp * y axis)%Q in
  let R12 := (y temp * z axis + s * x axis)%Q in
  let R20 := (z temp * x axis + s * y axis)%Q in
  let R21 := (z temp * y axis - s * x axis)%Q in
  let R22 := (c + z temp * z axis)%Q in
  Mat4 (Vec4 R00 R01 R02 0) (Vec4 R10 R11 R12 0) (Vec4 R20 R21 R22 0)
       (Vec4 0 0 0 1).

End Rotate.

(** Componentwise equality of rationals, the equality of exact
    arithmetic. *)
Definition vec4_eq (p q : vec4) : Prop :=
  (r p == r q)%Q /\ (g p == g q)%Q /\ (b p == b q)%Q /\ (a p == a q)%Q.

(** A local point as the homogeneous vector the model matrix acts on. *)
Definition point (p : vec3) : vec4 := Vec4 (x p) (y p) (z p) 1.

End glm.

(** ** The shader interface *)

(** The values a uniform can be set to, one constructor per setter. *)
Inductive uniform : Type :=
| IntValue (n : Z)
| BoolValue (flag : bool)
| FloatValue (f : float)
| Vec2Value (p : glm.vec2)
| Vec3Value (p : glm.vec3)
| Vec4Value (p : glm.vec4)
| Mat4Value (m : glm.mat4)
| Sampler2DValue (slot : Z).

(** Modelled from the spec: the shader interface ([ShaderManager] is not
    among the sources) is a write-only sink of named uniforms, with one
    setter per value type.  The model keeps every write, newest first; the
    value a draw call sees for a name is the newest write to it. *)
Definition ShaderManager : Type := list (string * uniform).

Definition setIntValue (name : string) (n : Z) (sh : ShaderManager) : ShaderManager :=
  (name, IntValue n) :: sh.
Definition setBoolValue (name : string) (flag : bool) (sh : ShaderManager) : ShaderManager :=
  (name, BoolValue flag) :: sh.
Definition setFloatValue (name : string) (f : float) (sh : ShaderManager) : ShaderManager :=
  (name, FloatValue f) :: sh.
Definition setVec2Value (name : string) (p : glm.vec2) (sh : ShaderManager) : ShaderManager :=
  (name, Vec2Value p) :: sh.
Definition setVec3Value (name : string) (p : glm.vec3) (sh : ShaderManager) : ShaderManager :=
  (name, Vec3Value p) :: sh.
Definition setVec4Value (name : string) (p : glm.vec4) (sh : ShaderManager) : ShaderManager :=
  (name, Vec4Value p) :: sh.
Definition setMat4Value (name : string) (m : glm.mat4) (sh : ShaderManager) : ShaderManager :=
  (name, Mat4Value m) :: sh.
Definition setSampler2DValue (name : string) (slot : Z) (sh : ShaderManager) : ShaderManager :=
  (name, Sampler2DValue slot) :: sh.

(** The value in force for [name]: the newest write to it, if any. *)
Fixpoint uniform_value (name : string) (sh : ShaderManager) : option uniform :=
  match sh with
  | [] => None
  | (n, val) :: older => if String.eqb n name then Some val else uniform_value name older
  end.

(** The global names of the anonymous namespace. *)
Definition g_ModelName : string := "model".
Definition g_ColorValueName : string := "objectColor".
Definition g_TextureValueName : string := "objectTexture".
Definition g_UseTextureName : string := "bUseTexture".
Definition g_UseLightingName : string := "bUseLighting".

(** ** The GL driver, as far as [SceneManager] drives it *)

Module GL.

Definition GLuint : Type := Z.

Inductive internal_format : Type := GL_RGB8 | GL_RGBA8.
Inductive parameter : Type :=
| GL_TEXTURE_WRAP_S | GL_TEXTURE_WRAP_T | GL_TEXTURE_MIN_FILTER | GL_TEXTURE_MAG_FILTER.
Inductive parameter_value : Type := GL_REPEAT | GL_LINEAR.

Record upload : Type := Upload
  { target_name : GLuint; format : internal_format; width : Z; height : Z }.

(** [next_name]: the next unused texture name.  [names]: the texture
    names generated and not deleted.  [active]: the active texture unit.
    [bound]: per unit, the texture bound to [GL_TEXTURE_2D], newest
    first.  The rest records what was done to texture objects. *)
Record context : Type := mkContext
  { next_name : GLuint;
    names : list GLuint;
    active : Z;
    bound : list (Z * GLuint);
    parameters : list (GLuint * parameter * parameter_value);
    uploads : list upload;
    mipmapped : list GLuint }.

Fixpoint binding (unit : Z) (l : list (Z * GLuint)) : GLuint :=
  match l with
  | [] => 0
  | (k, name) :: older => if k =? unit then name else binding unit older
  end.

(** The texture bound to [GL_TEXTURE_2D] on the active unit. *)
Definition current (c : context) : GLuint := binding (active c) (bound c).

(** [glGenTextures(1, &id)]: an unused name, marked as in use.  The
    driver is free in its choice; here names are issued in sequence. *)
Definition glGenTextures (c : context) : GLuint * context :=
  (next_name c,
   mkContext (next_name c + 1) (next_name c :: names c) (active c) (bound c)
           (parameters c) (uploads c) (mipmapped c)).

Definition glActiveTexture (unit : Z) (c : context) : context :=
  mkContext (next_name c) (names c) unit (bound c)
          (parameters c) (uploads c) (mipmapped c).

Definition glBindTexture (name : GLuint) (c : context) : context :=
  mkContext (next_name c) (names c) (active c) ((active c, name) :: bound c)
          (parameters c) (uploads c) (mipmapped c).

Definition glTexParameteri (p : parameter) (val : parameter_value) (c : context) : context :=
  mkContext (next_name c) (names c) (active c) (bound c)
          ((current c, p, val) :: parameters c) (uploads c) (mipmapped c).

Definition glTexImage2D (f : internal_format) (w h : Z) (c : context) : context :=
  mkContext (next_name c) (names c) (active c) (bound c)
          (parameters c) (Upload (current c) f w h :: uploads c) (mipmapped c).

Definition glGenerateMipmap (c : context) : context :=
  mkContext (next_name c) (names c) (active c) (bound c)
          (parameters c) (uploads c) (current c :: mipmapped c).

(** A context in which no texture name is in use yet. *)
Definition fresh : context := mkContext 1 [] 0 [] [] [] [].

End GL.

(** ** The mesh library

    [ShapeMeshes] is external: it uploads each primitive once and issues
    draw calls.  A draw call is recorded with the uniforms in force when
    it is issued ([None] when there is no shader interface). *)

Inductive mesh : Type := Plane | Sphere | Cone | Box | Cylinder | Pyramid4.

Record ShapeMeshes : Type := Meshes
  { loaded : list mesh;
    drawn : list (mesh * option ShaderManager) }.

(** ** The members of [SceneManager] *)

(** Both structs have a member [tag] in the source; the two projections
    are told apart here as [texture_tag] and [material_tag]. *)
Record TEXTURE_INFO : Type := TextureInfo { ID : GL.GLuint; texture_tag : string }.

Record OBJECT_MATERIAL : Type := Material
  { material_tag : string;
    diffuseColor : glm.vec3;
    specularColor : glm.vec3;
    shininess : float }.

(** Modelled from the spec: [SceneManager.h] is not among the sources; the
    texture table has 16 slots. *)
Definition MAX_TEXTURES : nat := 16.

(** [m_pShaderManager = None] is the null pointer; otherwise the field
    holds the one [ShaderManager] it points to. *)
Record World : Type := mkWorld
  { m_pShaderManager : option ShaderManager;
    m_basicMeshes : ShapeMeshes;
    m_loadedTextures : Z;
    m_textureIDs : list TEXTURE_INFO;
    m_objectMaterials : list OBJECT_MATERIAL;
    gl : GL.context }.

(** Modelled from the spec: the constructor sets [m_pShaderManager] and
    [m_basicMeshes]; the declaration of [m_loadedTextures] is in the
    missing header, and slot indices start at 0. *)
Definition SceneManager_new (pShaderManager : option ShaderManager) (c : GL.context) : World :=
  mkWorld pShaderManager (Meshes [] []) 0
          (repeat (TextureInfo 0 "") MAX_TEXTURES) [] c.

(** ** Outcomes and the monad of methods *)

Inductive fault : Type := NullDereference | OutOfBounds.

Inductive outcome (A : Type) : Type :=
| Ok (a : A)
| Undefined (f : fault).
Arguments Ok {A} a.
Arguments Undefined {A} f.

Definition M (A : Type) : Type := World -> outcome (A * World).

Definition ret {A : Type} (a : A) : M A := fun w => Ok (a, w).

Definition bind {A B : Type} (m : M A) (k : A -> M B) : M B :=
  fun w => match m w with
           | Ok (a, w') => k a w'
           | Undefined f => Undefined f
           end.

Declare Scope method_scope.
Delimit Scope method_scope with method.
Notation "x <- m ;; k" := (bind m (fun x => k))
  (at level 61, m at next level, right associativity) : method_scope.
Notation "m ;; k" := (bind m (fun _ => k))
  (at level 61, right associativity) : method_scope.
Open Scope method_scope.

Definition fail {A : Type} (f : fault) : M A := fun _ => Undefined f.

(** [NULL != m_pShaderManager] *)
Definition shader_is_set : M bool :=
  fun w => Ok (match m_pShaderManager w with Some _ => true | None => false end, w).

(** [m_pShaderManager->set...(...)]: the call through the pointer. *)
Definition call_shader (set : ShaderManager -> ShaderManager) : M unit :=
  fun w => match m_pShaderManager w with
           | Some sh =>
               Ok (tt, mkWorld (Some (set sh)) (m_basicMeshes w) (m_loadedTextures w)
                               (m_textureIDs w) (m_objectMaterials w) (gl w))
           | None => Undefined NullDereference
           end.

(** A call into the GL driver that returns nothing. *)
Definition call_gl (f : GL.context -> GL.context) : M unit :=
  fun w => Ok (tt, mkWorld (m_pShaderManager w) (m_basicMeshes w) (m_loadedTextures w)
                           (m_textureIDs w) (m_objectMaterials w) (f (gl w))).

Definition glGenTextures : M GL.GLuint :=
  fun w => let (name, c) := GL.glGenTextures (gl w) in
           Ok (name, mkWorld (m_pShaderManager w) (m_basicMeshes w) (m_loadedTextures w)
                             (m_textureIDs w) (m_objectMaterials w) c).

(** [m_basicMeshes->Load...Mesh()] and [m_basicMeshes->Draw...Mesh()] *)
Definition LoadMesh (k : mesh) : M unit :=
  fun w => Ok (tt, mkWorld (m_pShaderManager w)
                           (Meshes (k :: loaded (m_basicMeshes w)) (drawn (m_basicMeshes w)))
                           (m_loadedTextures w) (m_textureIDs w) (m_objectMaterials w) (gl w)).

Definition DrawMesh (k : mesh) : M unit :=
  fun w => Ok (tt, mkWorld (m_pShaderManager w)
                           (Meshes (loaded (m_basicMeshes w))
                                   (drawn (m_basicMeshes w) ++ [(k, m_pShaderManager w)]))
                           (m_loadedTextures w) (m_textureIDs w) (m_objectMaterials w) (gl w)).

(** [for (const auto& x : l) body] *)
Fixpoint for_each {A : Type} (l : list A) (body : A -> M unit) : M unit :=
  match l with
  | [] => ret tt
  | x :: rest => body x ;; for_each rest body
  end.

(** ** The methods of [SceneManager] *)

(** What [stbi_load] reports about a decoded image. *)
Record IMAGE : Type := Image { width : Z; height : Z; colorChannels : Z }.

(** [m_textureIDs[index]], read; an index outside the table is undefined. *)
Definition texture_at (index : Z) : M TEXTURE_INFO :=
  fun w =>
    if index <? 0 then Undefined OutOfBounds
    else match nth_error (m_textureIDs w) (Z.to_nat index) with
         | Some t => Ok (t, w)
         | None => Undefined OutOfBounds
         end.

Fixpoint store {A : Type} (l : list A) (i : nat) (x : A) : list A :=
  match l, i with
  | [], _ => []
  | _ :: rest, O => x :: rest
  | y :: rest, S j => y :: store rest j x
  end.

(** [m_textureIDs[index] = t], with the same proviso. *)
Definition set_texture_at (index : Z) (t : TEXTURE_INFO) : M unit :=
  fun w =>
    if (0 <=? index) && (index <? Z.of_nat (length (m_textureIDs w)))
    then Ok (tt, mkWorld (m_pShaderManager w) (m_basicMeshes w) (m_loadedTextures w)
                         (store (m_textureIDs w) (Z.to_nat index) t)
                         (m_objectMaterials w) (gl w))
    else Undefined OutOfBounds.

Definition get_loadedTextures : M Z := fun w => Ok (m_loadedTextures w, w).

Definition set_loadedTextures (n : Z) : M unit :=
  fun w => Ok (tt, mkWorld (m_pShaderManager w) (m_basicMeshes w) n
                           (m_textureIDs w) (m_objectMaterials w) (gl w)).

Definition get_objectMaterials : M (list OBJECT_MATERIAL) :=
  fun w => Ok (m_objectMaterials w, w).

(** [m_objectMaterials.push_back(material)] *)
Definition push_back (material : OBJECT_MATERIAL) : M unit :=
  fun w => Ok (tt, mkWorld (m_pShaderManager w) (m_basicMeshes w) (m_loadedTextures w)
                           (m_textureIDs w) (m_objectMaterials w ++ [material]) (gl w)).

(** The conversion of a [GLuint] to [int] (two's complement). *)
Definition int_of_GLuint (n : GL.GLuint) : Z :=
  if n <? 2 ^ 31 then n else n - 2 ^ 32.

Section Environment.

(** The image codec: what [stbi_load] makes of a file name ([None] is the
    null pointer it returns for a file it cannot decode). *)
Variable stbi_load : string -> option IMAGE.

Variables cosf sinf : float -> float.

(** The contents of a local [OBJECT_MATERIAL] that was declared and never
    assigned. *)
Variable uninitialised : OBJECT_MATERIAL.

(** Lines 76-140.  What is written to [std::cout] and the release of the
    decoded image are left out; on the path of an unsupported channel
    count the texture name stays generated and bound, as in the source. *)
Definition CreateGLTexture (filename : string) (tag : string) : M bool :=
  match stbi_load filename with
  | Some image =>
      textureID <- glGenTextures ;;
      call_gl (GL.glBindTexture textureID) ;;
      call_gl (GL.glTexParameteri GL.GL_TEXTURE_WRAP_S GL.GL_REPEAT) ;;
      call_gl (GL.glTexParameteri GL.GL_TEXTURE_WRAP_T GL.GL_REPEAT) ;;
      call_gl (GL.glTexParameteri GL.GL_TEXTURE_MIN_FILTER GL.GL_LINEAR) ;;
      call_gl (GL.glTexParameteri GL.GL_TEXTURE_MAG_FILTER GL.GL_LINEAR) ;;
      let rest :=
        call_gl GL.glGenerateMipmap ;;
        call_gl (GL.glBindTexture 0) ;;
        index <- get_loadedTextures ;;
        set_texture_at index (TextureInfo textureID tag) ;;
        set_loadedTextures (index + 1) ;;
        ret true in
      if colorChannels image =? 3 then
        call_gl (GL.glTexImage2D GL.GL_RGB8 (width image) (height image)) ;; rest
      else if colorChannels image =? 4 then
        call_gl (GL.glTexImage2D GL.GL_RGBA8 (width image) (height image)) ;; rest
      else ret false
  | None => ret false
  end.

(** Lines 148-156; [i] runs from 0 while [i < m_loadedTextures]. *)
Fixpoint BindGLTextures_loop (remaining : nat) (i : Z) : M unit :=
  match remaining with
  | O => ret tt
  | S k =>
      call_gl (GL.glActiveTexture i) ;;
      t <- texture_at i ;;
      call_gl (GL.glBindTexture (ID t)) ;;
      BindGLTextures_loop k (i + 1)
  end.

Definition BindGLTextures : M unit :=
  n <- get_loadedTextures ;;
  BindGLTextures_loop (Z.to_nat n) 0.

(** Lines 164-170: [glGenTextures(1, &m_textureIDs[i].ID)] for every
    loaded texture. *)
Fixpoint DestroyGLTextures_loop (remaining : nat) (i : Z) : M unit :=
  match remaining with
  | O => ret tt
  | S k =>
      t <- texture_at i ;;
      name <- glGenTextures ;;
      set_texture_at i (TextureInfo name (texture_tag t)) ;;
      DestroyGLTextures_loop k (i + 1)
  end.

Definition DestroyGLTextures : M unit :=
  n <- get_loadedTextures ;;
  DestroyGLTextures_loop (Z.to_nat n) 0.

(** Lines 178-196.  [remaining] counts the iterations left before
    [index < m_loadedTextures] fails. *)
Fixpoint FindTextureID_loop (tag : string) (remaining : nat) (index : Z) : M Z :=
  match remaining with
  | O => ret (-1)
  | S k =>
      t <- texture_at index ;;
      if String.eqb (texture_tag t) tag
      then ret (int_of_GLuint (ID t))
      else FindTextureID_loop tag k (index + 1)
  end.

Definition FindTextureID (tag : string) : M Z :=
  n <- get_loadedTextures ;;
  FindTextureID_loop tag (Z.to_nat n) 0.

(** Lines 204-222. *)
Fixpoint FindTextureSlot_loop (tag : string) (remaining : nat) (index : Z) : M Z :=
  match remaining with
  | O => ret (-1)
  | S k =>
      t <- texture_at index ;;
      if String.eqb (texture_tag t) tag
      then ret index
      else FindTextureSlot_loop tag k (index + 1)
  end.

Definition FindTextureSlot (tag : string) : M Z :=
  n <- get_loadedTextures ;;
  FindTextureSlot_loop tag (Z.to_nat n) 0.

(** Lines 230-255.  The loop walks the vector from index 0; on a match it
    copies three members into [material] and stops.  The result is the
    returned [bool] with the final contents of the reference parameter. *)
Fixpoint FindMaterial_loop (rest : list OBJECT_MATERIAL) (tag : string)
    (material : OBJECT_MATERIAL) : OBJECT_MATERIAL :=
  match rest with
  | [] => material
  | m :: rest' =>
      if String.eqb (material_tag m) tag
      then Material (material_tag material) (diffuseColor m) (specularColor m) (shininess m)
      else FindMaterial_loop rest' tag material
  end.

Definition FindMaterial (tag : string) (material : OBJECT_MATERIAL)
    : M (bool * OBJECT_MATERIAL) :=
  materials <- get_objectMaterials ;;
  if Nat.eqb (length materials) 0 then ret (false, material)
  else ret (true, FindMaterial_loop materials tag material).

(** Lines 263-293. *)
Definition SetTransformations (scaleXYZ : glm.vec3)
    (XrotationDegrees YrotationDegrees ZrotationDegrees : float)
    (positionXYZ : glm.vec3) : M unit :=
  let scale := glm.scale scaleXYZ in
  let rotationX := glm.rotate cosf sinf (glm.radians XrotationDegrees) (glm.Vec3 1 0 0) in
  let rotationY := glm.rotate cosf sinf (glm.radians YrotationDegrees) (glm.Vec3 0 1 0) in
  let rotationZ := glm.rotate cosf sinf (glm.radians ZrotationDegrees) (glm.Vec3 0 0 1) in
  let translation := glm.translate positionXYZ in
  let modelView :=
    glm.mul (glm.mul (glm.mul (glm.mul translation rotationZ) rotationY) rotationX) scale in
  set <- shader_is_set ;;
  if set then call_shader (setMat4Value g_ModelName modelView) else ret tt.

(** Lines 301-320. *)
Definition SetShaderColor (redColorValue greenColorValue blueColorValue alphaValue : float)
    : M unit :=
  let currentColor := glm.Vec4 redColorValue greenColorValue blueColorValue alphaValue in
  set <- shader_is_set ;;
  if set then
    call_shader (setIntValue g_UseTextureName 0) ;;
    call_shader (setVec4Value g_ColorValueName currentColor)
  else ret tt.

(** Lines 328-339. *)
Definition SetShaderTexture (textureTag : string) : M unit :=
  set <- shader_is_set ;;
  if set then
    call_shader (setIntValue g_UseTextureName 1) ;;
    textureID <- FindTextureSlot textureTag ;;
    call_shader (setSampler2DValue g_TextureValueName textureID)
  else ret tt.

(** Lines 347-353. *)
Definition SetTextureUVScale (u v : float) : M unit :=
  set <- shader_is_set ;;
  if set then call_shader (setVec2Value "UVscale" (glm.Vec2 u v)) else ret tt.

(** Lines 475-491. *)
Definition SetShaderMaterial (materialTag : string) : M unit :=
  materials <- get_objectMaterials ;;
  if Nat.ltb 0 (length materials) then
    found <- FindMaterial materialTag uninitialised ;;
    let (bReturn, material) := found in
    if bReturn then
      call_shader (setVec3Value "material.diffuseColor" (diffuseColor material)) ;;
      call_shader (setVec3Value "material.specularColor" (specularColor material)) ;;
      call_shader (setFloatValue "material.shininess" (shininess material))
    else ret tt
  else ret tt.

(** Lines 362-403.  The result of each [CreateGLTexture] is assigned to
    [bReturn] and not looked at. *)
Definition LoadSceneTextures : M unit :=
  bReturn <- CreateGLTexture "textures/Party_hat.jpg" "Party" ;;
  bReturn <- CreateGLTexture "textures/blue_party.jpg" "Blue" ;;
  bReturn <- CreateGLTexture "textures/Check_floor.jpg" "Floor" ;;
  bReturn <- CreateGLTexture "textures/table.jpg" "Table" ;;
  bReturn <- CreateGLTexture "textures/Plate.jpg" "Plate" ;;
  bReturn <- CreateGLTexture "textures/top_frosting.png" "Frost" ;;
  bReturn <- CreateGLTexture "textures/frosting_sides.png" "Frost_sides" ;;
  bReturn <- CreateGLTexture "textures/Purple_balloon.png" "balloon" ;;
  bReturn <- CreateGLTexture "textures/red_present.jpg" "present" ;;
  BindGLTextures.

(** Lines 413-467. *)
Definition DefineObjectMaterials : M unit :=
  let candleMaterial :=
    Material "Candle" (glm.Vec3 1.0 0.85 0.5) (glm.Vec3 0.2 0.2 0.2) 4.0 in
  push_back candleMaterial ;;
  let balloonMaterial :=
    Material "Balloon" (glm.Vec3 0.4 0.1 0.6) (glm.Vec3 0.3 0.2 0.5) 16.0 in
  push_back balloonMaterial ;;
  let wrapMaterial :=
    Material "WrappingPaper" (glm.Vec3 0.7 0.0 0.0) (glm.Vec3 1.0 0.9 0.3) 64.0 in
  push_back wrapMaterial ;;
  let woodMaterial :=
    Material "Wood" (glm.Vec3 0.4 0.25 0.1) (glm.Vec3 0.05 0.05 0.05) 4.0 in
  push_back woodMaterial ;;
  let hatMaterial :=
    Material "PaperHat" (glm.Vec3 0.8 0.4 0.6) (glm.Vec3 0.1 0.1 0.1) 2.0 in
  push_back hatMaterial ;;
  let cakeMaterial :=
    Material "Cake" (glm.Vec3 0.95 0.8 0.7) (glm.Vec3 0.2 0.15 0.1) 8.0 in
  push_back cakeMaterial ;;
  let ceramicMaterial :=
    Material "Ceramic" (glm.Vec3 0.9 0.9 0.95) (glm.Vec3 0.9 0.9 0.9) 48.0 in
  push_back ceramicMaterial.

(** Lines 509-542. *)
Definition SetupSceneLights : M unit :=
  call_shader (setBoolValue g_UseLightingName true) ;;
  call_shader (setVec3Value "pointLights[0].position" (glm.Vec3 0.0 8.3 0.0)) ;;
  call_shader (setVec3Value "pointLights[0].ambient" (glm.Vec3 0.3 0.15 0.05)) ;;
  call_shader (setVec3Value "pointLights[0].diffuse" (glm.Vec3 1.0 0.6 0.2)) ;;
  call_shader (setVec3Value "pointLights[0].specular" (glm.Vec3 1.0 0.8 0.5)) ;;
  call_shader (setFloatValue "pointLights[0].constant" 1.0) ;;
  call_shader (setFloatValue "pointLights[0].linear" 0.09) ;;
  call_shader (setFloatValue "pointLights[0].quadratic" 0.032) ;;
  call_shader (setBoolValue "pointLights[0].bActive" true) ;;
  call_shader (setVec3Value "directionalLight.direction" (glm.Vec3 (-0.2) (-1.0) (-0.3))) ;;
  call_shader (setVec3Value "directionalLight.ambient" (glm.Vec3 0.1 0.1 0.15)) ;;
  call_shader (setVec3Value "directionalLight.diffuse" (glm.Vec3 0.2 0.2 0.3)) ;;
  call_shader (setVec3Value "directionalLight.specular" (glm.Vec3 0.1 0.1 0.15)) ;;
  call_shader (setBoolValue "directionalLight.bActive" true) ;;
  call_shader (setVec3Value "pointLights[1].position" (glm.Vec3 2.5 6.0 (-2.0))) ;;
  call_shader (setVec3Value "pointLights[1].ambient" (glm.Vec3 0.05 0.02 0.08)) ;;
  call_shader (setVec3Value "pointLights[1].diffuse" (glm.Vec3 0.1 0.05 0.2)) ;;
  call_shader (setVec3Value "pointLights[1].specular" (glm.Vec3 0.1 0.1 0.2)) ;;
  call_shader (setFloatValue "pointLights[1].constant" 1.0) ;;
  call_shader (setFloatValue "pointLights[1].linear" 0.14) ;;
  call_shader (setFloatValue "pointLights[1].quadratic" 0.044) ;;
  call_shader (setBoolValue "pointLights[1].bActive" true).

(** Lines 546-568. *)
Definition PrepareScene : M unit :=
  LoadSceneTextures ;;
  SetupSceneLights ;;
  DefineObjectMaterials ;;
  LoadMesh Plane ;;
  LoadMesh Sphere ;;
  LoadMesh Cone ;;
  LoadMesh Box ;;
  LoadMesh Cylinder ;;
  LoadMesh Pyramid4.

(** Lines 576-822.  The locals [scaleXYZ], [positionXYZ] and the three
    angles are reassigned before each draw step; each [let] below is one
    such assignment. *)
Definition RenderScene : M unit :=
  (* the floor plane *)
  let scaleXYZ := glm.Vec3 20.0 1.0 10.0 in
  let XrotationDegrees : float := (0.0)%Q in
  let YrotationDegrees : float := (0.0)%Q in
  let ZrotationDegrees : float := (0.0)%Q in
  let positionXYZ := glm.Vec3 0.0 0.0 0.0 in
  SetTransformations scaleXYZ XrotationDegrees YrotationDegrees ZrotationDegrees positionXYZ ;;
  SetShaderTexture "Floor" ;;
  SetTextureUVScale 2.50 2.50 ;;
  SetShaderMaterial "Ceramic" ;;
  DrawMesh Plane ;;
  (* cone shape (party hat) *)
  let scaleXYZ := glm.Vec3 1.0 2.25 1.0 in
  let positionXYZ := glm.Vec3 5.0 4.36 (-1.5) in
  let XrotationDegrees : float := (0.0)%Q in
  let YrotationDegrees : float := (0.0)%Q in
  let ZrotationDegrees : float := (0.0)%Q in
  SetTransformations scaleXYZ XrotationDegrees YrotationDegrees ZrotationDegrees positionXYZ ;;
  SetShaderTexture "Party" ;;
  SetTextureUVScale 1.0 1.0 ;;
  SetShaderMaterial "PaperHat" ;;
  DrawMesh Cone ;;
  (* sphere for the top of the party hat *)
  let scaleXYZ := glm.Vec3 0.25 0.25 0.25 in
  let positionXYZ := glm.Vec3 5.0 6.80 (-1.5) in
  let XrotationDegrees : float := (0.0)%Q in
  let YrotationDegrees : float := (0.0)%Q in
  let ZrotationDegrees : float := (0.0)%Q in
  SetTransformations scaleXYZ XrotationDegrees YrotationDegrees ZrotationDegrees positionXYZ ;;
  SetShaderTexture "Blue" ;;
  SetTextureUVScale 1.0 1.0 ;;
  SetShaderMaterial "PaperHat" ;;
  DrawMesh Sphere ;;
  (* flat cube for napkin *)
  let scaleXYZ := glm.Vec3 5.0 0.01 5.0 in
  let positionXYZ := glm.Vec3 5.0 4.33 (-1.5) in
  let XrotationDegrees : float := (0.0)%Q in
  let YrotationDegrees : float := (35.0)%Q in
  let ZrotationDegrees : float := (0.0)%Q in
  SetTransformations scaleXYZ XrotationDegrees YrotationDegrees ZrotationDegrees positionXYZ ;;
  SetShaderTexture "Blue" ;;
  SetTextureUVScale 1.0 1.0 ;;
  DrawMesh Box ;;
  (* box for table top *)
  let scaleXYZ := glm.Vec3 19.0 0.50 10.0 in
  let positionXYZ := glm.Vec3 0.0 4.0 0.0 in
  let XrotationDegrees : float := (0.0)%Q in
  let YrotationDegrees : float := (0.0)%Q in
  let ZrotationDegrees : float := (0.0)%Q in
  SetTransformations scaleXYZ XrotationDegrees YrotationDegrees ZrotationDegrees positionXYZ ;;
  SetShaderTexture "Table" ;;
  SetTextureUVScale 3.0 3.0 ;;
  SetShaderMaterial "Wood" ;;
  DrawMesh Box ;;
  (* four boxes to act as table legs *)
  let scaleXYZ := glm.Vec3 0.3 4.0 0.3 in
  let XrotationDegrees : float := (0.0)%Q in
  let YrotationDegrees : float := (0.0)%Q in
  let ZrotationDegrees : float := (0.0)%Q in
  let legHeight : float := glm.y scaleXYZ in
  let legCenterY : float := (legHeight / 2.0)%Q in
  let legPositions :=
    [ glm.Vec3 (-9.2) legCenterY (-4.7);
      glm.Vec3 9.2 legCenterY (-4.7);
      glm.Vec3 (-9.2) legCenterY 4.7;
      glm.Vec3 9.2 legCenterY 4.7 ] in
  for_each legPositions (fun pos =>
    let positionXYZ := pos in
    SetTransformations scaleXYZ XrotationDegrees YrotationDegrees ZrotationDegrees positionXYZ ;;
    SetShaderTexture "Table" ;;
    SetTextureUVScale 1.0 1.0 ;;
    SetShaderMaterial "Wood" ;;
    DrawMesh Box) ;;
  (* cube shape (present) *)
  let scaleXYZ := glm.Vec3 3.0 3.0 3.0 in
  let positionXYZ := glm.Vec3 (-6.0) 5.76 (-2.0) in
  let XrotationDegrees : float := (0.0)%Q in
  let YrotationDegrees : float := (-35.0)%Q in
  let ZrotationDegrees : float := (0.0)%Q in
  SetTransformations scaleXYZ XrotationDegrees YrotationDegrees ZrotationDegrees positionXYZ ;;
  SetShaderColor 0.6 0.1 0.1 1.0 ;;
  SetShaderTexture "present" ;;
  SetTextureUVScale 0.20 0.50 ;;
  SetShaderMaterial "WrappingPaper" ;;
  DrawMesh Box ;;
  (* sphere shape (balloon) *)
  let scaleXYZ := glm.Vec3 2.0 2.50 2.0 in
  let positionXYZ := glm.Vec3 4.0 12.0 (-4.0) in
  let XrotationDegrees : float := (0.0)%Q in
  let YrotationDegrees : float := (0.0)%Q in
  let ZrotationDegrees : float := (0.0)%Q in
  SetTransformations scaleXYZ XrotationDegrees YrotationDegrees ZrotationDegrees positionXYZ ;;
  SetShaderMaterial "Balloon" ;;
  SetShaderTexture "balloon" ;;
  SetTextureUVScale 1.0 1.0 ;;
  DrawMesh Sphere ;;
  (* pyramid as balloon knot *)
  let scaleXYZ := glm.Vec3 0.3 0.3 0.3 in
  let positionXYZ := glm.Vec3 4.0 9.45 (-4.0) in
  let XrotationDegrees : float := (0.0)%Q in
  let YrotationDegrees : float := (0.0)%Q in
  let ZrotationDegrees : float := (0.0)%Q in
  SetTransformations scaleXYZ XrotationDegrees YrotationDegrees ZrotationDegrees positionXYZ ;;
  SetShaderTexture "balloon" ;;
  SetTextureUVScale 1.0 1.0 ;;
  SetShaderMaterial "Balloon" ;;
  DrawMesh Pyramid4 ;;
  (* balloon string (thin cylinder) *)
  let scaleXYZ := glm.Vec3 0.025 10.0 0.05 in
  let positionXYZ := glm.Vec3 4.0 4.2 (-4.0) in
  let XrotationDegrees : float := (0.0)%Q in
  let YrotationDegrees : float := (0.0)%Q in
  let ZrotationDegrees : float := (0.0)%Q in
  SetTransformations scaleXYZ XrotationDegrees YrotationDegrees ZrotationDegrees positionXYZ ;;
  SetShaderColor 0.3 0.3 0.3 1.0 ;;
  DrawMesh Cylinder ;;
  (* cylinder (cake) *)
  let scaleXYZ := glm.Vec3 3.0 2.0 3.0 in
  let positionXYZ := glm.Vec3 0.0 4.33 0.0 in
  let XrotationDegrees : float := (0.0)%Q in
  let YrotationDegrees : float := (0.0)%Q in
  let ZrotationDegrees : float := (0.0)%Q in
  SetTransformations scaleXYZ XrotationDegrees YrotationDegrees ZrotationDegrees positionXYZ ;;
  SetShaderTexture "Frost_sides" ;;
  SetShaderTexture "Cake" ;;
  SetTextureUVScale 1.50 1.50 ;;
  DrawMesh Cylinder ;;
  (* cylinder top (icing texture) *)
  let scaleXYZ := glm.Vec3 3.01 0.1 3.01 in
  let positionXYZ := glm.Vec3 0.0 6.18 0.0 in
  SetTransformations scaleXYZ 0.0 0.0 0.0 positionXYZ ;;
  SetShaderTexture "Frost" ;;
  SetShaderTexture "Cake" ;;
  SetTextureUVScale 1.0 1.0 ;;
  DrawMesh Cylinder ;;
  (* cylinder plate *)
  let scaleXYZ := glm.Vec3 3.5 0.1 3.5 in
  let positionXYZ := glm.Vec3 0.0 4.33 0.0 in
  let XrotationDegrees : float := (0.0)%Q in
  let YrotationDegrees : float := (0.0)%Q in
  let ZrotationDegrees : float := (0.0)%Q in
  SetTransformations scaleXYZ XrotationDegrees YrotationDegrees ZrotationDegrees positionXYZ ;;
  SetShaderTexture "Plate" ;;
  SetTextureUVScale 1.0 1.0 ;;
  SetShaderMaterial "Ceramic" ;;
  DrawMesh Cylinder ;;
  (* cylinder (candle) *)
  let scaleXYZ := glm.Vec3 0.1 2.0 0.1 in
  let positionXYZ := glm.Vec3 0.0 6.33 0.0 in
  let XrotationDegrees : float := (0.0)%Q in
  let YrotationDegrees : float := (0.0)%Q in
  let ZrotationDegrees : float := (0.0)%Q in
  SetTransformations scaleXYZ XrotationDegrees YrotationDegrees ZrotationDegrees positionXYZ ;;
  SetShaderColor 0.9 0.9 0.4 1.0 ;;
  SetShaderMaterial "Candle" ;;
  DrawMesh Cylinder.

End Environment.

(** ** Vocabulary of the properties *)

(** The registry proper: the first [m_loadedTextures] entries of the
    table, in insertion order. *)
Definition registry_of (count : Z) (table : list TEXTURE_INFO) : list TEXTURE_INFO :=
  firstn (Z.to_nat count) table.

Definition registry (w : World) : list TEXTURE_INFO :=
  registry_of (m_loadedTextures w) (m_textureIDs w).

(** The table has its 16 slots and the count of loaded textures lies
    within it. *)
Definition well_formed (w : World) : Prop :=
  length (m_textureIDs w) = MAX_TEXTURES /\
  0 <= m_loadedTextures w <= Z.of_nat MAX_TEXTURES.

(** No entry of the registry carries [tag]. *)
Definition unregistered (tag : string) (w : World) : Prop :=
  forall t, In t (registry w) -> texture_tag t <> tag.

(** [t], at position [i], is the first entry of the registry whose tag is
    [tag]. *)
Definition first_entry (tag : string) (w : World) (i : nat) (t : TEXTURE_INFO) : Prop :=
  nth_error (registry w) i = Some t /\
  texture_tag t = tag /\
  forall j u, (j < i)%nat -> nth_error (registry w) j = Some u -> texture_tag u <> tag.

(** The first match of a linear search, with its position. *)
Fixpoint first_match (tag : string) (entries : list TEXTURE_INFO) (from : Z)
    : option (Z * TEXTURE_INFO) :=
  match entries with
  | [] => None
  | t :: rest =>
      if String.eqb (texture_tag t) tag then Some (from, t)
      else first_match tag rest (from + 1)
  end.

(** The slot [SetShaderTexture] pushes for [tag]. *)
Definition slot_in (tag : string) (count : Z) (table : list TEXTURE_INFO) : Z :=
  match first_match tag (registry_of count table) 0 with
  | Some (i, _) => i
  | None => -1
  end.

Definition slot_of (tag : string) (w : World) : Z :=
  slot_in tag (m_loadedTextures w) (m_textureIDs w).

(** The writes [SetShaderMaterial] makes on [sh] for [materialTag]. *)
Definition material_writes (uninitialised : OBJECT_MATERIAL) (materialTag : string)
    (materials : list OBJECT_MATERIAL) (sh : ShaderManager) : ShaderManager :=
  match materials with
  | [] => sh
  | _ :: _ =>
      let material := FindMaterial_loop materials materialTag uninitialised in
      setFloatValue "material.shininess" (shininess material)
        (setVec3Value "material.specularColor" (specularColor material)
           (setVec3Value "material.diffuseColor" (diffuseColor material) sh))
  end.

(** A world that differs from [w] in the uniforms written only. *)
Definition with_shader (sh : ShaderManager) (w : World) : World :=
  mkWorld (Some sh) (m_basicMeshes w) (m_loadedTextures w)
          (m_textureIDs w) (m_objectMaterials w) (gl w).

(** The uniforms a draw call of [w] was issued with: the [n]-th draw call
    in the order of issue. *)
Definition uniforms_at_draw (n : nat) (w : World) : option ShaderManager :=
  match nth_error (drawn (m_basicMeshes w)) n with
  | Some (_, sh) => sh
  | None => None
  end.


(** The three material uniforms in force. *)
Definition material_in_force (sh : ShaderManager)
    : option uniform * option uniform * option uniform :=
  (uniform_value "material.diffuseColor" sh,
   uniform_value "material.specularColor" sh,
   uniform_value "material.shininess" sh).

(** The outcome is not a null pointer dereferenced. *)
Definition no_null_dereference {A : Type} (o : outcome A) : Prop :=
  o <> Undefined NullDereference.

(** *** Sample data for the examples *)

Definition wood : OBJECT_MATERIAL :=
  Material "Wood" (glm.Vec3 0.4 0.25 0.1) (glm.Vec3 0.05 0.05 0.05) 4.0.

Definition garbage : OBJECT_MATERIAL :=
  Material "" (glm.Vec3 7 7 7) (glm.Vec3 9 9 9) 123.

(** A shader interface on which a wood material was pushed. *)
Definition wood_pushed : ShaderManager :=
  setFloatValue "material.shininess" 4.0
    (setVec3Value "material.specularColor" (glm.Vec3 0.05 0.05 0.05)
       (setVec3Value "material.diffuseColor" (glm.Vec3 0.4 0.25 0.1) [])).

(** A scene with the one material ["Wood"] and no texture. *)
Definition wood_world : World :=
  mkWorld (Some wood_pushed) (Meshes [] []) 0
          (repeat (TextureInfo 0 "") MAX_TEXTURES) [wood] GL.fresh.

(** A codec that decodes every file as a 4 by 4 RGB image. *)
Definition decode_all (filename : string) : option IMAGE := Some (Image 4 4 3).

(** A codec that knows the file of the floor texture only. *)
Definition decode_floor (filename : string) : option IMAGE :=
  if String.eqb filename "textures/Check_floor.jpg" then Some (Image 4 4 3) else None.



(** The transform of a draw step. *)
Record Transform : Type := Place
  { scaleXYZ : glm.vec3;
    XrotationDegrees : float;
    YrotationDegrees : float;
    ZrotationDegrees : float;
    positionXYZ : glm.vec3 }.



(** The table of 16 slots whose first entries are [entries]. *)
Definition table_of (entries : list TEXTURE_INFO) : list TEXTURE_INFO :=
  (entries ++ repeat (TextureInfo 0 "") (MAX_TEXTURES - length entries))%list.

(** A scene with three textures loaded, ["Floor"] in slot 2, and the
    material ["Wood"]. *)
Definition floor_world : World :=
  mkWorld (Some []) (Meshes [] []) 3
          (table_of [TextureInfo 1 "Party"; TextureInfo 2 "Blue"; TextureInfo 3 "Floor"])
          [wood] GL.fresh.

(** The same scene without a shader interface. *)
Definition unshaded_world : World :=
  mkWorld None (Meshes [] []) 3
          (table_of [TextureInfo 1 "Party"; TextureInfo 2 "Blue"; TextureInfo 3 "Floor"])
          [wood] GL.fresh.

(** Partial sums of the Maclaurin series of cosine and sine: [n] terms,
    starting from [term], the term of degree [k]. *)
Fixpoint series (n : nat) (k : Z) (term x2 : Q) : Q :=
  match n with
  | O => 0
  | S n' =>
      Qred (term + series n' (k + 2)
                     (Qred (- term * x2 / inject_Z ((k + 1) * (k + 2)))) x2)
  end.

(** A C library for the examples: eight terms of each series. *)
Definition cos_series (angle : float) : float := series 8 0 1 (angle * angle).
Definition sin_series (angle : float) : float := series 8 1 angle (angle * angle).


(** The file decodes to an image of 3 or 4 channels. *)
Definition decodable (stbi_load : string -> option IMAGE) (filename : string) : Prop :=
  exists image,
    stbi_load filename = Some image /\
    (colorChannels image = 3 \/ colorChannels image = 4).

(** The members of the [SceneManager] object are the same in [w] and
    [w']. *)
Definition same_members (w w' : World) : Prop :=
  m_pShaderManager w' = m_pShaderManager w /\
  m_basicMeshes w' = m_basicMeshes w /\
  m_loadedTextures w' = m_loadedTextures w /\
  m_textureIDs w' = m_textureIDs w /\
  m_objectMaterials w' = m_objectMaterials w.

(** [CreateGLTexture] for each of [tags], in order, with the results. *)
Fixpoint load_tags (stbi_load : string -> option IMAGE) (tags : list string)
    : M (list bool) :=
  match tags with
  | [] => ret []
  | tag :: rest =>
      loaded <- CreateGLTexture stbi_load "textures/sample.png" tag ;;
      others <- load_tags stbi_load rest ;;
      ret (loaded :: others)
  end.

Definition sixteen_tags : list string :=
  ["t0"; "t1"; "t2"; "t3"; "t4"; "t5"; "t6"; "t7";
   "t8"; "t9"; "t10"; "t11"; "t12"; "t13"; "t14"; "t15"].

(** The slots [FindTextureSlot] reports for [tags], where it returns. *)
Definition slots_found (tags : list string) (w : World) : list (option Z) :=
  map (fun tag => match FindTextureSlot tag w with
                  | Ok (slot, _) => Some slot
                  | Undefined _ => None
                  end) tags.

(** A new scene on an empty shader interface and a fresh GL context. *)
Definition new_world : World := SceneManager_new (Some []) GL.fresh.

(** A scene whose one texture, ["Floor"], was loaded from a fresh GL
    context. *)
Definition one_texture_world : World :=
  mkWorld (Some []) (Meshes [] []) 1 (table_of [TextureInfo 1 "Floor"]) []
          (GL.mkContext 2 [1] 0 [(0, 0); (0, 1)]
             [(1, GL.GL_TEXTURE_MAG_FILTER, GL.GL_LINEAR);
              (1, GL.GL_TEXTURE_MIN_FILTER, GL.GL_LINEAR);
              (1, GL.GL_TEXTURE_WRAP_T, GL.GL_REPEAT);
              (1, GL.GL_TEXTURE_WRAP_S, GL.GL_REPEAT)]
             [GL.Upload 1 GL.GL_RGB8 4 4] [1]).

(** The model matrix in force after a method has run. *)
Definition model_in_force (o : outcome (unit * World)) : option glm.mat4 :=
  match o with
  | Ok (_, w) =>
      match m_pShaderManager w with
      | Some sh =>
          match uniform_value g_ModelName sh with
          | Some (Mat4Value m) => Some m
          | _ => None
          end
      | None => None
      end
  | Undefined _ => None
  end.

(** The world point the model matrix set by [SetTransformations] sends the
    local point [p] to. *)
Definition world_point (cosf sinf : float -> float) (w : World) (t : Transform)
    (p : glm.vec3) : option glm.vec4 :=
  match model_in_force
          (SetTransformations cosf sinf (scaleXYZ t) (XrotationDegrees t)
             (YrotationDegrees t) (ZrotationDegrees t) (positionXYZ t) w) with
  | Some m => Some (glm.mul_vec m (glm.point p))
  | None => None
  end.

(** Modelled from the spec: "scale applied first".  A point scaled by
    [s], coordinate by coordinate; the factors are taken as they are,
    negative or zero. *)
Definition scaled (s : glm.vec3) (p : glm.vec4) : glm.vec4 :=
  glm.Vec4 (glm.x s * glm.r p)%Q (glm.y s * glm.g p)%Q (glm.z s * glm.b p)%Q (glm.a p).

(** Modelled from the spec: "then rotation about X".  A point turned
    about the X axis by the angle of cosine [c] and sine [s]: X is kept,
    Y turns towards Z. *)
Definition turned_about_X (c s : float) (p : glm.vec4) : glm.vec4 :=
  glm.Vec4 (glm.r p) (c * glm.g p - s * glm.b p)%Q (s * glm.g p + c * glm.b p)%Q (glm.a p).

(** Modelled from the spec: "then Y".  A point turned about the Y axis:
    Y is kept, Z turns towards X. *)
Definition turned_about_Y (c s : float) (p : glm.vec4) : glm.vec4 :=
  glm.Vec4 (c * glm.r p + s * glm.b p)%Q (glm.g p) (c * glm.b p - s * glm.r p)%Q (glm.a p).

(** Modelled from the spec: "then Z".  A point turned about the Z axis:
    Z is kept, X turns towards Y. *)
Definition turned_about_Z (c s : float) (p : glm.vec4) : glm.vec4 :=
  glm.Vec4 (c * glm.r p - s * glm.g p)%Q (s * glm.r p + c * glm.g p)%Q (glm.b p) (glm.a p).

(** Modelled from the spec: "then translation".  A point moved by [t],
    in homogeneous coordinates. *)
Definition translated (t : glm.vec3) (p : glm.vec4) : glm.vec4 :=
  glm.Vec4 (glm.r p + glm.x t * glm.a p)%Q (glm.g p + glm.y t * glm.a p)%Q
           (glm.b p + glm.z t * glm.a p)%Q (glm.a p).

(** Modelled from the spec: "converted from degrees to radians".  The
    half turn, 180 degrees, is pi radians; pi lies between these two
    rationals, its first twenty decimals and the next. *)
Definition pi_below : Q := 3.14159265358979323846.

(** Modelled from the spec: pi from above, see [pi_below]. *)
Definition pi_above : Q := 3.14159265358979323847.

(** Modelled from the spec: [f] converts degrees to radians, that is, it
    multiplies by pi / 180, for a value of pi that is right to the digits
    written out. *)
Definition converts_degrees (f : float -> float) : Prop :=
  exists pi : Q,
    (pi_below <= pi <= pi_above)%Q /\
    forall degrees, (f degrees == degrees * pi / 180)%Q.

(** [p] is within [eps] of the point [q], coordinate by coordinate. *)
Definition within (eps : Q) (p : glm.vec4) (q : glm.vec3) : Prop :=
  (glm.x q - eps <= glm.r p <= glm.x q + eps)%Q /\
  (glm.y q - eps <= glm.g p <= glm.y q + eps)%Q /\
  (glm.z q - eps <= glm.b p <= glm.z q + eps)%Q.

(** The transform of the example: scale (2,1,1), a quarter turn about Y,
    translation (0,0,5). *)
Definition quarter_turn : Transform :=
  Place (glm.Vec3 2 1 1) 0 90 0 (glm.Vec3 0 0 5).

(** The slots written to the sampler uniform, newest first. *)
Fixpoint sampler_writes (sh : ShaderManager) : list Z :=
  match sh with
  | [] => []
  | (name, Sampler2DValue slot) :: older =>
      if String.eqb name g_TextureValueName then slot :: sampler_writes older
      else sampler_writes older
  | _ :: older => sampler_writes older
  end.

(** The scene as the program runs it: [PrepareScene], then
    [RenderScene], on a new [SceneManager]. *)
Definition shipped_scene (stbi_load : string -> option IMAGE) (cosf sinf : float -> float)
    (uninitialised : OBJECT_MATERIAL) : M unit :=
  PrepareScene stbi_load ;; RenderScene cosf sinf uninitialised.

(** The order of the draw calls of [RenderScene]; the cake body and the
    cake top are the draws 13 and 14, counted from 0. *)
Definition draw_order : list mesh :=
  [Plane; Cone; Sphere; Box; Box; Box; Box; Box; Box; Box; Sphere; Pyramid4;
   Cylinder; Cylinder; Cylinder; Cylinder; Cylinder].

(** Each setter, on a shader interface that is there, returns and changes
    the uniforms written only. *)
Definition settles (m : M unit) (w : World) : Prop :=
  exists sh', m w = Ok (tt, with_shader sh' w).

(** ** Vocabulary of the further properties *)

(** [w'] has the texture table, the count, the materials, the GL context
    and the loaded meshes of [w]. *)
Definition same_resources (w w' : World) : Prop :=
  m_loadedTextures w' = m_loadedTextures w /\
  m_textureIDs w' = m_textureIDs w /\
  m_objectMaterials w' = m_objectMaterials w /\
  gl w' = gl w /\
  loaded (m_basicMeshes w') = loaded (m_basicMeshes w).

(** Whenever [m] returns, it has left the resources alone, kept the
    pointer to the shader interface null or not as it was, and issued the
    draw calls [kinds], in that order, after those issued before. *)
Definition issues {A : Type} (kinds : list mesh) (m : M A) : Prop :=
  forall w a w',
    m w = Ok (a, w') ->
    same_resources w w' /\
    (m_pShaderManager w' = None <-> m_pShaderManager w = None) /\
    map fst (drawn (m_basicMeshes w')) =
      (map fst (drawn (m_basicMeshes w)) ++ kinds)%list.

(** There is a shader interface and the texture table is well formed. *)
Definition renderable (w : World) : Prop :=
  m_pShaderManager w <> None /\ well_formed w.

(** [m] returns on every renderable world, in a renderable world. *)
Definition returns {A : Type} (m : M A) : Prop :=
  forall w, renderable w -> exists a w', m w = Ok (a, w') /\ renderable w'.

(** A material tagged [tag] is defined. *)
Definition defined (tag : string) (w : World) : Prop :=
  exists m, In m (m_objectMaterials w) /\ material_tag m = tag.

(** [m], the first material tagged [tag], after the materials [before]. *)
Definition first_material (tag : string) (w : World) (before : list OBJECT_MATERIAL)
    (m : OBJECT_MATERIAL) : Prop :=
  (exists after, m_objectMaterials w = (before ++ m :: after)%list) /\
  material_tag m = tag /\
  forall m', In m' before -> material_tag m' <> tag.

(** The three writes of a material, in the order of [SetShaderMaterial]. *)
Definition push_material (m : OBJECT_MATERIAL) (sh : ShaderManager) : ShaderManager :=
  setFloatValue "material.shininess" (shininess m)
    (setVec3Value "material.specularColor" (specularColor m)
       (setVec3Value "material.diffuseColor" (diffuseColor m) sh)).

(** The materials [DefineObjectMaterials] appends, in order. *)
Definition scene_materials : list OBJECT_MATERIAL :=
  [ Material "Candle" (glm.Vec3 1.0 0.85 0.5) (glm.Vec3 0.2 0.2 0.2) 4.0;
    Material "Balloon" (glm.Vec3 0.4 0.1 0.6) (glm.Vec3 0.3 0.2 0.5) 16.0;
    Material "WrappingPaper" (glm.Vec3 0.7 0.0 0.0) (glm.Vec3 1.0 0.9 0.3) 64.0;
    Material "Wood" (glm.Vec3 0.4 0.25 0.1) (glm.Vec3 0.05 0.05 0.05) 4.0;
    Material "PaperHat" (glm.Vec3 0.8 0.4 0.6) (glm.Vec3 0.1 0.1 0.1) 2.0;
    Material "Cake" (glm.Vec3 0.95 0.8 0.7) (glm.Vec3 0.2 0.15 0.1) 8.0;
    Material "Ceramic" (glm.Vec3 0.9 0.9 0.95) (glm.Vec3 0.9 0.9 0.9) 48.0 ].

(** The material tags [RenderScene] asks for. *)
Definition rendered_materials : list string :=
  ["Ceramic"; "PaperHat"; "Wood"; "WrappingPaper"; "Balloon"; "Candle"].

(** Two definitions of ["Wood"], the second one out of reach. *)
Definition two_woods_world : World :=
  mkWorld (Some []) (Meshes [] []) 0 (repeat (TextureInfo 0 "") MAX_TEXTURES)
          [garbage; wood; Material "Wood" (glm.Vec3 1 1 1) (glm.Vec3 1 1 1) 1] GL.fresh.

(** Every tag of [tags] has a material. *)
Definition defines (tags : list string) (w : World) : Prop :=
  forall tag, In tag tags -> defined tag w.

(** The codec decodes the file to 3 or 4 channels, as a boolean. *)
Definition decodes (stbi_load : string -> option IMAGE) (filename : string) : bool :=
  match stbi_load filename with
  | Some image => (colorChannels image =? 3) || (colorChannels image =? 4)
  | None => false
  end.

(** A codec that decodes every file as a greyscale image. *)
Definition decode_grey (filename : string) : option IMAGE := Some (Image 4 4 1).

(** The files and tags of [LoadSceneTextures], in the order of the calls. *)
Definition scene_textures : list (string * string) :=
  [ ("textures/Party_hat.jpg", "Party");
    ("textures/blue_party.jpg", "Blue");
    ("textures/Check_floor.jpg", "Floor");
    ("textures/table.jpg", "Table");
    ("textures/Plate.jpg", "Plate");
    ("textures/top_frosting.png", "Frost");
    ("textures/frosting_sides.png", "Frost_sides");
    ("textures/Purple_balloon.png", "balloon");
    ("textures/red_present.jpg", "present") ].

(** The tags of the files of the scene that decode, in order. *)
Definition decoded_tags (stbi_load : string -> option IMAGE) : list string :=
  map snd (filter (fun entry => decodes stbi_load (fst entry)) scene_textures).

(** Every entry of the registry is bound to the texture unit of its
    slot. *)
Definition slots_bound (w : World) : Prop :=
  forall i t, nth_error (registry w) i = Some t ->
              GL.binding (Z.of_nat i) (GL.bound (gl w)) = ID t.

(** A new scene without a shader interface. *)
Definition unshaded_new_world : World := SceneManager_new None GL.fresh.

(** The uniforms in force in a world, if it has a shader interface. *)
Definition in_force (name : string) (o : outcome (unit * World)) : option uniform :=
  match o with
  | Ok (_, w) =>
      match m_pShaderManager w with
      | Some sh => uniform_value name sh
      | None => None
      end
  | Undefined _ => None
  end.

(** A name of the lighting uniforms: the switch, a member of a point
    light or a member of the directional light. *)
Definition is_light_name (name : string) : bool :=
  String.eqb name g_UseLightingName
  || String.prefix "pointLights[" name
  || String.prefix "directionalLight." name.

(** The meshes [PrepareScene] uploads, the last one first. *)
Definition prepared_meshes : list mesh := [Pyramid4; Cylinder; Box; Cone; Sphere; Plane].

(** * Properties *)

(** ** Running the monad *)

Lemma bind_Ok {A B : Type} (m : M A) (k : A -> M B) (w w' : World) (a : A) :
  m w = Ok (a, w') -> bind m k w = k a w'.
Proof. intros E. unfold bind. now rewrite E. Qed.

Lemma bind_Undefined {A B : Type} (m : M A) (k : A -> M B) (w : World) (f : fault) :
  m w = Undefined f -> bind m k w = Undefined f.
Proof. intros E. unfold bind. now rewrite E. Qed.

Lemma bind_assoc {A B C : Type} (m : M A) (k : A -> M B) (h : B -> M C) (w : World) :
  bind (bind m k) h w = bind m (fun x => bind (k x) h) w.
Proof. unfold bind. destruct (m w) as [[? ?]|]; reflexivity. Qed.

Lemma call_shader_Some (set : ShaderManager -> ShaderManager) (w : World) (sh : ShaderManager) :
  m_pShaderManager w = Some sh -> call_shader set w = Ok (tt, with_shader (set sh) w).
Proof. intros E. unfold call_shader. now rewrite E. Qed.

Lemma call_shader_None (set : ShaderManager -> ShaderManager) (w : World) :
  m_pShaderManager w = None -> call_shader set w = Undefined NullDereference.
Proof. intros E. unfold call_shader. now rewrite E. Qed.

Lemma shader_is_set_Some (w : World) (sh : ShaderManager) :
  m_pShaderManager w = Some sh -> shader_is_set w = Ok (true, w).
Proof. intros E. unfold shader_is_set. now rewrite E. Qed.

Lemma shader_is_set_None (w : World) :
  m_pShaderManager w = None -> shader_is_set w = Ok (false, w).
Proof. intros E. unfold shader_is_set. now rewrite E. Qed.

Lemma with_shader_shader (sh : ShaderManager) (w : World) :
  m_pShaderManager (with_shader sh w) = Some sh.
Proof. reflexivity. Qed.

Lemma with_shader_twice (sh sh' : ShaderManager) (w : World) :
  with_shader sh (with_shader sh' w) = with_shader sh w.
Proof. reflexivity. Qed.

Lemma with_shader_same (sh : ShaderManager) (w : World) :
  m_pShaderManager w = Some sh -> with_shader sh w = w.
Proof. destruct w; simpl; intros ->; reflexivity. Qed.

Lemma registry_with_shader (sh : ShaderManager) (w : World) :
  registry (with_shader sh w) = registry w.
Proof. reflexivity. Qed.

Lemma well_formed_with_shader (sh : ShaderManager) (w : World) :
  well_formed w -> well_formed (with_shader sh w).
Proof. intros H; exact H. Qed.

(** ** The linear searches *)

Lemma skipn_cons_nth_error {A : Type} (l : list A) (j : nat) (x : A) :
  nth_error l j = Some x -> skipn j l = x :: skipn (S j) l.
Proof.
  revert l. induction j as [|j IH]; intros [|y l] E; try discriminate.
  - now inversion E.
  - simpl in E. now rewrite skipn_cons, (IH _ E).
Qed.

Lemma texture_at_registry (w : World) (j : nat) (t : TEXTURE_INFO) :
  nth_error (m_textureIDs w) j = Some t -> texture_at (Z.of_nat j) w = Ok (t, w).
Proof.
  intros E. unfold texture_at.
  destruct (Z.of_nat j <? 0) eqn:N; [apply Z.ltb_lt in N; lia|].
  now rewrite Nat2Z.id, E.
Qed.

Lemma FindTextureSlot_loop_spec (tag : string) (w : World) (k j : nat) :
  (j + k <= length (m_textureIDs w))%nat ->
  FindTextureSlot_loop tag k (Z.of_nat j) w =
  Ok (match first_match tag (firstn k (skipn j (m_textureIDs w))) (Z.of_nat j) with
      | Some (i, _) => i
      | None => -1
      end, w).
Proof.
  revert j. induction k as [|k IH]; intros j Hlen; [reflexivity|].
  destruct (nth_error (m_textureIDs w) j) as [t|] eqn:E.
  2:{ apply nth_error_None in E. lia. }
  cbn [FindTextureSlot_loop].
  rewrite (bind_Ok _ _ _ _ _ (texture_at_registry w j t E)).
  rewrite (skipn_cons_nth_error _ _ _ E). cbn [firstn first_match].
  destruct (String.eqb (texture_tag t) tag); [reflexivity|].
  replace (Z.of_nat j + 1) with (Z.of_nat (S j)) by lia.
  apply IH. lia.
Qed.

Lemma FindTextureID_loop_spec (tag : string) (w : World) (k j : nat) :
  (j + k <= length (m_textureIDs w))%nat ->
  FindTextureID_loop tag k (Z.of_nat j) w =
  Ok (match first_match tag (firstn k (skipn j (m_textureIDs w))) (Z.of_nat j) with
      | Some (_, t) => int_of_GLuint (ID t)
      | None => -1
      end, w).
Proof.
  revert j. induction k as [|k IH]; intros j Hlen; [reflexivity|].
  destruct (nth_error (m_textureIDs w) j) as [t|] eqn:E.
  2:{ apply nth_error_None in E. lia. }
  cbn [FindTextureID_loop].
  rewrite (bind_Ok _ _ _ _ _ (texture_at_registry w j t E)).
  rewrite (skipn_cons_nth_error _ _ _ E). cbn [firstn first_match].
  destruct (String.eqb (texture_tag t) tag); [reflexivity|].
  replace (Z.of_nat j + 1) with (Z.of_nat (S j)) by lia.
  apply IH. lia.
Qed.

Lemma count_within_table (w : World) :
  well_formed w -> (Z.to_nat (m_loadedTextures w) <= length (m_textureIDs w))%nat.
Proof. intros [Hl Hn]. rewrite Hl. lia. Qed.

Lemma FindTextureSlot_slot_of (tag : string) (w : World) :
  well_formed w -> FindTextureSlot tag w = Ok (slot_of tag w, w).
Proof.
  intros Hwf. unfold FindTextureSlot, get_loadedTextures, bind.
  apply (FindTextureSlot_loop_spec tag w _ 0). simpl.
  now apply count_within_table.
Qed.

(** ** The setters on a shader interface that is there *)

Section Setters.

Variables cosf sinf : float -> float.
Variable uninitialised : OBJECT_MATERIAL.
Variable w : World.
Variable sh : ShaderManager.
Hypothesis shader : m_pShaderManager w = Some sh.

Lemma SetTransformations_Some (s : glm.vec3) (xr yr zr : float) (p : glm.vec3) :
  SetTransformations cosf sinf s xr yr zr p w =
  Ok (tt, with_shader
            (setMat4Value g_ModelName
               (glm.mul (glm.mul (glm.mul (glm.mul (glm.translate p)
                  (glm.rotate cosf sinf (glm.radians zr) (glm.Vec3 0 0 1)))
                  (glm.rotate cosf sinf (glm.radians yr) (glm.Vec3 0 1 0)))
                  (glm.rotate cosf sinf (glm.radians xr) (glm.Vec3 1 0 0)))
                  (glm.scale s)) sh) w).
Proof.
  unfold SetTransformations.
  rewrite (bind_Ok _ _ _ _ _ (shader_is_set_Some _ _ shader)).
  now apply call_shader_Some.
Qed.

Lemma SetShaderColor_Some (r g b a : float) :
  SetShaderColor r g b a w =
  Ok (tt, with_shader (setVec4Value g_ColorValueName (glm.Vec4 r g b a)
                         (setIntValue g_UseTextureName 0 sh)) w).
Proof.
  unfold SetShaderColor.
  rewrite (bind_Ok _ _ _ _ _ (shader_is_set_Some _ _ shader)).
  rewrite (bind_Ok _ _ _ _ _ (call_shader_Some _ _ _ shader)).
  reflexivity.
Qed.

Lemma SetTextureUVScale_Some (u v : float) :
  SetTextureUVScale u v w = Ok (tt, with_shader (setVec2Value "UVscale" (glm.Vec2 u v) sh) w).
Proof.
  unfold SetTextureUVScale.
  rewrite (bind_Ok _ _ _ _ _ (shader_is_set_Some _ _ shader)).
  now apply call_shader_Some.
Qed.

Lemma SetShaderTexture_Some (textureTag : string) :
  well_formed w ->
  SetShaderTexture textureTag w =
  Ok (tt, with_shader
            (setSampler2DValue g_TextureValueName
               (slot_in textureTag (m_loadedTextures w) (m_textureIDs w))
               (setIntValue g_UseTextureName 1 sh)) w).
Proof.
  intros Hwf. unfold SetShaderTexture.
  rewrite (bind_Ok _ _ _ _ _ (shader_is_set_Some _ _ shader)).
  rewrite (bind_Ok _ _ _ _ _ (call_shader_Some _ _ _ shader)).
  rewrite (bind_Ok _ _ _ _ _ (FindTextureSlot_slot_of textureTag _
             (well_formed_with_shader _ _ Hwf))).
  reflexivity.
Qed.

Lemma SetShaderMaterial_Some (materialTag : string) :
  SetShaderMaterial uninitialised materialTag w =
  Ok (tt, with_shader
            (material_writes uninitialised materialTag (m_objectMaterials w) sh) w).
Proof.
  unfold SetShaderMaterial, FindMaterial, get_objectMaterials, bind, ret, material_writes.
  destruct (m_objectMaterials w) as [|m rest] eqn:E.
  - cbn [length Nat.ltb Nat.leb]. now rewrite (with_shader_same _ _ shader).
  - cbn [length Nat.ltb Nat.leb Nat.eqb]. rewrite E. cbn [length Nat.eqb].
    unfold call_shader. rewrite shader. reflexivity.
Qed.

End Setters.



(** ** The searches and the setters never go through a null pointer *)

Lemma FindTextureSlot_loop_no_null (tag : string) (k : nat) (i : Z) (w : World) :
  no_null_dereference (FindTextureSlot_loop tag k i w).
Proof.
  revert i. induction k as [|k IH]; intros i; [discriminate|].
  cbn [FindTextureSlot_loop]. unfold bind, texture_at.
  destruct (i <? 0); [discriminate|].
  destruct (nth_error (m_textureIDs w) (Z.to_nat i)) as [t|]; [|discriminate].
  destruct (String.eqb (texture_tag t) tag); [discriminate|apply IH].
Qed.

(** ** Materials *)

Lemma SetShaderMaterial_empty (uninitialised : OBJECT_MATERIAL) (materialTag : string)
    (w : World) :
  m_objectMaterials w = [] -> SetShaderMaterial uninitialised materialTag w = Ok (tt, w).
Proof.
  intros E. unfold SetShaderMaterial, get_objectMaterials, bind. now rewrite E.
Qed.

Lemma FindMaterial_loop_absent (materials : list OBJECT_MATERIAL) (tag : string)
    (material : OBJECT_MATERIAL) :
  (forall m, In m materials -> material_tag m <> tag) ->
  FindMaterial_loop materials tag material = material.
Proof.
  induction materials as [|m rest IH]; intros Habs; [reflexivity|].
  cbn [FindMaterial_loop].
  destruct (String.eqb (material_tag m) tag) eqn:E.
  - apply String.eqb_eq in E. exfalso. apply (Habs m); [now left|exact E].
  - apply IH. intros m' Hin. apply Habs. now right.
Qed.

(** On a registry that has materials but none tagged [materialTag], the
    three material uniforms are written all the same, with the contents of
    the local that was never assigned. *)
Lemma SetShaderMaterial_absent (uninitialised : OBJECT_MATERIAL) (materialTag : string)
    (w : World) (sh : ShaderManager) :
  m_pShaderManager w = Some sh ->
  m_objectMaterials w <> [] ->
  (forall m, In m (m_objectMaterials w) -> material_tag m <> materialTag) ->
  SetShaderMaterial uninitialised materialTag w =
  Ok (tt, with_shader
            (setFloatValue "material.shininess" (shininess uninitialised)
               (setVec3Value "material.specularColor" (specularColor uninitialised)
                  (setVec3Value "material.diffuseColor" (diffuseColor uninitialised) sh))) w).
Proof.
  intros Hsh Hne Habs. rewrite (SetShaderMaterial_Some _ _ _ Hsh). unfold material_writes.
  destruct (m_objectMaterials w) as [|m rest] eqn:E; [contradiction|].
  cbv zeta. now rewrite (FindMaterial_loop_absent _ _ _ Habs).
Qed.

(** C1 (defect of the code).  [SetShaderMaterial] is meant to leave the
    material uniforms alone when the tag is not in the registry.  With the
    one material ["Wood"] registered and the tag ["Metal"] asked for,
    [FindMaterial] reports success without a match, and the three material
    uniforms are written with the contents of the unassigned local; with
    [garbage] in that local the material in force is no longer the one
    pushed before. *)
Theorem SetShaderMaterial_absent_tag_pushes :
  (forall uninitialised,
     SetShaderMaterial uninitialised "Metal" wood_world =
     Ok (tt, with_shader
               (setFloatValue "material.shininess" (shininess uninitialised)
                  (setVec3Value "material.specularColor" (specularColor uninitialised)
                     (setVec3Value "material.diffuseColor" (diffuseColor uninitialised)
                        wood_pushed))) wood_world)) /\
  (exists sh',
     SetShaderMaterial garbage "Metal" wood_world = Ok (tt, with_shader sh' wood_world) /\
     material_in_force sh' <> material_in_force wood_pushed).
Proof.
  split.
  - intros un. reflexivity.
  - eexists. split; [reflexivity|]. cbv. discriminate.
Qed.

(** ** The render state across draw steps *)

Lemma DrawMesh_Ok (k : mesh) (w : World) :
  DrawMesh k w =
  Ok (tt, mkWorld (m_pShaderManager w)
                  (Meshes (loaded (m_basicMeshes w))
                          (drawn (m_basicMeshes w) ++ [(k, m_pShaderManager w)]))
                  (m_loadedTextures w) (m_textureIDs w) (m_objectMaterials w) (gl w)).
Proof. reflexivity. Qed.


(** One step of a sequence: the method at the head returns by [lem]. *)
Ltac tidy :=
  cbn [with_shader m_pShaderManager m_basicMeshes m_loadedTextures m_textureIDs
       m_objectMaterials gl loaded drawn].

Ltac run lem :=
  rewrite ?bind_assoc;
  erewrite bind_Ok by (eapply lem; first [eassumption | reflexivity]);
  tidy.


Lemma well_formed_floor_world : well_formed floor_world.
Proof. split; [reflexivity|]. cbn. lia. Qed.


(** ** The null pointer *)

Lemma FindTextureSlot_loop_world (tag : string) (k : nat) (i : Z) (w w' : World) (slot : Z) :
  FindTextureSlot_loop tag k i w = Ok (slot, w') -> w' = w.
Proof.
  revert i. induction k as [|k IH]; intros i; cbn [FindTextureSlot_loop].
  - unfold ret. now inversion 1.
  - unfold bind, texture_at.
    destruct (i <? 0); [discriminate|].
    destruct (nth_error (m_textureIDs w) (Z.to_nat i)) as [t|]; [|discriminate].
    destruct (String.eqb (texture_tag t) tag); [unfold ret; now inversion 1|apply IH].
Qed.

Lemma SetShaderTexture_no_null (textureTag : string) (w : World) :
  m_pShaderManager w <> None -> no_null_dereference (SetShaderTexture textureTag w).
Proof.
  intros Hsh. destruct (m_pShaderManager w) as [sh|] eqn:E; [clear Hsh|contradiction].
  unfold SetShaderTexture.
  rewrite (bind_Ok _ _ _ _ _ (shader_is_set_Some _ _ E)).
  rewrite (bind_Ok _ _ _ _ _ (call_shader_Some _ _ _ E)).
  unfold bind at 1.
  destruct (FindTextureSlot textureTag _) as [[slot w']|f] eqn:F.
  - unfold FindTextureSlot, get_loadedTextures, bind in F.
    apply FindTextureSlot_loop_world in F. subst w'.
    rewrite (call_shader_Some _ _ _ (with_shader_shader _ _)). discriminate.
  - intros H. inversion H; subst f.
    exact (FindTextureSlot_loop_no_null _ _ _ _ F).
Qed.

Lemma SetupSceneLights_None (w : World) :
  m_pShaderManager w = None -> SetupSceneLights w = Undefined NullDereference.
Proof.
  intros E. unfold SetupSceneLights. apply bind_Undefined. now apply call_shader_None.
Qed.

Lemma SetupSceneLights_Some (w : World) (sh : ShaderManager) :
  m_pShaderManager w = Some sh -> exists sh', SetupSceneLights w = Ok (tt, with_shader sh' w).
Proof.
  intros E. destruct w as [p meshes n table materials c]. cbn in E. subst p.
  unfold SetupSceneLights.
  repeat run call_shader_Some.
  erewrite call_shader_Some by reflexivity. tidy.
  eexists. reflexivity.
Qed.

(** C10.  The guard against a null [m_pShaderManager] is not the same in
    every setter.  Without a shader interface, [SetTransformations],
    [SetShaderColor], [SetShaderTexture] and [SetTextureUVScale] return and
    leave the world as it was, while [SetShaderMaterial] (on a registry
    that holds a material, whatever the tag) and [SetupSceneLights] go
    through the null pointer; [SetShaderMaterial] on an empty registry
    returns before it gets there.  With a shader interface, none of the six
    goes through a null pointer. *)
Theorem null_guard_is_asymmetric
    (cosf sinf : float -> float) (uninitialised : OBJECT_MATERIAL) (w : World) :
  (m_pShaderManager w = None ->
     (forall s xr yr zr p, SetTransformations cosf sinf s xr yr zr p w = Ok (tt, w)) /\
     (forall r g b a, SetShaderColor r g b a w = Ok (tt, w)) /\
     (forall textureTag, SetShaderTexture textureTag w = Ok (tt, w)) /\
     (forall u v, SetTextureUVScale u v w = Ok (tt, w)) /\
     (forall materialTag,
        m_objectMaterials w <> [] ->
        SetShaderMaterial uninitialised materialTag w = Undefined NullDereference) /\
     (forall materialTag,
        m_objectMaterials w = [] ->
        SetShaderMaterial uninitialised materialTag w = Ok (tt, w)) /\
     SetupSceneLights w = Undefined NullDereference) /\
  (m_pShaderManager w <> None ->
     (forall s xr yr zr p,
        no_null_dereference (SetTransformations cosf sinf s xr yr zr p w)) /\
     (forall r g b a, no_null_dereference (SetShaderColor r g b a w)) /\
     (forall textureTag, no_null_dereference (SetShaderTexture textureTag w)) /\
     (forall u v, no_null_dereference (SetTextureUVScale u v w)) /\
     (forall materialTag,
        no_null_dereference (SetShaderMaterial uninitialised materialTag w)) /\
     no_null_dereference (SetupSceneLights w)).
Proof.
  split.
  - intros E. repeat split.
    + intros. unfold SetTransformations.
      now rewrite (bind_Ok _ _ _ _ _ (shader_is_set_None _ E)).
    + intros. unfold SetShaderColor.
      now rewrite (bind_Ok _ _ _ _ _ (shader_is_set_None _ E)).
    + intros. unfold SetShaderTexture.
      now rewrite (bind_Ok _ _ _ _ _ (shader_is_set_None _ E)).
    + intros. unfold SetTextureUVScale.
      now rewrite (bind_Ok _ _ _ _ _ (shader_is_set_None _ E)).
    + intros materialTag Hne.
      unfold SetShaderMaterial, FindMaterial, get_objectMaterials, bind, ret.
      destruct (m_objectMaterials w) as [|m rest] eqn:Em; [contradiction|].
      cbn [length Nat.ltb Nat.leb]. rewrite Em. cbn [length Nat.eqb].
      unfold call_shader. now rewrite E.
    + intros materialTag Hempty. now apply SetShaderMaterial_empty.
    + now apply SetupSceneLights_None.
  - intros Hsh. destruct (m_pShaderManager w) as [sh|] eqn:E; [clear Hsh|contradiction].
    unfold no_null_dereference. repeat split.
    + intros. now rewrite (SetTransformations_Some _ _ _ _ E).
    + intros. now rewrite (SetShaderColor_Some _ _ E).
    + intros. apply SetShaderTexture_no_null. now rewrite E.
    + intros. now rewrite (SetTextureUVScale_Some _ _ E).
    + intros. now rewrite (SetShaderMaterial_Some _ _ _ E).
    + destruct (SetupSceneLights_Some _ _ E) as [sh' ->]. discriminate.
Qed.

(** Both cases of C10 occur: [unshaded_world] has no shader interface and
    a material, [floor_world] has a shader interface. *)
Lemma null_guard_is_asymmetric_examples :
  SetShaderTexture "Floor" unshaded_world = Ok (tt, unshaded_world) /\
  SetShaderMaterial garbage "Wood" unshaded_world = Undefined NullDereference /\
  SetupSceneLights unshaded_world = Undefined NullDereference /\
  no_null_dereference (SetShaderMaterial garbage "Wood" floor_world).
Proof.
  repeat split; try reflexivity. discriminate.
Qed.

(** ** Loading a texture *)

Lemma firstn_store_next {A : Type} (l : list A) (n : nat) (x : A) :
  (n < length l)%nat -> firstn (S n) (store l n x) = (firstn n l ++ [x])%list.
Proof.
  revert n. induction l as [|y l IH]; intros n Hn; [simpl in Hn; lia|].
  destruct n as [|n]; [reflexivity|].
  cbn [store]. rewrite !firstn_cons. cbn [app]. f_equal. apply IH. simpl in Hn. lia.
Qed.

Lemma length_store {A : Type} (l : list A) (n : nat) (x : A) :
  length (store l n x) = length l.
Proof.
  revert n. induction l as [|y l IH]; intros [|n]; cbn [store length]; auto.
Qed.

Lemma nth_error_store {A : Type} (l : list A) (n : nat) (x : A) :
  (n < length l)%nat -> nth_error (store l n x) n = Some x.
Proof.
  revert n. induction l as [|y l IH]; intros n Hn; [simpl in Hn; lia|].
  destruct n as [|n]; [reflexivity|]. cbn [store nth_error]. apply IH. simpl in Hn. lia.
Qed.

(** Unfolds the monad over a world given by its members. *)
Ltac run_load :=
  cbv [bind glGenTextures call_gl get_loadedTextures set_texture_at set_loadedTextures ret
       GL.glGenTextures fst
       m_pShaderManager m_basicMeshes m_loadedTextures m_textureIDs m_objectMaterials gl].

Section Loading.

Variable stbi_load : string -> option IMAGE.
Variables filename tag : string.
Variable w : World.

Lemma CreateGLTexture_undecoded :
  stbi_load filename = None -> CreateGLTexture stbi_load filename tag w = Ok (false, w).
Proof. intros E. unfold CreateGLTexture. now rewrite E. Qed.

Lemma CreateGLTexture_channels (image : IMAGE) :
  stbi_load filename = Some image ->
  colorChannels image <> 3 -> colorChannels image <> 4 ->
  exists w', CreateGLTexture stbi_load filename tag w = Ok (false, w') /\ same_members w w'.
Proof.
  intros E H3 H4. unfold CreateGLTexture. rewrite E.
  apply Z.eqb_neq in H3, H4. rewrite H3, H4.
  generalize w. intros [p meshes n table materials c]. run_load.
  eexists. split; [reflexivity|].
  unfold same_members.
  cbn [m_pShaderManager m_basicMeshes m_loadedTextures m_textureIDs m_objectMaterials].
  auto.
Qed.

Lemma CreateGLTexture_loaded (image : IMAGE) :
  stbi_load filename = Some image ->
  colorChannels image = 3 \/ colorChannels image = 4 ->
  0 <= m_loadedTextures w < Z.of_nat (length (m_textureIDs w)) ->
  exists c,
    CreateGLTexture stbi_load filename tag w =
    Ok (true, mkWorld (m_pShaderManager w) (m_basicMeshes w) (m_loadedTextures w + 1)
                      (store (m_textureIDs w) (Z.to_nat (m_loadedTextures w))
                             (TextureInfo (fst (GL.glGenTextures (gl w))) tag))
                      (m_objectMaterials w) c).
Proof.
  intros E Hc. generalize w. intros [p meshes n table materials c] Hn.
  cbn [m_loadedTextures m_textureIDs] in Hn.
  unfold CreateGLTexture. rewrite E.
  assert (Hb : (0 <=? n) && (n <? Z.of_nat (length table)) = true).
  { apply andb_true_intro. split; [apply Z.leb_le|apply Z.ltb_lt]; lia. }
  destruct Hc as [Hc|Hc]; rewrite Hc; cbn [Z.eqb Pos.eqb]; run_load;
    rewrite Hb; eexists; reflexivity.
Qed.

Lemma CreateGLTexture_overrun (image : IMAGE) :
  stbi_load filename = Some image ->
  colorChannels image = 3 \/ colorChannels image = 4 ->
  ~ 0 <= m_loadedTextures w < Z.of_nat (length (m_textureIDs w)) ->
  CreateGLTexture stbi_load filename tag w = Undefined OutOfBounds.
Proof.
  intros E Hc. generalize w. intros [p meshes n table materials c] Hn.
  cbn [m_loadedTextures m_textureIDs] in Hn.
  unfold CreateGLTexture. rewrite E.
  assert (Hb : (0 <=? n) && (n <? Z.of_nat (length table)) = false).
  { apply andb_false_iff.
    destruct (Z.leb_spec 0 n); [right|now left].
    apply Z.ltb_ge. lia. }
  destruct Hc as [Hc|Hc]; rewrite Hc; cbn [Z.eqb Pos.eqb]; run_load;
    rewrite Hb; reflexivity.
Qed.

Lemma decodable_dec :
  decodable stbi_load filename \/
  stbi_load filename = None \/
  exists image, stbi_load filename = Some image /\
                colorChannels image <> 3 /\ colorChannels image <> 4.
Proof.
  destruct (stbi_load filename) as [image|] eqn:E; [|now right; left].
  destruct (Z.eq_dec (colorChannels image) 3) as [H3|H3].
  { left. exists image. auto. }
  destruct (Z.eq_dec (colorChannels image) 4) as [H4|H4].
  { left. exists image. auto. }
  right. right. exists image. auto.
Qed.

Lemma CreateGLTexture_decodable_inv (image : IMAGE) (flag : bool) (w' : World) :
  stbi_load filename = Some image ->
  colorChannels image = 3 \/ colorChannels image = 4 ->
  CreateGLTexture stbi_load filename tag w = Ok (flag, w') ->
  flag = true /\
  0 <= m_loadedTextures w < Z.of_nat (length (m_textureIDs w)) /\
  m_loadedTextures w' = m_loadedTextures w + 1 /\
  m_textureIDs w' = store (m_textureIDs w) (Z.to_nat (m_loadedTextures w))
                          (TextureInfo (fst (GL.glGenTextures (gl w))) tag).
Proof.
  intros E Hc Hrun.
  destruct (Z.le_gt_cases 0 (m_loadedTextures w)) as [H0|H0];
    [destruct (Z.lt_ge_cases (m_loadedTextures w) (Z.of_nat (length (m_textureIDs w))))
       as [H1|H1]|].
  - destruct (CreateGLTexture_loaded image E Hc (conj H0 H1)) as [c Hok].
    rewrite Hok in Hrun. inversion Hrun; subst. cbn. repeat split; lia.
  - rewrite (CreateGLTexture_overrun image E Hc) in Hrun by lia. discriminate.
  - rewrite (CreateGLTexture_overrun image E Hc) in Hrun by lia. discriminate.
Qed.

Lemma CreateGLTexture_true_inv (w' : World) :
  CreateGLTexture stbi_load filename tag w = Ok (true, w') ->
  0 <= m_loadedTextures w < Z.of_nat (length (m_textureIDs w)) /\
  m_loadedTextures w' = m_loadedTextures w + 1 /\
  m_textureIDs w' = store (m_textureIDs w) (Z.to_nat (m_loadedTextures w))
                          (TextureInfo (fst (GL.glGenTextures (gl w))) tag).
Proof.
  intros H. destruct decodable_dec as [(image & E & Hc)|[E|(image & E & H3 & H4)]].
  - now destruct (CreateGLTexture_decodable_inv image _ _ E Hc H) as (_ & Hb).
  - rewrite (CreateGLTexture_undecoded E) in H. discriminate.
  - destruct (CreateGLTexture_channels image E H3 H4) as (w2 & Hrun & _).
    rewrite Hrun in H. discriminate.
Qed.

(** C5.  [CreateGLTexture] returns [false] exactly when the codec cannot
    decode the file or the image has neither 3 nor 4 channels.  When it
    returns [false], the members of the object (the table, the count of
    loaded textures among them) are what they were.  When it returns
    [true], the count has grown by one and the registry has one more
    entry, at its end, tagged with the argument.  And on a decodable file,
    with a free slot in the table, it does return [true]. *)
Theorem CreateGLTexture_outcomes :
  ((exists w', CreateGLTexture stbi_load filename tag w = Ok (false, w')) <->
   ~ decodable stbi_load filename) /\
  (forall w', CreateGLTexture stbi_load filename tag w = Ok (false, w') ->
              same_members w w') /\
  (forall w', CreateGLTexture stbi_load filename tag w = Ok (true, w') ->
              m_loadedTextures w' = m_loadedTextures w + 1 /\
              exists handle,
                registry w' = (registry w ++ [TextureInfo handle tag])%list) /\
  (decodable stbi_load filename ->
   0 <= m_loadedTextures w < Z.of_nat (length (m_textureIDs w)) ->
   exists w', CreateGLTexture stbi_load filename tag w = Ok (true, w')).
Proof.
  pose proof CreateGLTexture_decodable_inv as Hdec.
  split; [split|split; [|split]].
  - intros [w' Hrun] (image & E & Hc).
    destruct (Hdec image _ _ E Hc Hrun) as [Hflag _]. discriminate.
  - intros Hnot. destruct decodable_dec as [Hd|[E|(image & E & H3 & H4)]].
    + contradiction.
    + exists w. now apply CreateGLTexture_undecoded.
    + destruct (CreateGLTexture_channels image E H3 H4) as (w' & Hrun & _). now exists w'.
  - intros w' H.
    destruct decodable_dec as [(image & E & Hc)|[E|(image & E & H3 & H4)]].
    + destruct (Hdec image _ _ E Hc H) as [Hflag _]. discriminate.
    + rewrite (CreateGLTexture_undecoded E) in H. inversion H; subst.
      unfold same_members. auto.
    + destruct (CreateGLTexture_channels image E H3 H4) as (w2 & Hrun & Hsame).
      rewrite Hrun in H. inversion H; subst. apply Hsame.
  - intros w' H.
    destruct decodable_dec as [(image & E & Hc)|[E|(image & E & H3 & H4)]].
    + destruct (Hdec image _ _ E Hc H) as (_ & Hb & Hn & Ht).
      split; [exact Hn|].
      exists (fst (GL.glGenTextures (gl w))).
      unfold registry, registry_of. rewrite Hn, Ht.
      replace (Z.to_nat (m_loadedTextures w + 1)) with (S (Z.to_nat (m_loadedTextures w)))
        by lia.
      apply firstn_store_next. lia.
    + rewrite (CreateGLTexture_undecoded E) in H. discriminate.
    + destruct (CreateGLTexture_channels image E H3 H4) as (w2 & Hrun & _).
      rewrite Hrun in H. discriminate.
  - intros (image & E & Hc) Hb.
    destruct (CreateGLTexture_loaded image E Hc Hb) as [c Hok]. eexists. exact Hok.
Qed.

End Loading.

(** C6 (defect of the code).  Sixteen loads with distinct tags, from a new
    scene, all return [true] and fill the slots 0 to 15.  The seventeenth,
    which ought to be turned down with a capacity error, is not: nothing
    checks the count, and the store goes to [m_textureIDs[16]], past the
    end of the table. *)
Theorem CreateGLTexture_seventeenth_overruns :
  exists w16,
    load_tags decode_all sixteen_tags new_world = Ok (repeat true 16, w16) /\
    slots_found sixteen_tags w16 =
      map Some [0; 1; 2; 3; 4; 5; 6; 7; 8; 9; 10; 11; 12; 13; 14; 15] /\
    m_loadedTextures w16 = 16 /\
    length (m_textureIDs w16) = MAX_TEXTURES /\
    CreateGLTexture decode_all "textures/sample.png" "t16" w16 = Undefined OutOfBounds.
Proof.
  eexists. split; [vm_compute; reflexivity|].
  repeat split; vm_compute; reflexivity.
Qed.

(** ** Looking a texture up *)

Lemma first_match_first (tag : string) (l : list TEXTURE_INFO) (from : Z)
    (i : nat) (t : TEXTURE_INFO) :
  nth_error l i = Some t ->
  texture_tag t = tag ->
  (forall j u, (j < i)%nat -> nth_error l j = Some u -> texture_tag u <> tag) ->
  first_match tag l from = Some (from + Z.of_nat i, t).
Proof.
  revert from i. induction l as [|y l IH]; intros from i Hi Ht Hfirst.
  - destruct i; discriminate.
  - cbn [first_match]. destruct i as [|i].
    + inversion Hi; subst y. rewrite (proj2 (String.eqb_eq _ _) Ht).
      now rewrite Z.add_0_r.
    + destruct (String.eqb (texture_tag y) tag) eqn:E.
      * apply String.eqb_eq in E. exfalso. apply (Hfirst O y); [lia|reflexivity|exact E].
      * rewrite (IH (from + 1) i Hi Ht).
        -- f_equal. f_equal. lia.
        -- intros j u Hj Hu. apply (Hfirst (S j) u); [lia|exact Hu].
Qed.

Lemma first_match_none (tag : string) (l : list TEXTURE_INFO) (from : Z) :
  (forall t, In t l -> texture_tag t <> tag) -> first_match tag l from = None.
Proof.
  revert from. induction l as [|y l IH]; intros from Habs; [reflexivity|].
  cbn [first_match]. destruct (String.eqb (texture_tag y) tag) eqn:E.
  - apply String.eqb_eq in E. exfalso. apply (Habs y); [now left|exact E].
  - apply IH. intros t Hin. apply Habs. now right.
Qed.

Lemma first_or_none (tag : string) (l : list TEXTURE_INFO) :
  (forall t, In t l -> texture_tag t <> tag) \/
  exists i t, nth_error l i = Some t /\ texture_tag t = tag /\
              forall j u, (j < i)%nat -> nth_error l j = Some u -> texture_tag u <> tag.
Proof.
  induction l as [|y l IH]; [left; intros t []|].
  destruct (String.eqb (texture_tag y) tag) eqn:E.
  - apply String.eqb_eq in E. right. exists O, y. repeat split; auto. intros j u Hj. lia.
  - apply String.eqb_neq in E. destruct IH as [Habs|(i & t & Hi & Ht & Hfirst)].
    + left. intros t [<-|Hin]; auto.
    + right. exists (S i), t. repeat split; auto.
      intros [|j] u Hj Hu; [now inversion Hu; subst|].
      apply (Hfirst j u); [lia|exact Hu].
Qed.

Section Lookup.

Variable w : World.
Variable tag : string.
Hypothesis fits : (Z.to_nat (m_loadedTextures w) <= length (m_textureIDs w))%nat.

Lemma FindTextureSlot_first_match :
  FindTextureSlot tag w =
  Ok (match first_match tag (registry w) 0 with
      | Some (i, _) => i
      | None => -1
      end, w).
Proof.
  unfold FindTextureSlot, get_loadedTextures, bind.
  apply (FindTextureSlot_loop_spec tag w _ 0). exact fits.
Qed.

Lemma FindTextureID_first_match :
  FindTextureID tag w =
  Ok (match first_match tag (registry w) 0 with
      | Some (_, t) => int_of_GLuint (ID t)
      | None => -1
      end, w).
Proof.
  unfold FindTextureID, get_loadedTextures, bind.
  apply (FindTextureID_loop_spec tag w _ 0). exact fits.
Qed.

Lemma lookup_first_entry (i : nat) (t : TEXTURE_INFO) :
  first_entry tag w i t ->
  FindTextureSlot tag w = Ok (Z.of_nat i, w) /\
  FindTextureID tag w = Ok (int_of_GLuint (ID t), w).
Proof.
  intros (Hi & Ht & Hfirst).
  rewrite FindTextureSlot_first_match, FindTextureID_first_match.
  now rewrite (first_match_first tag _ 0 i t Hi Ht Hfirst).
Qed.

Lemma lookup_unregistered :
  unregistered tag w ->
  FindTextureSlot tag w = Ok (-1, w) /\ FindTextureID tag w = Ok (-1, w).
Proof.
  intros Habs. rewrite FindTextureSlot_first_match, FindTextureID_first_match.
  now rewrite (first_match_none tag _ 0 Habs).
Qed.

End Lookup.

Lemma int_of_GLuint_small (n : GL.GLuint) : 0 <= n < 2 ^ 31 -> int_of_GLuint n = n.
Proof.
  intros H. unfold int_of_GLuint.
  destruct (Z.ltb_spec n (2 ^ 31)); [reflexivity|lia].
Qed.

(** C7.  On a well-formed table, [FindTextureSlot] returns the index of
    the first entry of the registry, in insertion order, that carries the
    tag, and [FindTextureID] returns the handle of that entry, as the [int]
    it is converted to (the handle itself below [2^31]); both return -1
    when no entry carries the tag; and one of the two cases holds for
    every tag.  After a load that returned [true] for a tag that was not
    registered, [FindTextureSlot] returns the index the entry was stored
    at, and [FindTextureID] the texture name [glGenTextures] issued for
    that load. *)
Theorem texture_lookup (w : World) (tag : string) :
  well_formed w ->
  (forall i t,
     first_entry tag w i t ->
     FindTextureSlot tag w = Ok (Z.of_nat i, w) /\
     FindTextureID tag w = Ok (int_of_GLuint (ID t), w) /\
     (0 <= ID t < 2 ^ 31 -> FindTextureID tag w = Ok (ID t, w))) /\
  (unregistered tag w ->
     FindTextureSlot tag w = Ok (-1, w) /\ FindTextureID tag w = Ok (-1, w)) /\
  (unregistered tag w \/ exists i t, first_entry tag w i t) /\
  (forall stbi_load filename w',
     unregistered tag w ->
     CreateGLTexture stbi_load filename tag w = Ok (true, w') ->
     well_formed w' /\
     nth_error (m_textureIDs w') (Z.to_nat (m_loadedTextures w)) =
       Some (TextureInfo (fst (GL.glGenTextures (gl w))) tag) /\
     FindTextureSlot tag w' = Ok (m_loadedTextures w, w') /\
     FindTextureID tag w' = Ok (int_of_GLuint (fst (GL.glGenTextures (gl w))), w')).
Proof.
  intros Hwf. pose proof (count_within_table w Hwf) as Hfits.
  split; [|split; [|split]].
  - intros i t Hfirst.
    destruct (lookup_first_entry w tag Hfits i t Hfirst) as [Hslot Hid].
    repeat split; auto.
    intros Hsmall. now rewrite Hid, int_of_GLuint_small.
  - now apply lookup_unregistered.
  - destruct (first_or_none tag (registry w)) as [Habs|(i & t & H)]; [now left|].
    right. now exists i, t.
  - intros stbi_load filename w' Habs Hrun.
    destruct (CreateGLTexture_true_inv _ _ _ _ _ Hrun) as (Hb & Hn & Ht).
    destruct Hwf as [Hlen Hcount].
    assert (Hwf' : well_formed w').
    { split; [now rewrite Ht, length_store|]. rewrite Hn. rewrite Hlen in Hb. lia. }
    assert (Hreg : registry w' =
                   (registry w ++ [TextureInfo (fst (GL.glGenTextures (gl w))) tag])%list).
    { unfold registry, registry_of. rewrite Hn, Ht.
      replace (Z.to_nat (m_loadedTextures w + 1)) with (S (Z.to_nat (m_loadedTextures w)))
        by lia.
      apply firstn_store_next. lia. }
    assert (Hlr : length (registry w) = Z.to_nat (m_loadedTextures w)).
    { unfold registry, registry_of. rewrite length_firstn. lia. }
    assert (Hfirst : first_entry tag w' (Z.to_nat (m_loadedTextures w))
                       (TextureInfo (fst (GL.glGenTextures (gl w))) tag)).
    { repeat split.
      - rewrite Hreg, nth_error_app2 by lia. now rewrite Hlr, Nat.sub_diag.
      - intros j u Hj Hu. rewrite Hreg, nth_error_app1 in Hu by lia.
        apply Habs. eapply nth_error_In. exact Hu. }
    destruct (lookup_first_entry w' tag (count_within_table w' Hwf') _ _ Hfirst)
      as [Hslot Hid].
    repeat split; try apply Hwf'.
    + rewrite Ht. apply nth_error_store. lia.
    + rewrite Hslot. f_equal. f_equal. lia.
    + exact Hid.
Qed.

Lemma first_entry_blue : first_entry "Blue" floor_world 1 (TextureInfo 2 "Blue").
Proof.
  repeat split. intros [|[|j]] u Hj Hu; [|lia|lia].
  inversion Hu; subst u. discriminate.
Defined.

Lemma texture_lookup_witness :
  well_formed floor_world /\
  FindTextureSlot "Blue" floor_world = Ok (1, floor_world) /\
  FindTextureID "Blue" floor_world = Ok (2, floor_world).
Proof.
  split; [exact well_formed_floor_world|].
  destruct (proj1 (texture_lookup floor_world "Blue" well_formed_floor_world)
              1%nat (TextureInfo 2 "Blue") first_entry_blue) as (Hslot & Hid & _).
  split; [exact Hslot|exact Hid].
Defined.

(** ** Releasing the textures *)

Lemma DestroyGLTextures_loop_keeps_names (k : nat) (i : Z) (w w' : World) :
  DestroyGLTextures_loop k i w = Ok (tt, w') ->
  incl (GL.names (gl w)) (GL.names (gl w')).
Proof.
  revert i w. induction k as [|k IH]; intros i w; cbn [DestroyGLTextures_loop].
  - unfold ret. inversion 1. apply incl_refl.
  - unfold bind at 1. unfold texture_at.
    destruct (i <? 0); [discriminate|].
    destruct (nth_error (m_textureIDs w) (Z.to_nat i)) as [t|]; [|discriminate].
    unfold bind at 1. unfold glGenTextures. cbn [GL.glGenTextures].
    unfold bind at 1. unfold set_texture_at.
    cbn [m_pShaderManager m_basicMeshes m_loadedTextures m_textureIDs m_objectMaterials gl].
    destruct ((0 <=? i) && (i <? Z.of_nat (length (m_textureIDs w)))); [|discriminate].
    intros Hrun. apply IH in Hrun.
    cbn [gl GL.names] in Hrun.
    intros name Hin. apply Hrun. now right.
Qed.

(** Whatever the scene, every texture name in use before
    [DestroyGLTextures] is in use after it. *)
Lemma DestroyGLTextures_keeps_names (w w' : World) :
  DestroyGLTextures w = Ok (tt, w') -> incl (GL.names (gl w)) (GL.names (gl w')).
Proof.
  unfold DestroyGLTextures, get_loadedTextures, bind.
  apply DestroyGLTextures_loop_keeps_names.
Qed.

(** C8 (defect of the code).  [DestroyGLTextures] is documented as freeing
    the textures.  Run on a scene whose texture ["Floor"] has the name 1,
    it generates a second name, 2, and stores it over the first in the
    table; the name 1 stays in use in the GL context, and nothing is
    released. *)
Theorem DestroyGLTextures_generates_names :
  CreateGLTexture decode_all "textures/Check_floor.jpg" "Floor" new_world
    = Ok (true, one_texture_world) /\
  registry one_texture_world = [TextureInfo 1 "Floor"] /\
  GL.names (gl one_texture_world) = [1] /\
  exists w',
    DestroyGLTextures one_texture_world = Ok (tt, w') /\
    registry w' = [TextureInfo 2 "Floor"] /\
    GL.names (gl w') = [2; 1].
Proof.
  split; [vm_compute; reflexivity|].
  split; [reflexivity|]. split; [reflexivity|].
  eexists. split; [vm_compute; reflexivity|]. split; reflexivity.
Qed.

(** ** The model matrix *)

Lemma mul_vec_mul (A B : glm.mat4) (p : glm.vec4) :
  glm.vec4_eq (glm.mul_vec (glm.mul A B) p) (glm.mul_vec A (glm.mul_vec B p)).
Proof.
  destruct A as [[a00 a01 a02 a03] [a10 a11 a12 a13] [a20 a21 a22 a23] [a30 a31 a32 a33]].
  destruct B as [[b00 b01 b02 b03] [b10 b11 b12 b13] [b20 b21 b22 b23] [b30 b31 b32 b33]].
  destruct p as [px py pz pw].
  unfold glm.vec4_eq. cbn. repeat split; ring.
Qed.

Lemma vec4_eq_trans (p q s : glm.vec4) :
  glm.vec4_eq p q -> glm.vec4_eq q s -> glm.vec4_eq p s.
Proof.
  intros (H1 & H2 & H3 & H4) (K1 & K2 & K3 & K4).
  repeat split; etransitivity; eassumption.
Qed.

(** What each factor does to a vector. *)
Lemma scale_acts (s : glm.vec3) (p : glm.vec4) :
  glm.vec4_eq (glm.mul_vec (glm.scale s) p)
              (glm.Vec4 (glm.x s * glm.r p) (glm.y s * glm.g p) (glm.z s * glm.b p)
                        (glm.a p)).
Proof. destruct s, p. unfold glm.vec4_eq. cbn. repeat split; ring. Qed.

Lemma translate_acts (t : glm.vec3) (p : glm.vec4) :
  glm.vec4_eq (glm.mul_vec (glm.translate t) p)
              (glm.Vec4 (glm.r p + glm.x t * glm.a p) (glm.g p + glm.y t * glm.a p)
                        (glm.b p + glm.z t * glm.a p) (glm.a p)).
Proof. destruct t, p. unfold glm.vec4_eq. cbn. repeat split; ring. Qed.

Lemma rotate_x_acts (cosf sinf : float -> float) (angle : float) (p : glm.vec4) :
  glm.vec4_eq (glm.mul_vec (glm.rotate cosf sinf angle (glm.Vec3 1 0 0)) p)
              (glm.Vec4 (glm.r p)
                        (cosf angle * glm.g p - sinf angle * glm.b p)
                        (sinf angle * glm.g p + cosf angle * glm.b p)
                        (glm.a p)).
Proof. destruct p. unfold glm.vec4_eq. cbn. repeat split; ring. Qed.

Lemma rotate_y_acts (cosf sinf : float -> float) (angle : float) (p : glm.vec4) :
  glm.vec4_eq (glm.mul_vec (glm.rotate cosf sinf angle (glm.Vec3 0 1 0)) p)
              (glm.Vec4 (cosf angle * glm.r p + sinf angle * glm.b p)
                        (glm.g p)
                        (cosf angle * glm.b p - sinf angle * glm.r p)
                        (glm.a p)).
Proof. destruct p. unfold glm.vec4_eq. cbn. repeat split; ring. Qed.

Lemma rotate_z_acts (cosf sinf : float -> float) (angle : float) (p : glm.vec4) :
  glm.vec4_eq (glm.mul_vec (glm.rotate cosf sinf angle (glm.Vec3 0 0 1)) p)
              (glm.Vec4 (cosf angle * glm.r p - sinf angle * glm.g p)
                        (sinf angle * glm.r p + cosf angle * glm.g p)
                        (glm.b p)
                        (glm.a p)).
Proof. destruct p. unfold glm.vec4_eq. cbn. repeat split; ring. Qed.

(** [glm::radians] multiplies by pi / 180, to the digits of its
    constant. *)
Lemma radians_converts_degrees : converts_degrees glm.radians.
Proof.
  exists (180 * glm.radians 1)%Q. split.
  - unfold pi_below, pi_above, glm.radians. split; apply Qle_bool_iff; vm_compute; reflexivity.
  - intros d. unfold glm.radians. field.
Qed.

(** The product of the five factors acts as the five steps, the scale
    first and the translation last, whatever the three angles. *)
Lemma model_matrix_acts (cosf sinf : float -> float) (s t : glm.vec3)
    (ax ay az : float) (p : glm.vec4) :
  glm.vec4_eq
    (glm.mul_vec
       (glm.mul
          (glm.mul
             (glm.mul
                (glm.mul (glm.translate t) (glm.rotate cosf sinf az (glm.Vec3 0 0 1)))
                (glm.rotate cosf sinf ay (glm.Vec3 0 1 0)))
             (glm.rotate cosf sinf ax (glm.Vec3 1 0 0)))
          (glm.scale s))
       p)
    (translated t
       (turned_about_Z (cosf az) (sinf az)
          (turned_about_Y (cosf ay) (sinf ay)
             (turned_about_X (cosf ax) (sinf ax) (scaled s p))))).
Proof.
  destruct s as [s1 s2 s3], t as [t1 t2 t3], p as [p1 p2 p3 p4].
  unfold glm.vec4_eq. cbn. repeat split; ring.
Qed.

(** C3.  On a shader interface that is there, [SetTransformations] returns,
    whatever the scale, the angles and the translation (no input is turned
    down or altered), and what it writes is the uniform ["model"] alone,
    with the product Translation * RotationZ * RotationY * RotationX *
    Scale, the rotations being those of the angles converted by
    [glm::radians].  Applied to a vector, that product scales first, then
    rotates about X, then about Y, then about Z, then translates.
    [glm::radians] is the conversion from degrees to radians, the
    multiplication by pi / 180.  And, on coordinates, the matrix written
    scales a point by the three factors as they are given, negative or
    zero included, turns it about X, then about Y, then about Z, by the
    cosines and sines of the converted angles, and moves it by the
    translation. *)
Theorem SetTransformations_model_matrix
    (cosf sinf : float -> float) (w : World) (sh : ShaderManager)
    (scaleXYZ : glm.vec3) (XrotationDegrees YrotationDegrees ZrotationDegrees : float)
    (positionXYZ : glm.vec3) :
  m_pShaderManager w = Some sh ->
  let Scale := glm.scale scaleXYZ in
  let RotationX := glm.rotate cosf sinf (glm.radians XrotationDegrees) (glm.Vec3 1 0 0) in
  let RotationY := glm.rotate cosf sinf (glm.radians YrotationDegrees) (glm.Vec3 0 1 0) in
  let RotationZ := glm.rotate cosf sinf (glm.radians ZrotationDegrees) (glm.Vec3 0 0 1) in
  let Translation := glm.translate positionXYZ in
  let Model :=
    glm.mul (glm.mul (glm.mul (glm.mul Translation RotationZ) RotationY) RotationX) Scale in
  SetTransformations cosf sinf scaleXYZ XrotationDegrees YrotationDegrees ZrotationDegrees
                     positionXYZ w
  = Ok (tt, with_shader (setMat4Value g_ModelName Model sh) w) /\
  model_in_force
    (SetTransformations cosf sinf scaleXYZ XrotationDegrees YrotationDegrees
                        ZrotationDegrees positionXYZ w) = Some Model /\
  (forall p,
    glm.vec4_eq
      (glm.mul_vec Model p)
      (glm.mul_vec Translation
         (glm.mul_vec RotationZ
            (glm.mul_vec RotationY (glm.mul_vec RotationX (glm.mul_vec Scale p)))))) /\
  converts_degrees glm.radians /\
  exists pushed,
    model_in_force
      (SetTransformations cosf sinf scaleXYZ XrotationDegrees YrotationDegrees
                          ZrotationDegrees positionXYZ w) = Some pushed /\
    forall p,
      glm.vec4_eq
        (glm.mul_vec pushed p)
        (translated positionXYZ
           (turned_about_Z (cosf (glm.radians ZrotationDegrees))
                           (sinf (glm.radians ZrotationDegrees))
              (turned_about_Y (cosf (glm.radians YrotationDegrees))
                              (sinf (glm.radians YrotationDegrees))
                 (turned_about_X (cosf (glm.radians XrotationDegrees))
                                 (sinf (glm.radians XrotationDegrees))
                    (scaled scaleXYZ p))))).
Proof.
  intros Hsh Scale RotationX RotationY RotationZ Translation Model.
  assert (Hrun : SetTransformations cosf sinf scaleXYZ XrotationDegrees YrotationDegrees
                   ZrotationDegrees positionXYZ w
                 = Ok (tt, with_shader (setMat4Value g_ModelName Model sh) w)).
  { now apply SetTransformations_Some. }
  split; [exact Hrun|]. split; [now rewrite Hrun|].
  split.
  { intros p. unfold Model.
    eapply vec4_eq_trans; [apply mul_vec_mul|].
    eapply vec4_eq_trans; [apply mul_vec_mul|].
    eapply vec4_eq_trans; [apply mul_vec_mul|].
    apply mul_vec_mul. }
  split; [exact radians_converts_degrees|].
  exists Model. split; [now rewrite Hrun|].
  intros p. apply model_matrix_acts.
Qed.

Lemma SetTransformations_model_matrix_witness :
  m_pShaderManager floor_world = Some [] /\
  model_in_force
    (SetTransformations cos_series sin_series (glm.Vec3 (-2) 0 1) 30 45 60
                        (glm.Vec3 1 2 3) floor_world)
  = Some (glm.mul
            (glm.mul
               (glm.mul
                  (glm.mul (glm.translate (glm.Vec3 1 2 3))
                     (glm.rotate cos_series sin_series (glm.radians 60) (glm.Vec3 0 0 1)))
                  (glm.rotate cos_series sin_series (glm.radians 45) (glm.Vec3 0 1 0)))
               (glm.rotate cos_series sin_series (glm.radians 30) (glm.Vec3 1 0 0)))
            (glm.scale (glm.Vec3 (-2) 0 1))).
Proof.
  split; [reflexivity|].
  exact (proj1 (proj2
    (SetTransformations_model_matrix cos_series sin_series floor_world []
       (glm.Vec3 (-2) 0 1) 30 45 60 (glm.Vec3 1 2 3) eq_refl))).
Defined.

(** ** The worked example of the composition order *)

(** The image of (1,0,0) under the quarter turn of the example, up to the
    error of cosine and sine at the quarter turn. *)
Lemma quarter_turn_bounds
    (cosf sinf : float -> float) (eps : Q) (w : World) (sh : ShaderManager) :
  m_pShaderManager w = Some sh ->
  (cosf (glm.radians 0) == 1)%Q ->
  (sinf (glm.radians 0) == 0)%Q ->
  (- eps <= cosf (glm.radians 90) <= eps)%Q ->
  (1 - eps <= sinf (glm.radians 90) <= 1 + eps)%Q ->
  exists p,
    world_point cosf sinf w quarter_turn (glm.Vec3 1 0 0) = Some p /\
    within (2 * eps) p (glm.Vec3 0 0 3) /\
    (glm.a p == 1)%Q.
Proof.
  intros Hsh Hc0 Hs0 Hc Hs.
  unfold world_point, quarter_turn.
  cbn [scaleXYZ XrotationDegrees YrotationDegrees ZrotationDegrees positionXYZ].
  rewrite (SetTransformations_Some _ _ _ _ Hsh).
  cbn [model_in_force with_shader m_pShaderManager setMat4Value uniform_value].
  rewrite String.eqb_refl.
  eexists. split; [reflexivity|].
  set (c0 := cosf (glm.radians 0)) in *.
  set (s0 := sinf (glm.radians 0)) in *.
  set (c := cosf (glm.radians 90)) in *.
  set (s := sinf (glm.radians 90)) in *.
  assert (Hx : (glm.r (glm.mul_vec
                  (glm.mul (glm.mul (glm.mul (glm.mul (glm.translate (glm.Vec3 0 0 5))
                     (glm.rotate cosf sinf (glm.radians 0) (glm.Vec3 0 0 1)))
                     (glm.rotate cosf sinf (glm.radians 90) (glm.Vec3 0 1 0)))
                     (glm.rotate cosf sinf (glm.radians 0) (glm.Vec3 1 0 0)))
                     (glm.scale (glm.Vec3 2 1 1))) (glm.point (glm.Vec3 1 0 0)))
                == 2 * c0 * c)%Q).
  { cbn. fold c0 s0 c s. ring. }
  assert (Hy : (glm.g (glm.mul_vec
                  (glm.mul (glm.mul (glm.mul (glm.mul (glm.translate (glm.Vec3 0 0 5))
                     (glm.rotate cosf sinf (glm.radians 0) (glm.Vec3 0 0 1)))
                     (glm.rotate cosf sinf (glm.radians 90) (glm.Vec3 0 1 0)))
                     (glm.rotate cosf sinf (glm.radians 0) (glm.Vec3 1 0 0)))
                     (glm.scale (glm.Vec3 2 1 1))) (glm.point (glm.Vec3 1 0 0)))
                == 2 * c * s0)%Q).
  { cbn. fold c0 s0 c s. ring. }
  assert (Hz : (glm.b (glm.mul_vec
                  (glm.mul (glm.mul (glm.mul (glm.mul (glm.translate (glm.Vec3 0 0 5))
                     (glm.rotate cosf sinf (glm.radians 0) (glm.Vec3 0 0 1)))
                     (glm.rotate cosf sinf (glm.radians 90) (glm.Vec3 0 1 0)))
                     (glm.rotate cosf sinf (glm.radians 0) (glm.Vec3 1 0 0)))
                     (glm.scale (glm.Vec3 2 1 1))) (glm.point (glm.Vec3 1 0 0)))
                == 5 - 2 * s)%Q).
  { cbn. fold c0 s0 c s. ring. }
  assert (Hw : (glm.a (glm.mul_vec
                  (glm.mul (glm.mul (glm.mul (glm.mul (glm.translate (glm.Vec3 0 0 5))
                     (glm.rotate cosf sinf (glm.radians 0) (glm.Vec3 0 0 1)))
                     (glm.rotate cosf sinf (glm.radians 90) (glm.Vec3 0 1 0)))
                     (glm.rotate cosf sinf (glm.radians 0) (glm.Vec3 1 0 0)))
                     (glm.scale (glm.Vec3 2 1 1))) (glm.point (glm.Vec3 1 0 0)))
                == 1)%Q).
  { cbn. ring. }
  unfold within. cbn [glm.x glm.y glm.z].
  rewrite Hx, Hy, Hz, Hw, Hc0, Hs0.
  repeat split; lra.
Qed.

(** C4, as amended.  With scale (2,1,1), rotation (0,90,0) degrees and
    translation (0,0,5), the model matrix sends the local point (1,0,0) to
    (0,0,3): the scale doubles X, the quarter turn about Y takes +X to -Z,
    which gives (0,0,-2), and the translation adds (0,0,5).  The statement
    is up to the error [eps] of the C library's cosine and sine at the
    quarter turn. *)
Theorem quarter_turn_world_point
    (cosf sinf : float -> float) (eps : Q) (w : World) (sh : ShaderManager) :
  m_pShaderManager w = Some sh ->
  (cosf (glm.radians 0) == 1)%Q ->
  (sinf (glm.radians 0) == 0)%Q ->
  (- eps <= cosf (glm.radians 90) <= eps)%Q ->
  (1 - eps <= sinf (glm.radians 90) <= 1 + eps)%Q ->
  exists p,
    world_point cosf sinf w quarter_turn (glm.Vec3 1 0 0) = Some p /\
    within (2 * eps) p (glm.Vec3 0 0 3) /\
    (glm.a p == 1)%Q.
Proof. exact (quarter_turn_bounds cosf sinf eps w sh). Qed.

(** The series are within a millionth of cosine and sine at 0 and at the
    quarter turn. *)
Lemma series_at_zero :
  (cos_series (glm.radians 0) == 1)%Q /\ (sin_series (glm.radians 0) == 0)%Q.
Proof. split; vm_compute; reflexivity. Qed.

Lemma cos_series_quarter :
  (- (1 # 1000000) <= cos_series (glm.radians 90) <= 1 # 1000000)%Q.
Proof. split; apply Qle_bool_iff; vm_compute; reflexivity. Qed.

Lemma sin_series_quarter :
  (1 - (1 # 1000000) <= sin_series (glm.radians 90) <= 1 + (1 # 1000000))%Q.
Proof. split; apply Qle_bool_iff; vm_compute; reflexivity. Qed.

Lemma quarter_turn_world_point_witness :
  exists p,
    world_point cos_series sin_series floor_world quarter_turn (glm.Vec3 1 0 0) = Some p /\
    within (2 * (1 # 1000000)) p (glm.Vec3 0 0 3) /\
    (glm.a p == 1)%Q.
Proof.
  exact (quarter_turn_world_point cos_series sin_series (1 # 1000000) floor_world []
           eq_refl (proj1 series_at_zero) (proj2 series_at_zero)
           cos_series_quarter sin_series_quarter).
Defined.

(** C4, as stated, fails: the world point is not within 1 of (0,0,7), let
    alone within a floating tolerance. *)
Lemma quarter_turn_world_point_is_not_0_0_7 :
  ~ exists p,
      world_point cos_series sin_series floor_world quarter_turn (glm.Vec3 1 0 0) = Some p /\
      within 1 p (glm.Vec3 0 0 7).
Proof.
  intros (p & Hp & Hfar).
  destruct (quarter_turn_bounds cos_series sin_series (1 # 1000000) floor_world []
              eq_refl (proj1 series_at_zero) (proj2 series_at_zero)
              cos_series_quarter sin_series_quarter) as (q & Hq & Hnear & _).
  rewrite Hp in Hq. inversion Hq; subst q. clear Hq Hp.
  destruct Hfar as (_ & _ & Hz). destruct Hnear as (_ & _ & Kz).
  cbn [glm.x glm.y glm.z] in Hz, Kz. lra.
Qed.


(** ** The shipped scene *)

Lemma slot_of_unregistered (tag : string) (w : World) :
  unregistered tag w -> slot_of tag w = -1.
Proof.
  intros Habs. unfold slot_of, slot_in. fold (registry w).
  now rewrite (first_match_none tag _ 0 Habs).
Qed.

Lemma unregistered_new (tag : string) (p : option ShaderManager) (c : GL.context) :
  unregistered tag (SceneManager_new p c).
Proof. intros t []. Qed.

Lemma well_formed_new (p : option ShaderManager) (c : GL.context) :
  well_formed (SceneManager_new p c).
Proof. split; [reflexivity|]. cbn. lia. Qed.

Lemma CreateGLTexture_keeps (stbi_load : string -> option IMAGE) (filename tag : string)
    (w : World) (k : Z) :
  tag <> "Cake" ->
  well_formed w -> unregistered "Cake" w ->
  m_loadedTextures w <= k -> k < Z.of_nat MAX_TEXTURES ->
  exists flag w',
    CreateGLTexture stbi_load filename tag w = Ok (flag, w') /\
    well_formed w' /\ unregistered "Cake" w' /\ m_loadedTextures w' <= k + 1 /\
    m_pShaderManager w' = m_pShaderManager w /\
    m_basicMeshes w' = m_basicMeshes w /\
    m_objectMaterials w' = m_objectMaterials w.
Proof.
  intros Htag Hwf Habs Hk Hk16. pose proof Hwf as [Hlen Hcount].
  destruct (decodable_dec stbi_load filename) as [(image & E & Hc)|[E|(image & E & H3 & H4)]].
  - assert (Hb : 0 <= m_loadedTextures w < Z.of_nat (length (m_textureIDs w)))
      by (rewrite Hlen; lia).
    destruct (CreateGLTexture_loaded stbi_load filename tag w image E Hc Hb) as [c Hok].
    do 2 eexists. split; [exact Hok|].
    assert (Hreg : registry (mkWorld (m_pShaderManager w) (m_basicMeshes w)
                     (m_loadedTextures w + 1)
                     (store (m_textureIDs w) (Z.to_nat (m_loadedTextures w))
                        (TextureInfo (fst (GL.glGenTextures (gl w))) tag))
                     (m_objectMaterials w) c)
                   = (registry w ++ [TextureInfo (fst (GL.glGenTextures (gl w))) tag])%list).
    { unfold registry, registry_of. cbn [m_loadedTextures m_textureIDs].
      replace (Z.to_nat (m_loadedTextures w + 1)) with (S (Z.to_nat (m_loadedTextures w)))
        by lia.
      apply firstn_store_next. lia. }
    split; [split; cbn [m_loadedTextures m_textureIDs];
            [now rewrite length_store|lia]|].
    split.
    { intros t Hin. rewrite Hreg in Hin. apply in_app_or in Hin.
      destruct Hin as [Hin|[<-|[]]]; [now apply Habs|exact Htag]. }
    cbn [m_loadedTextures m_pShaderManager m_basicMeshes m_objectMaterials].
    split; [lia|]. auto.
  - exists false, w. rewrite (CreateGLTexture_undecoded _ _ _ _ E).
    split; [reflexivity|]. split; [exact Hwf|]. split; [exact Habs|].
    split; [lia|]. auto.
  - destruct (CreateGLTexture_channels stbi_load filename tag w image E H3 H4)
      as (w' & Hrun & Hp & Hm & Hn & Ht & Hmat).
    exists false, w'. split; [exact Hrun|].
    split; [unfold well_formed; rewrite Ht, Hn; exact Hwf|].
    split; [unfold unregistered, registry; rewrite Hn, Ht; exact Habs|].
    split; [rewrite Hn; lia|]. auto.
Qed.

Lemma BindGLTextures_loop_Ok (k j : nat) (w : World) :
  (j + k <= length (m_textureIDs w))%nat ->
  exists w', BindGLTextures_loop k (Z.of_nat j) w = Ok (tt, w') /\ same_members w w'.
Proof.
  revert j w. induction k as [|k IH]; intros j w Hlen.
  - exists w. split; [reflexivity|]. unfold same_members. auto.
  - destruct (nth_error (m_textureIDs w) j) as [t|] eqn:E.
    2:{ apply nth_error_None in E. lia. }
    cbn [BindGLTextures_loop].
    set (w1 := mkWorld (m_pShaderManager w) (m_basicMeshes w) (m_loadedTextures w)
                       (m_textureIDs w) (m_objectMaterials w)
                       (GL.glActiveTexture (Z.of_nat j) (gl w))).
    rewrite (bind_Ok _ _ w w1 tt) by reflexivity.
    rewrite (bind_Ok _ _ _ _ _ (texture_at_registry w1 j t E)).
    set (w2 := mkWorld (m_pShaderManager w1) (m_basicMeshes w1) (m_loadedTextures w1)
                       (m_textureIDs w1) (m_objectMaterials w1)
                       (GL.glBindTexture (ID t) (gl w1))).
    rewrite (bind_Ok _ _ w1 w2 tt) by reflexivity.
    replace (Z.of_nat j + 1) with (Z.of_nat (S j)) by lia.
    destruct (IH (S j) w2) as (w' & Hrun & Hs); [cbn; lia|].
    exists w'. split; [exact Hrun|exact Hs].
Qed.

Lemma BindGLTextures_Ok (w : World) :
  well_formed w -> exists w', BindGLTextures w = Ok (tt, w') /\ same_members w w'.
Proof.
  intros Hwf. unfold BindGLTextures, get_loadedTextures, bind.
  apply (BindGLTextures_loop_Ok _ 0). simpl. now apply count_within_table.
Qed.

(** One [CreateGLTexture] of [LoadSceneTextures]: it returns, and the
    invariant goes on with one more slot used at most. *)
Ltac load_one Hwf Habs Hn k :=
  let flag := fresh "flag" in let w1 := fresh "w" in
  let Hrun := fresh "Hrun" in let Hwf1 := fresh "Hwf" in let Habs1 := fresh "Habs" in
  let Hn1 := fresh "Hn" in let Hp := fresh "Hp" in let Hm := fresh "Hm" in
  let Hmat := fresh "Hmat" in
  match goal with
  | |- context [bind (CreateGLTexture ?s ?f ?t) _ ?w] =>
      destruct (CreateGLTexture_keeps s f t w k ltac:(discriminate) Hwf Habs
                  ltac:(lia) ltac:(cbn; lia))
        as (flag & w1 & Hrun & Hwf1 & Habs1 & Hn1 & Hp & Hm & Hmat);
      rewrite (bind_Ok _ _ _ _ _ Hrun);
      rewrite <- Hp, <- Hm, <- Hmat;
      clear Hrun Hp Hm Hmat
  end.

Lemma LoadSceneTextures_keeps (stbi_load : string -> option IMAGE) (w : World) :
  well_formed w -> unregistered "Cake" w -> m_loadedTextures w <= 0 ->
  exists w',
    LoadSceneTextures stbi_load w = Ok (tt, w') /\
    well_formed w' /\ unregistered "Cake" w' /\
    m_pShaderManager w' = m_pShaderManager w /\
    m_basicMeshes w' = m_basicMeshes w /\
    m_objectMaterials w' = m_objectMaterials w.
Proof.
  intros Hwf Habs Hn. unfold LoadSceneTextures.
  load_one Hwf Habs Hn 0.
  load_one Hwf0 Habs0 Hn0 1.
  load_one Hwf1 Habs1 Hn1 2.
  load_one Hwf2 Habs2 Hn2 3.
  load_one Hwf3 Habs3 Hn3 4.
  load_one Hwf4 Habs4 Hn4 5.
  load_one Hwf5 Habs5 Hn5 6.
  load_one Hwf6 Habs6 Hn6 7.
  load_one Hwf7 Habs7 Hn7 8.
  destruct (BindGLTextures_Ok _ Hwf8) as (w' & Hrun & Hp & Hm & Hcount & Ht & Hmat).
  exists w'. split; [exact Hrun|].
  split; [unfold well_formed; rewrite Ht, Hcount; exact Hwf8|].
  split; [unfold unregistered, registry; rewrite Hcount, Ht; exact Habs8|].
  auto.
Qed.

Lemma DefineObjectMaterials_Ok (w : World) :
  exists materials,
    DefineObjectMaterials w =
    Ok (tt, mkWorld (m_pShaderManager w) (m_basicMeshes w) (m_loadedTextures w)
                    (m_textureIDs w) materials (gl w)) /\
    exists m, In m materials /\ material_tag m = "Cake".
Proof.
  destruct w as [p meshes n table materials c].
  cbv [DefineObjectMaterials bind push_back
       m_pShaderManager m_basicMeshes m_loadedTextures m_textureIDs m_objectMaterials gl].
  eexists. split; [reflexivity|].
  eexists.
  split; [apply in_or_app; left; apply in_or_app; right; left; reflexivity|reflexivity].
Qed.

Lemma LoadMesh_Ok (k : mesh) (w : World) :
  LoadMesh k w =
  Ok (tt, mkWorld (m_pShaderManager w)
                  (Meshes (k :: loaded (m_basicMeshes w)) (drawn (m_basicMeshes w)))
                  (m_loadedTextures w) (m_textureIDs w) (m_objectMaterials w) (gl w)).
Proof. reflexivity. Qed.

Lemma PrepareScene_ready (stbi_load : string -> option IMAGE) (sh0 : ShaderManager)
    (c : GL.context) :
  exists w sh,
    PrepareScene stbi_load (SceneManager_new (Some sh0) c) = Ok (tt, w) /\
    m_pShaderManager w = Some sh /\
    well_formed w /\ unregistered "Cake" w /\
    drawn (m_basicMeshes w) = [] /\
    exists m, In m (m_objectMaterials w) /\ material_tag m = "Cake".
Proof.
  destruct (LoadSceneTextures_keeps stbi_load (SceneManager_new (Some sh0) c)
              (well_formed_new _ _) (unregistered_new _ _ _) (Z.le_refl _))
    as (w1 & Hrun1 & Hwf1 & Habs1 & Hp1 & Hm1 & _).
  cbn [SceneManager_new m_pShaderManager m_basicMeshes] in Hp1, Hm1.
  destruct (SetupSceneLights_Some w1 sh0 Hp1) as [sh Hrun2].
  destruct (DefineObjectMaterials_Ok (with_shader sh w1)) as (materials & Hrun3 & Hcake).
  unfold PrepareScene.
  rewrite (bind_Ok _ _ _ _ _ Hrun1), (bind_Ok _ _ _ _ _ Hrun2), (bind_Ok _ _ _ _ _ Hrun3).
  do 5 run LoadMesh_Ok. rewrite LoadMesh_Ok. tidy.
  do 2 eexists. split; [reflexivity|].
  cbn [m_pShaderManager m_basicMeshes m_objectMaterials with_shader drawn].
  split; [reflexivity|]. split; [exact Hwf1|]. split; [exact Habs1|].
  split; [now rewrite Hm1|exact Hcake].
Qed.

Lemma SetTransformations_settles (cosf sinf : float -> float) (w : World)
    (sh : ShaderManager) (s : glm.vec3) (xr yr zr : float) (p : glm.vec3) :
  m_pShaderManager w = Some sh -> settles (SetTransformations cosf sinf s xr yr zr p) w.
Proof. intros H. eexists. apply SetTransformations_Some. eassumption. Qed.

Lemma SetShaderColor_settles (w : World) (sh : ShaderManager) (r g b a : float) :
  m_pShaderManager w = Some sh -> settles (SetShaderColor r g b a) w.
Proof. intros H. eexists. apply SetShaderColor_Some. eassumption. Qed.

Lemma SetTextureUVScale_settles (w : World) (sh : ShaderManager) (u v : float) :
  m_pShaderManager w = Some sh -> settles (SetTextureUVScale u v) w.
Proof. intros H. eexists. apply SetTextureUVScale_Some. eassumption. Qed.

Lemma SetShaderTexture_settles (w : World) (sh : ShaderManager) (textureTag : string) :
  m_pShaderManager w = Some sh -> well_formed w -> settles (SetShaderTexture textureTag) w.
Proof. intros H Hwf. eexists. apply SetShaderTexture_Some; eassumption. Qed.

Lemma SetShaderMaterial_settles (uninitialised : OBJECT_MATERIAL) (w : World)
    (sh : ShaderManager) (materialTag : string) :
  m_pShaderManager w = Some sh -> settles (SetShaderMaterial uninitialised materialTag) w.
Proof. intros H. eexists. apply SetShaderMaterial_Some. eassumption. Qed.

(** The method at the head is a setter: it returns, and what it wrote is
    left unnamed. *)
Ltac pass Hwf :=
  rewrite ?bind_assoc;
  match goal with
  | |- context [bind ?m ?k ?w] =>
      let H := fresh "H" in
      let sh' := fresh "sh" in
      assert (settles m w) as [sh' H]
        by (first [ eapply SetTransformations_settles; reflexivity
                  | eapply SetShaderTexture_settles; [reflexivity|exact Hwf]
                  | eapply SetTextureUVScale_settles; reflexivity
                  | eapply SetShaderMaterial_settles; reflexivity
                  | eapply SetShaderColor_settles; reflexivity ]);
      rewrite (bind_Ok m k w _ _ H); clear H; tidy
  end.

Lemma ret_Ok {A : Type} (a : A) (w : World) : ret a w = Ok (a, w).
Proof. reflexivity. Qed.

Ltac pass_or_draw Hwf := first [ run DrawMesh_Ok | run @ret_Ok | pass Hwf ].

Lemma RenderScene_cake (cosf sinf : float -> float) (uninitialised : OBJECT_MATERIAL)
    (w : World) (sh : ShaderManager) :
  m_pShaderManager w = Some sh ->
  well_formed w -> unregistered "Cake" w ->
  drawn (m_basicMeshes w) = [] ->
  exists w' shBody shTop,
    RenderScene cosf sinf uninitialised w = Ok (tt, w') /\
    m_loadedTextures w' = m_loadedTextures w /\
    m_textureIDs w' = m_textureIDs w /\
    m_objectMaterials w' = m_objectMaterials w /\
    map fst (drawn (m_basicMeshes w')) = draw_order /\
    uniforms_at_draw 13 w' = Some shBody /\
    uniforms_at_draw 14 w' = Some shTop /\
    uniform_value g_TextureValueName shBody = Some (Sampler2DValue (-1)) /\
    uniform_value g_TextureValueName shTop = Some (Sampler2DValue (-1)) /\
    firstn 2 (sampler_writes shBody) = [-1; slot_of "Frost_sides" w] /\
    firstn 2 (sampler_writes shTop) = [-1; slot_of "Frost" w].
Proof.
  intros Hsh Hwf Habs Hdrawn.
  pose proof (slot_of_unregistered _ _ Habs) as Hcake.
  destruct w as [p [ld dr] n table materials c].
  cbn [m_pShaderManager m_basicMeshes drawn] in Hsh, Hdrawn. subst p dr.
  unfold RenderScene. cbn [for_each].
  (* the thirteen draw steps before the cake *)
  do 64 (pass_or_draw Hwf).
  (* the cake body *)
  pass Hwf.
  rewrite ?bind_assoc.
  erewrite bind_Ok by (eapply SetShaderTexture_Some; [reflexivity|exact Hwf]). tidy.
  erewrite bind_Ok by (eapply SetShaderTexture_Some; [reflexivity|exact Hwf]). tidy.
  run SetTextureUVScale_Some.
  run DrawMesh_Ok.
  (* the cake top *)
  pass Hwf.
  erewrite bind_Ok by (eapply SetShaderTexture_Some; [reflexivity|exact Hwf]). tidy.
  erewrite bind_Ok by (eapply SetShaderTexture_Some; [reflexivity|exact Hwf]). tidy.
  run SetTextureUVScale_Some.
  run DrawMesh_Ok.
  (* the plate and the candle *)
  do 8 (pass_or_draw Hwf).
  rewrite DrawMesh_Ok. tidy.
  unfold slot_of in *. cbn [m_loadedTextures m_textureIDs] in Hcake |- *.
  rewrite !Hcake.
  do 3 eexists. split; [reflexivity|].
  cbn [m_loadedTextures m_textureIDs m_objectMaterials].
  split; [reflexivity|]. split; [reflexivity|]. split; [reflexivity|].
  cbn [m_basicMeshes drawn app map fst].
  split; [reflexivity|].
  unfold uniforms_at_draw. cbn [m_basicMeshes drawn nth_error].
  split; [reflexivity|]. split; [reflexivity|].
  repeat split.
Qed.

(** When every file decodes, the slots overridden are 6 and 5. *)
Lemma frosting_slots :
  exists w,
    PrepareScene decode_all new_world = Ok (tt, w) /\
    slot_of "Frost_sides" w = 6 /\ slot_of "Frost" w = 5 /\ slot_of "Cake" w = -1.
Proof. eexists. split; [vm_compute; reflexivity|]. repeat split. Qed.

(** * Further properties *)

(** ** What the methods of a draw step leave alone *)

Lemma same_resources_refl (w : World) : same_resources w w.
Proof. unfold same_resources. auto. Qed.

Lemma same_resources_trans (w1 w2 w3 : World) :
  same_resources w1 w2 -> same_resources w2 w3 -> same_resources w1 w3.
Proof.
  intros (A1 & A2 & A3 & A4 & A5) (B1 & B2 & B3 & B4 & B5).
  unfold same_resources. repeat split; congruence.
Qed.

Lemma issues_eq {A : Type} (kinds kinds' : list mesh) (m : M A) :
  issues kinds' m -> kinds' = kinds -> issues kinds m.
Proof. now intros H <-. Qed.

Lemma issues_ret {A : Type} (a : A) : issues [] (ret a).
Proof.
  intros w a' w' H. inversion H; subst.
  split; [apply same_resources_refl|]. split; [tauto|]. now rewrite app_nil_r.
Qed.

Lemma issues_bind {A B : Type} (k1 k2 : list mesh) (m : M A) (k : A -> M B) :
  issues k1 m -> (forall a, issues k2 (k a)) -> issues (k1 ++ k2) (bind m k).
Proof.
  intros Hm Hk w b w' Hrun. unfold bind in Hrun.
  destruct (m w) as [[a w1]|f] eqn:E; [|discriminate].
  destruct (Hm _ _ _ E) as (R1 & P1 & D1).
  destruct (Hk a _ _ _ Hrun) as (R2 & P2 & D2).
  split; [eapply same_resources_trans; eauto|].
  split; [tauto|]. now rewrite D2, D1, app_assoc.
Qed.

Lemma issues_shader_is_set : issues [] shader_is_set.
Proof.
  intros w a w' H. unfold shader_is_set in H. inversion H; subst.
  split; [apply same_resources_refl|]. split; [tauto|]. now rewrite app_nil_r.
Qed.

Lemma issues_call_shader (set : ShaderManager -> ShaderManager) : issues [] (call_shader set).
Proof.
  intros w a w' H. unfold call_shader in H.
  destruct (m_pShaderManager w) as [sh|] eqn:E; [|discriminate].
  inversion H; subst. cbn.
  split; [unfold same_resources; cbn; auto|].
  split; [split; discriminate|].
  now rewrite app_nil_r.
Qed.

Lemma issues_FindTextureSlot (tag : string) : issues [] (FindTextureSlot tag).
Proof.
  intros w a w' H. unfold FindTextureSlot, get_loadedTextures, bind in H.
  apply FindTextureSlot_loop_world in H. subst w'.
  split; [apply same_resources_refl|]. split; [tauto|]. now rewrite app_nil_r.
Qed.

Lemma issues_get_objectMaterials : issues [] get_objectMaterials.
Proof.
  intros w a w' H. inversion H; subst.
  split; [apply same_resources_refl|]. split; [tauto|]. now rewrite app_nil_r.
Qed.

Lemma issues_DrawMesh (k : mesh) : issues [k] (DrawMesh k).
Proof.
  intros w a w' H. inversion H; subst. cbn.
  split; [unfold same_resources; cbn; auto|]. split; [tauto|]. now rewrite map_app.
Qed.

(** Splits a sequence into its methods. *)
Ltac issues_steps :=
  repeat first
    [ apply issues_ret
    | apply issues_shader_is_set
    | apply issues_call_shader
    | apply issues_FindTextureSlot
    | apply issues_get_objectMaterials
    | apply issues_DrawMesh
    | eapply issues_bind; [|intros ?] ].

Lemma issues_SetTransformations (cosf sinf : float -> float) (s : glm.vec3)
    (xr yr zr : float) (p : glm.vec3) :
  issues [] (SetTransformations cosf sinf s xr yr zr p).
Proof.
  unfold SetTransformations.
  eapply issues_eq; [eapply issues_bind; [apply issues_shader_is_set|]|reflexivity].
  intros [|]; [apply issues_call_shader|apply issues_ret].
Qed.

Lemma issues_SetShaderColor (r g b a : float) : issues [] (SetShaderColor r g b a).
Proof.
  unfold SetShaderColor.
  eapply issues_eq; [eapply issues_bind; [apply issues_shader_is_set|]|reflexivity].
  intros [|]; [|apply issues_ret].
  eapply issues_eq; [issues_steps|reflexivity].
Qed.

Lemma issues_SetShaderTexture (textureTag : string) : issues [] (SetShaderTexture textureTag).
Proof.
  unfold SetShaderTexture.
  eapply issues_eq; [eapply issues_bind; [apply issues_shader_is_set|]|reflexivity].
  intros [|]; [|apply issues_ret].
  eapply issues_eq; [issues_steps|reflexivity].
Qed.

Lemma issues_SetTextureUVScale (u v : float) : issues [] (SetTextureUVScale u v).
Proof.
  unfold SetTextureUVScale.
  eapply issues_eq; [eapply issues_bind; [apply issues_shader_is_set|]|reflexivity].
  intros [|]; [apply issues_call_shader|apply issues_ret].
Qed.

Lemma issues_SetShaderMaterial (uninitialised : OBJECT_MATERIAL) (materialTag : string) :
  issues [] (SetShaderMaterial uninitialised materialTag).
Proof.
  unfold SetShaderMaterial.
  eapply issues_eq; [eapply issues_bind; [apply issues_get_objectMaterials|]|reflexivity].
  intros materials. destruct (Nat.ltb 0 (length materials)); [|apply issues_ret].
  assert (Hfind : issues [] (FindMaterial materialTag uninitialised)).
  { unfold FindMaterial.
    eapply issues_eq; [eapply issues_bind; [apply issues_get_objectMaterials|]|reflexivity].
    intros l. destruct (Nat.eqb (length l) 0); apply issues_ret. }
  eapply issues_eq; [eapply issues_bind; [exact Hfind|]|reflexivity].
  intros [[|] material]; [|apply issues_ret].
  eapply issues_eq; [issues_steps|reflexivity].
Qed.

Lemma renderable_with_shader (sh : ShaderManager) (w : World) :
  well_formed w -> renderable (with_shader sh w).
Proof. intros Hwf. split; [discriminate|exact Hwf]. Qed.

Lemma returns_ret {A : Type} (a : A) : returns (ret a).
Proof. intros w Hw. now exists a, w. Qed.

Lemma returns_bind {A B : Type} (m : M A) (k : A -> M B) :
  returns m -> (forall a, returns (k a)) -> returns (bind m k).
Proof.
  intros Hm Hk w Hw. destruct (Hm w Hw) as (a & w1 & E & Hw1).
  destruct (Hk a w1 Hw1) as (b & w2 & E2 & Hw2).
  exists b, w2. split; [|exact Hw2]. unfold bind. now rewrite E.
Qed.

Lemma returns_settles (m : M unit) :
  (forall w sh, m_pShaderManager w = Some sh -> well_formed w -> settles m w) -> returns m.
Proof.
  intros H w [Hp Hwf]. destruct (m_pShaderManager w) as [sh|] eqn:E; [|contradiction].
  destruct (H w sh E Hwf) as [sh' Hrun].
  exists tt, (with_shader sh' w). split; [exact Hrun|now apply renderable_with_shader].
Qed.

Lemma returns_DrawMesh (k : mesh) : returns (DrawMesh k).
Proof. intros w Hw. exists tt. eexists. split; [reflexivity|exact Hw]. Qed.

Lemma returns_SetTransformations (cosf sinf : float -> float) (s : glm.vec3)
    (xr yr zr : float) (p : glm.vec3) :
  returns (SetTransformations cosf sinf s xr yr zr p).
Proof. apply returns_settles. intros. eapply SetTransformations_settles. eassumption. Qed.

Lemma returns_SetShaderColor (r g b a : float) : returns (SetShaderColor r g b a).
Proof. apply returns_settles. intros. eapply SetShaderColor_settles. eassumption. Qed.

Lemma returns_SetShaderTexture (textureTag : string) : returns (SetShaderTexture textureTag).
Proof. apply returns_settles. intros. eapply SetShaderTexture_settles; eassumption. Qed.

Lemma returns_SetTextureUVScale (u v : float) : returns (SetTextureUVScale u v).
Proof. apply returns_settles. intros. eapply SetTextureUVScale_settles. eassumption. Qed.

Lemma returns_SetShaderMaterial (uninitialised : OBJECT_MATERIAL) (materialTag : string) :
  returns (SetShaderMaterial uninitialised materialTag).
Proof. apply returns_settles. intros. eapply SetShaderMaterial_settles. eassumption. Qed.

Lemma RenderScene_returns (cosf sinf : float -> float) (uninitialised : OBJECT_MATERIAL) :
  returns (RenderScene cosf sinf uninitialised).
Proof.
  unfold RenderScene. cbn [for_each].
  repeat first
    [ apply returns_ret | apply returns_DrawMesh | apply returns_SetTransformations
    | apply returns_SetShaderColor | apply returns_SetShaderTexture
    | apply returns_SetTextureUVScale | apply returns_SetShaderMaterial
    | apply returns_bind; [|intros ?] ].
Qed.

Lemma RenderScene_issues (cosf sinf : float -> float) (uninitialised : OBJECT_MATERIAL) :
  issues draw_order (RenderScene cosf sinf uninitialised).
Proof.
  unfold RenderScene. cbn [for_each].
  eapply issues_eq;
    [ repeat first
        [ apply issues_ret | apply issues_DrawMesh | apply issues_SetTransformations
        | apply issues_SetShaderColor | apply issues_SetShaderTexture
        | apply issues_SetTextureUVScale | apply issues_SetShaderMaterial
        | eapply issues_bind; [|intros ?] ]
    | reflexivity ].
Qed.

(** X1.  [RenderScene], on a scene with a shader interface and a well
    formed texture table, returns.  Whenever it returns, it has issued its
    seventeen draw calls in the order of the source and nothing else: the
    texture table, the count of loaded textures, the materials, the GL
    context and the loaded meshes are what they were. *)
Theorem RenderScene_draws_and_leaves_resources
    (cosf sinf : float -> float) (uninitialised : OBJECT_MATERIAL) :
  returns (RenderScene cosf sinf uninitialised) /\
  issues draw_order (RenderScene cosf sinf uninitialised).
Proof. split; [apply RenderScene_returns|apply RenderScene_issues]. Qed.

(** ** Rendering without a shader interface *)

Section NoShader.

Variables cosf sinf : float -> float.
Variable w : World.
Hypothesis no_shader : m_pShaderManager w = None.

Lemma SetTransformations_None (s : glm.vec3) (xr yr zr : float) (p : glm.vec3) :
  SetTransformations cosf sinf s xr yr zr p w = Ok (tt, w).
Proof.
  unfold SetTransformations. now rewrite (bind_Ok _ _ _ _ _ (shader_is_set_None _ no_shader)).
Qed.

Lemma SetShaderColor_None (r g b a : float) : SetShaderColor r g b a w = Ok (tt, w).
Proof.
  unfold SetShaderColor. now rewrite (bind_Ok _ _ _ _ _ (shader_is_set_None _ no_shader)).
Qed.

Lemma SetShaderTexture_None (textureTag : string) : SetShaderTexture textureTag w = Ok (tt, w).
Proof.
  unfold SetShaderTexture. now rewrite (bind_Ok _ _ _ _ _ (shader_is_set_None _ no_shader)).
Qed.

Lemma SetTextureUVScale_None (u v : float) : SetTextureUVScale u v w = Ok (tt, w).
Proof.
  unfold SetTextureUVScale. now rewrite (bind_Ok _ _ _ _ _ (shader_is_set_None _ no_shader)).
Qed.

Lemma SetShaderMaterial_None (uninitialised : OBJECT_MATERIAL) (materialTag : string) :
  m_objectMaterials w <> [] ->
  SetShaderMaterial uninitialised materialTag w = Undefined NullDereference.
Proof.
  intros Hne. unfold SetShaderMaterial, FindMaterial, get_objectMaterials, bind, ret.
  destruct (m_objectMaterials w) as [|m rest] eqn:Em; [contradiction|].
  cbn [length Nat.ltb Nat.leb]. rewrite Em. cbn [length Nat.eqb].
  unfold call_shader. now rewrite no_shader.
Qed.

End NoShader.

(** One method of a draw step, run without a shader interface. *)
Ltac unshaded :=
  first [ run SetTransformations_None
        | run SetShaderTexture_None
        | run SetTextureUVScale_None
        | run SetShaderColor_None
        | run SetShaderMaterial_empty
        | run DrawMesh_Ok
        | run @ret_Ok ].

(** X2.  Without a shader interface, [RenderScene] depends on the
    materials.  With none defined it returns: the seventeen draw calls are
    issued, each without uniforms, and nothing else changes.  With a
    material defined it does not return: the first [SetShaderMaterial], of
    the floor, goes through the null pointer. *)
Theorem RenderScene_without_shader
    (cosf sinf : float -> float) (uninitialised : OBJECT_MATERIAL) (w : World) :
  m_pShaderManager w = None ->
  (m_objectMaterials w = [] ->
   exists w',
     RenderScene cosf sinf uninitialised w = Ok (tt, w') /\
     same_resources w w' /\
     m_pShaderManager w' = None /\
     drawn (m_basicMeshes w') =
       (drawn (m_basicMeshes w) ++ map (fun k => (k, None)) draw_order)%list) /\
  (m_objectMaterials w <> [] ->
   RenderScene cosf sinf uninitialised w = Undefined NullDereference).
Proof.
  intros Hp. split.
  - intros Hm. destruct w as [p [ld dr] n table materials c].
    cbn [m_pShaderManager m_objectMaterials] in Hp, Hm. subst p materials.
    unfold RenderScene. cbn [for_each].
    do 82 unshaded.
    rewrite DrawMesh_Ok. tidy.
    eexists. split; [reflexivity|].
    split; [unfold same_resources; cbn; auto|]. split; [reflexivity|].
    cbn [m_basicMeshes drawn map draw_order]. rewrite <- !app_assoc. reflexivity.
  - intros Hm. unfold RenderScene.
    rewrite (bind_Ok _ _ _ _ _ (SetTransformations_None _ _ _ Hp _ _ _ _ _)).
    rewrite (bind_Ok _ _ _ _ _ (SetShaderTexture_None _ Hp _)).
    rewrite (bind_Ok _ _ _ _ _ (SetTextureUVScale_None _ Hp _ _)).
    apply bind_Undefined. now apply SetShaderMaterial_None.
Qed.

Lemma RenderScene_without_shader_witness :
  m_pShaderManager unshaded_world = None /\
  RenderScene cos_series sin_series garbage unshaded_world = Undefined NullDereference.
Proof.
  split; [reflexivity|].
  apply (proj2 (RenderScene_without_shader cos_series sin_series garbage unshaded_world
                  eq_refl)).
  discriminate.
Defined.

(** ** Looking a material up *)

Lemma FindMaterial_loop_first (before after : list OBJECT_MATERIAL) (m : OBJECT_MATERIAL)
    (tag : string) (material : OBJECT_MATERIAL) :
  material_tag m = tag ->
  (forall m', In m' before -> material_tag m' <> tag) ->
  FindMaterial_loop (before ++ m :: after) tag material =
  Material (material_tag material) (diffuseColor m) (specularColor m) (shininess m).
Proof.
  intros Hm. induction before as [|b before IH]; intros Hb; cbn [app FindMaterial_loop].
  - now rewrite (proj2 (String.eqb_eq _ _) Hm).
  - destruct (String.eqb (material_tag b) tag) eqn:E.
    + apply String.eqb_eq in E. exfalso. apply (Hb b); [now left|exact E].
    + apply IH. intros m' Hin. apply Hb. now right.
Qed.

Lemma defined_first (tag : string) (w : World) :
  defined tag w -> exists before m, first_material tag w before m.
Proof.
  unfold defined, first_material. generalize (m_objectMaterials w) as l.
  induction l as [|y l IH]; intros (m & Hin & Hm); [contradiction|].
  destruct (String.eqb (material_tag y) tag) eqn:E.
  - apply String.eqb_eq in E. exists [], y. split; [now exists l|]. split; [exact E|].
    intros m' [].
  - apply String.eqb_neq in E. destruct Hin as [->|Hin]; [contradiction|].
    destruct IH as (before & m0 & (after & Hl) & Hm0 & Hb); [now exists m|].
    exists (y :: before), m0. split; [exists after; now rewrite Hl|]. split; [exact Hm0|].
    intros m' [<-|Hin']; auto.
Qed.

(** X3.  The material registry is searched from the front and the first
    match wins: [SetShaderMaterial], for a tag that is defined, returns
    and writes the diffuse colour, the specular colour and the shininess of
    the first material with that tag, in that order, whatever is defined
    after it under the same tag and whatever the unassigned local holds. *)
Theorem SetShaderMaterial_first_match
    (uninitialised : OBJECT_MATERIAL) (materialTag : string) (w : World)
    (sh : ShaderManager) (before : list OBJECT_MATERIAL) (m : OBJECT_MATERIAL) :
  m_pShaderManager w = Some sh ->
  first_material materialTag w before m ->
  SetShaderMaterial uninitialised materialTag w = Ok (tt, with_shader (push_material m sh) w) /\
  material_in_force (push_material m sh) =
    (Some (Vec3Value (diffuseColor m)), Some (Vec3Value (specularColor m)),
     Some (FloatValue (shininess m))).
Proof.
  intros Hsh ((after & Hl) & Hm & Hb). split; [|reflexivity].
  rewrite (SetShaderMaterial_Some _ _ _ Hsh). unfold material_writes. rewrite Hl.
  destruct (before ++ m :: after)%list as [|x l] eqn:E.
  { destruct before; discriminate. }
  rewrite <- E. cbv zeta. now rewrite (FindMaterial_loop_first _ _ _ _ _ Hm Hb).
Qed.

Lemma first_material_two_woods : first_material "Wood" two_woods_world [garbage] wood.
Proof.
  split; [eexists; reflexivity|]. split; [reflexivity|].
  intros m' [<-|[]]. discriminate.
Defined.

Lemma SetShaderMaterial_first_match_witness :
  m_pShaderManager two_woods_world = Some [] /\
  SetShaderMaterial garbage "Wood" two_woods_world
  = Ok (tt, with_shader (push_material wood []) two_woods_world).
Proof.
  split; [reflexivity|].
  exact (proj1 (SetShaderMaterial_first_match garbage "Wood" two_woods_world [] [garbage]
                  wood eq_refl first_material_two_woods)).
Defined.

Lemma SetShaderMaterial_agrees (un1 un2 : OBJECT_MATERIAL) (materialTag : string) (w : World) :
  defined materialTag w ->
  SetShaderMaterial un1 materialTag w = SetShaderMaterial un2 materialTag w.
Proof.
  intros Hdef. destruct (defined_first _ _ Hdef) as (before & m & (after & Hl) & Hm & Hb).
  cbv [SetShaderMaterial FindMaterial get_objectMaterials bind ret]. rewrite !Hl.
  assert (Hlen : Nat.ltb 0 (length (before ++ m :: after)) = true /\
                 Nat.eqb (length (before ++ m :: after)) 0 = false).
  { rewrite length_app. cbn [length]. split; [apply Nat.ltb_lt|apply Nat.eqb_neq]; lia. }
  destruct Hlen as [H1 H2]. rewrite H1. cbv beta iota. rewrite !Hl, H2. cbv beta iota.
  now rewrite !(FindMaterial_loop_first _ _ _ _ _ Hm Hb).
Qed.

(** ** The materials of the scene *)

Lemma bind_Ok_inv {A B : Type} (m : M A) (k : A -> M B) (w w' : World) (b : B) :
  bind m k w = Ok (b, w') -> exists a w1, m w = Ok (a, w1) /\ k a w1 = Ok (b, w').
Proof.
  unfold bind. destruct (m w) as [[a w1]|f]; [|discriminate]. intros H. now exists a, w1.
Qed.

Lemma DefineObjectMaterials_appends (w : World) :
  DefineObjectMaterials w =
  Ok (tt, mkWorld (m_pShaderManager w) (m_basicMeshes w) (m_loadedTextures w)
                  (m_textureIDs w) (m_objectMaterials w ++ scene_materials) (gl w)).
Proof.
  destruct w as [p meshes n table materials c].
  cbv [DefineObjectMaterials bind push_back
       m_pShaderManager m_basicMeshes m_loadedTextures m_textureIDs m_objectMaterials gl].
  unfold scene_materials. rewrite <- !app_assoc. reflexivity.
Qed.

Lemma defined_same_resources (tag : string) (w w' : World) :
  same_resources w w' -> defined tag w -> defined tag w'.
Proof. intros (_ & _ & Hm & _) H. unfold defined. now rewrite Hm. Qed.

Lemma defines_same_resources (tags : list string) (w w' : World) :
  same_resources w w' -> defines tags w -> defines tags w'.
Proof. intros Hs H tag Hin. eapply defined_same_resources; eauto. Qed.

Lemma bind_agrees {A B : Type} (tags : list string) (kinds : list mesh)
    (m m' : M A) (k k' : A -> M B) (w : World) :
  issues kinds m ->
  defines tags w ->
  m w = m' w ->
  (forall a w', defines tags w' -> k a w' = k' a w') ->
  bind m k w = bind m' k' w.
Proof.
  intros Hi Hd Hm Hk. unfold bind. rewrite <- Hm.
  destruct (m w) as [[a w1]|f] eqn:E; [|reflexivity].
  apply Hk. eapply defines_same_resources; [|exact Hd]. exact (proj1 (Hi _ _ _ E)).
Qed.

(** The head method of both sides: it is the same, or a
    [SetShaderMaterial] for a tag that is defined. *)
Ltac agree :=
  rewrite ?bind_assoc;
  eapply bind_agrees;
    [ first [ apply issues_ret | apply issues_DrawMesh | apply issues_SetTransformations
            | apply issues_SetShaderColor | apply issues_SetShaderTexture
            | apply issues_SetTextureUVScale | apply issues_SetShaderMaterial ]
    | eassumption
    | first [ reflexivity
            | match goal with
              | H : defines _ ?w |- SetShaderMaterial _ _ ?w = _ =>
                  apply SetShaderMaterial_agrees; apply H; cbn; tauto
              end ]
    | let w1 := fresh "w" in let H1 := fresh "Hdef" in
      intros ? w1 H1;
      match goal with H : defines _ ?w |- _ => tryif constr_eq w w1 then fail else clear H end ].

Lemma RenderScene_agrees (cosf sinf : float -> float) (un1 un2 : OBJECT_MATERIAL) (w : World) :
  defines rendered_materials w ->
  RenderScene cosf sinf un1 w = RenderScene cosf sinf un2 w.
Proof.
  intros Hdef. unfold RenderScene. cbn [for_each].
  do 82 agree. reflexivity.
Qed.

Lemma PrepareScene_defines (stbi_load : string -> option IMAGE) (w w' : World) :
  PrepareScene stbi_load w = Ok (tt, w') ->
  defines (map material_tag scene_materials) w'.
Proof.
  unfold PrepareScene. intros H.
  apply bind_Ok_inv in H. destruct H as (? & w1 & _ & H).
  apply bind_Ok_inv in H. destruct H as (? & w2 & _ & H).
  destruct w2 as [p meshes n table materials c].
  rewrite (bind_Ok _ _ _ _ _ (DefineObjectMaterials_appends _)) in H.
  cbn [m_pShaderManager m_basicMeshes m_loadedTextures m_textureIDs m_objectMaterials gl]
    in H.
  do 5 (rewrite (bind_Ok _ _ _ _ _ (LoadMesh_Ok _ _)) in H;
        cbn [m_pShaderManager m_basicMeshes m_loadedTextures m_textureIDs
             m_objectMaterials gl loaded drawn] in H).
  rewrite LoadMesh_Ok in H.
  cbn [m_pShaderManager m_basicMeshes m_loadedTextures m_textureIDs
       m_objectMaterials gl loaded drawn] in H.
  injection H as <-.
  intros tag Hin. unfold defined. cbn [m_objectMaterials].
  apply in_map_iff in Hin. destruct Hin as (m & Hm & Hin).
  exists m. split; [apply in_or_app; now right|exact Hm].
Qed.

(** X4.  In the scene as shipped, the local of [SetShaderMaterial] that
    is never assigned does not matter: every material tag [RenderScene]
    asks for is among those [DefineObjectMaterials] has defined, so that
    [PrepareScene] followed by [RenderScene] gives the same outcome for
    any two contents of that local, from any starting scene. *)
Theorem shipped_scene_ignores_uninitialised
    (stbi_load : string -> option IMAGE) (cosf sinf : float -> float)
    (un1 un2 : OBJECT_MATERIAL) (w : World) :
  shipped_scene stbi_load cosf sinf un1 w = shipped_scene stbi_load cosf sinf un2 w.
Proof.
  unfold shipped_scene, bind.
  destruct (PrepareScene stbi_load w) as [[[] w1]|f] eqn:E; [|reflexivity].
  apply RenderScene_agrees.
  intros tag Hin. apply (PrepareScene_defines _ _ _ E).
  unfold rendered_materials in Hin. cbn in Hin |- *. tauto.
Qed.

(** ** What a load does to the GL context *)

Lemma binding_newest (unit : Z) (name : GL.GLuint) (l : list (Z * GL.GLuint)) :
  GL.binding unit ((unit, name) :: l) = name.
Proof. cbn [GL.binding]. now rewrite Z.eqb_refl. Qed.

(** X5.  A file that decodes to a channel count other than 3 and 4 makes
    [CreateGLTexture] return [false] with a texture name already
    generated: the name stays in use and stays bound to the active
    texture unit, no image has been uploaded to it, and the object's
    members do not record it. *)
Theorem CreateGLTexture_unsupported_channels
    (stbi_load : string -> option IMAGE) (filename tag : string) (w : World)
    (image : IMAGE) :
  stbi_load filename = Some image ->
  colorChannels image <> 3 -> colorChannels image <> 4 ->
  exists w',
    CreateGLTexture stbi_load filename tag w = Ok (false, w') /\
    same_members w w' /\
    GL.names (gl w') = (fst (GL.glGenTextures (gl w)) :: GL.names (gl w)) /\
    GL.current (gl w') = fst (GL.glGenTextures (gl w)) /\
    GL.active (gl w') = GL.active (gl w) /\
    GL.uploads (gl w') = GL.uploads (gl w) /\
    GL.mipmapped (gl w') = GL.mipmapped (gl w).
Proof.
  intros E H3 H4. unfold CreateGLTexture. rewrite E.
  apply Z.eqb_neq in H3, H4. rewrite H3, H4.
  destruct w as [p meshes n table materials [next names active bound params ups mips]].
  run_load. cbv [GL.glBindTexture GL.glTexParameteri GL.current GL.next_name GL.names
                 GL.active GL.bound GL.parameters GL.uploads GL.mipmapped].
  eexists. split; [reflexivity|].
  split; [unfold same_members; cbn; auto|].
  cbn [gl GL.names GL.active GL.uploads GL.mipmapped GL.current GL.bound].
  rewrite binding_newest. auto.
Qed.

Lemma CreateGLTexture_unsupported_channels_witness :
  decode_grey "textures/grey.png" = Some (Image 4 4 1) /\
  exists w',
    CreateGLTexture decode_grey "textures/grey.png" "Grey" new_world = Ok (false, w') /\
    GL.names (gl w') = [1] /\ GL.current (gl w') = 1 /\ registry w' = [].
Proof.
  split; [reflexivity|].
  destruct (CreateGLTexture_unsupported_channels decode_grey "textures/grey.png" "Grey"
              new_world (Image 4 4 1) eq_refl)
    as (w' & Hrun & (_ & _ & Hn & Ht & _) & Hnames & Hcur & _); [discriminate..|].
  exists w'. split; [exact Hrun|]. split; [exact Hnames|]. split; [exact Hcur|].
  unfold registry. now rewrite Hn, Ht.
Defined.

(** X6.  A load that succeeds works on the texture name it has just
    generated and on no other: the four sampling parameters (wrap S and T
    to repeat, both filters to linear), the image, in RGB8 for 3 channels
    and RGBA8 for 4, with the width and height of the decoded image, and
    the mipmaps all go to that name, which is the one stored in the table;
    the active unit is left with no texture bound. *)
Theorem CreateGLTexture_configures_new_texture
    (stbi_load : string -> option IMAGE) (filename tag : string) (w : World)
    (image : IMAGE) :
  stbi_load filename = Some image ->
  colorChannels image = 3 \/ colorChannels image = 4 ->
  0 <= m_loadedTextures w < Z.of_nat (length (m_textureIDs w)) ->
  exists w',
    CreateGLTexture stbi_load filename tag w = Ok (true, w') /\
    let name := fst (GL.glGenTextures (gl w)) in
    nth_error (m_textureIDs w') (Z.to_nat (m_loadedTextures w)) = Some (TextureInfo name tag) /\
    GL.names (gl w') = (name :: GL.names (gl w)) /\
    GL.parameters (gl w') =
      ([ (name, GL.GL_TEXTURE_MAG_FILTER, GL.GL_LINEAR);
         (name, GL.GL_TEXTURE_MIN_FILTER, GL.GL_LINEAR);
         (name, GL.GL_TEXTURE_WRAP_T, GL.GL_REPEAT);
         (name, GL.GL_TEXTURE_WRAP_S, GL.GL_REPEAT) ] ++ GL.parameters (gl w))%list /\
    GL.uploads (gl w') =
      (GL.Upload name (if colorChannels image =? 3 then GL.GL_RGB8 else GL.GL_RGBA8)
                 (width image) (height image) :: GL.uploads (gl w)) /\
    GL.mipmapped (gl w') = (name :: GL.mipmapped (gl w)) /\
    GL.active (gl w') = GL.active (gl w) /\
    GL.current (gl w') = 0.
Proof.
  intros E Hc Hn. unfold CreateGLTexture. rewrite E.
  destruct w as [p meshes n table materials [next names active bound params ups mips]].
  cbn [m_loadedTextures m_textureIDs] in Hn.
  assert (Hb : (0 <=? n) && (n <? Z.of_nat (length table)) = true).
  { apply andb_true_intro. split; [apply Z.leb_le|apply Z.ltb_lt]; lia. }
  destruct Hc as [Hc|Hc]; rewrite Hc; cbn [Z.eqb Pos.eqb]; run_load; rewrite Hb;
    cbv [GL.glBindTexture GL.glTexParameteri GL.glTexImage2D GL.glGenerateMipmap
         GL.current GL.next_name GL.names GL.active GL.bound GL.parameters GL.uploads
         GL.mipmapped];
    rewrite !binding_newest;
    (eexists; split; [reflexivity|]);
    cbn [gl m_textureIDs m_loadedTextures GL.names GL.active GL.uploads GL.mipmapped
         GL.current GL.bound GL.parameters GL.glGenTextures GL.next_name fst app];
    rewrite binding_newest;
    (split; [apply nth_error_store; lia|]); repeat split.
Qed.

Lemma CreateGLTexture_configures_new_texture_witness :
  decode_all "textures/Check_floor.jpg" = Some (Image 4 4 3) /\
  exists w',
    CreateGLTexture decode_all "textures/Check_floor.jpg" "Floor" new_world = Ok (true, w') /\
    GL.uploads (gl w') = [GL.Upload 1 GL.GL_RGB8 4 4] /\
    GL.current (gl w') = 0.
Proof.
  split; [reflexivity|].
  destruct (CreateGLTexture_configures_new_texture decode_all "textures/Check_floor.jpg"
              "Floor" new_world (Image 4 4 3) eq_refl (or_introl eq_refl))
    as (w' & Hrun & _ & _ & _ & Hup & _ & _ & Hcur); [cbn; lia|].
  exists w'. split; [exact Hrun|]. split; [exact Hup|exact Hcur].
Defined.

(** ** Loads and the lookups made before them *)

Lemma first_match_app_found (tag : string) (l extra : list TEXTURE_INFO) (from : Z)
    (hit : Z * TEXTURE_INFO) :
  first_match tag l from = Some hit -> first_match tag (l ++ extra) from = Some hit.
Proof.
  revert from. induction l as [|y l IH]; intros from; [discriminate|].
  cbn [app first_match]. destruct (String.eqb (texture_tag y) tag); [auto|apply IH].
Qed.

Lemma first_match_app_other (tag : string) (l : list TEXTURE_INFO) (t : TEXTURE_INFO)
    (from : Z) :
  texture_tag t <> tag ->
  first_match tag (l ++ [t]) from = first_match tag l from.
Proof.
  intros Ht. revert from. induction l as [|y l IH]; intros from; cbn [app first_match].
  - now rewrite (proj2 (String.eqb_neq _ _) Ht).
  - destruct (String.eqb (texture_tag y) tag); [reflexivity|apply IH].
Qed.

Lemma CreateGLTexture_registry (stbi_load : string -> option IMAGE) (filename tag : string)
    (w w' : World) (flag : bool) :
  well_formed w ->
  CreateGLTexture stbi_load filename tag w = Ok (flag, w') ->
  well_formed w' /\
  registry w' =
    (registry w ++ if flag then [TextureInfo (fst (GL.glGenTextures (gl w))) tag] else [])%list.
Proof.
  intros Hwf Hrun. destruct flag.
  - destruct (CreateGLTexture_true_inv _ _ _ _ _ Hrun) as (Hb & Hn & Ht).
    destruct Hwf as [Hlen Hcount]. split.
    + split; [now rewrite Ht, length_store|]. rewrite Hn. rewrite Hlen in Hb. lia.
    + unfold registry, registry_of. rewrite Hn, Ht.
      replace (Z.to_nat (m_loadedTextures w + 1)) with (S (Z.to_nat (m_loadedTextures w)))
        by lia.
      apply firstn_store_next. lia.
  - destruct (decodable_dec stbi_load filename)
      as [(image & E & Hc)|[E|(image & E & H3 & H4)]].
    + destruct (CreateGLTexture_decodable_inv _ _ _ _ image _ _ E Hc Hrun) as [Hflag _].
      discriminate.
    + rewrite (CreateGLTexture_undecoded _ _ _ _ E) in Hrun. inversion Hrun; subst w'.
      split; [exact Hwf|now rewrite app_nil_r].
    + destruct (CreateGLTexture_channels _ _ tag w image E H3 H4)
        as (w2 & Hrun2 & _ & _ & Hn & Ht & _).
      rewrite Hrun2 in Hrun. inversion Hrun; subst w2.
      split; [unfold well_formed; rewrite Hn, Ht; exact Hwf|].
      unfold registry. now rewrite Hn, Ht, app_nil_r.
Qed.

(** X7.  A load never changes what a lookup found before it.  If
    [FindTextureSlot] and [FindTextureID] found a tag, they find the same
    slot and the same handle after any [CreateGLTexture] that returns,
    also one that registers the same tag again: the second entry is out of
    reach.  A tag that was not found and is not the one loaded is still
    not found. *)
Theorem loads_keep_lookups
    (stbi_load : string -> option IMAGE) (filename tag : string) (w w' : World)
    (flag : bool) (other : string) :
  well_formed w ->
  CreateGLTexture stbi_load filename tag w = Ok (flag, w') ->
  ~ unregistered other w \/ other <> tag ->
  exists slot handle,
    FindTextureSlot other w = Ok (slot, w) /\
    FindTextureSlot other w' = Ok (slot, w') /\
    FindTextureID other w = Ok (handle, w) /\
    FindTextureID other w' = Ok (handle, w').
Proof.
  intros Hwf Hrun Hother.
  destruct (CreateGLTexture_registry _ _ _ _ _ _ Hwf Hrun) as [Hwf' Hreg].
  rewrite (FindTextureSlot_first_match w other (count_within_table w Hwf)).
  rewrite (FindTextureID_first_match w other (count_within_table w Hwf)).
  rewrite (FindTextureSlot_first_match w' other (count_within_table w' Hwf')).
  rewrite (FindTextureID_first_match w' other (count_within_table w' Hwf')).
  rewrite Hreg.
  destruct (first_match other (registry w) 0) as [[i t]|] eqn:E.
  - rewrite (first_match_app_found _ _ _ _ _ E). now exists i, (int_of_GLuint (ID t)).
  - assert (Hne : other <> tag).
    { destruct Hother as [Hreg'|Hne]; [|exact Hne].
      exfalso. apply Hreg'. intros t Hin Ht.
      destruct (first_or_none other (registry w)) as [Habs|(j & u & Hj & Hu & Hfirst)].
      - now apply (Habs t).
      - rewrite (first_match_first other _ 0 j u Hj Hu Hfirst) in E. discriminate. }
    destruct flag.
    + rewrite first_match_app_other, E by (cbn; congruence). now exists (-1), (-1).
    + rewrite app_nil_r, E. now exists (-1), (-1).
Qed.

Lemma loads_keep_lookups_witness :
  well_formed floor_world /\
  exists w',
    CreateGLTexture decode_all "textures/other_floor.jpg" "Floor" floor_world = Ok (true, w') /\
    FindTextureSlot "Floor" w' = Ok (2, w') /\
    FindTextureID "Floor" w' = Ok (3, w').
Proof.
  split; [exact well_formed_floor_world|].
  destruct (CreateGLTexture_loaded decode_all "textures/other_floor.jpg" "Floor" floor_world
              (Image 4 4 3) eq_refl (or_introl eq_refl)) as [c Hrun]; [cbn; lia|].
  eexists. split; [exact Hrun|].
  destruct (loads_keep_lookups decode_all "textures/other_floor.jpg" "Floor" floor_world _
              true "Floor" well_formed_floor_world Hrun)
    as (slot & handle & Hs & Hs' & Hi & Hi').
  - left. intros Habs. apply (Habs (TextureInfo 3 "Floor")); [|reflexivity].
    do 2 right. left. reflexivity.
  - assert (slot = 2) by (cbv in Hs; congruence).
    assert (handle = 3) by (cbv in Hi; congruence).
    subst. split; assumption.
Defined.

(** ** Binding the textures to their units *)

Lemma binding_other (unit k : Z) (name : GL.GLuint) (l : list (Z * GL.GLuint)) :
  unit <> k -> GL.binding unit ((k, name) :: l) = GL.binding unit l.
Proof. intros H. cbn [GL.binding]. now rewrite (proj2 (Z.eqb_neq k unit)) by congruence. Qed.

Lemma BindGLTextures_loop_binds (k j : nat) (w : World) :
  (j + k <= length (m_textureIDs w))%nat ->
  exists w',
    BindGLTextures_loop k (Z.of_nat j) w = Ok (tt, w') /\
    same_members w w' /\
    GL.names (gl w') = GL.names (gl w) /\
    (forall i t, (j <= i < j + k)%nat -> nth_error (m_textureIDs w) i = Some t ->
                 GL.binding (Z.of_nat i) (GL.bound (gl w')) = ID t) /\
    (forall unit, ~ (Z.of_nat j <= unit < Z.of_nat (j + k)) ->
                  GL.binding unit (GL.bound (gl w')) = GL.binding unit (GL.bound (gl w))).
Proof.
  revert j w. induction k as [|k IH]; intros j w Hlen.
  - exists w. split; [reflexivity|]. split; [unfold same_members; auto|].
    split; [reflexivity|]. split; [intros; lia|reflexivity].
  - destruct (nth_error (m_textureIDs w) j) as [t|] eqn:E.
    2:{ apply nth_error_None in E. lia. }
    cbn [BindGLTextures_loop].
    set (w1 := mkWorld (m_pShaderManager w) (m_basicMeshes w) (m_loadedTextures w)
                       (m_textureIDs w) (m_objectMaterials w)
                       (GL.glActiveTexture (Z.of_nat j) (gl w))).
    rewrite (bind_Ok _ _ w w1 tt) by reflexivity.
    rewrite (bind_Ok _ _ _ _ _ (texture_at_registry w1 j t E)).
    set (w2 := mkWorld (m_pShaderManager w1) (m_basicMeshes w1) (m_loadedTextures w1)
                       (m_textureIDs w1) (m_objectMaterials w1)
                       (GL.glBindTexture (ID t) (gl w1))).
    rewrite (bind_Ok _ _ w1 w2 tt) by reflexivity.
    replace (Z.of_nat j + 1) with (Z.of_nat (S j)) by lia.
    destruct (IH (S j) w2) as (w' & Hrun & Hs & Hnames & Hin & Hout); [cbn; lia|].
    assert (Hb2 : GL.bound (gl w2) = (Z.of_nat j, ID t) :: GL.bound (gl w)) by reflexivity.
    exists w'. split; [exact Hrun|]. split; [exact Hs|]. split; [exact Hnames|]. split.
    + intros i u Hi Hu. destruct (Nat.eq_dec i j) as [->|Hne].
      * rewrite Hout by lia. rewrite Hb2, binding_newest. congruence.
      * apply Hin; [lia|exact Hu].
    + intros unit Hunit. rewrite Hout by lia. rewrite Hb2. apply binding_other. lia.
Qed.

Lemma nth_error_registry (w : World) (i : nat) (t : TEXTURE_INFO) :
  nth_error (registry w) i = Some t ->
  (i < Z.to_nat (m_loadedTextures w))%nat /\ nth_error (m_textureIDs w) i = Some t.
Proof.
  unfold registry, registry_of. intros H.
  assert (Hi : (i < Z.to_nat (m_loadedTextures w))%nat).
  { destruct (Nat.lt_ge_cases i (Z.to_nat (m_loadedTextures w))) as [Hlt|Hge]; [exact Hlt|].
    rewrite nth_error_firstn in H.
    destruct (Nat.ltb_spec i (Z.to_nat (m_loadedTextures w))); [lia|discriminate]. }
  split; [exact Hi|]. rewrite nth_error_firstn in H.
  destruct (Nat.ltb_spec i (Z.to_nat (m_loadedTextures w))); [exact H|lia].
Qed.

(** The loop of [BindGLTextures], from slot 0 to the count. *)
Lemma BindGLTextures_spec (w : World) :
  well_formed w ->
  exists w',
    BindGLTextures w = Ok (tt, w') /\
    same_members w w' /\
    slots_bound w' /\
    GL.names (gl w') = GL.names (gl w) /\
    (forall unit, ~ (0 <= unit < m_loadedTextures w) ->
                  GL.binding unit (GL.bound (gl w')) = GL.binding unit (GL.bound (gl w))).
Proof.
  intros Hwf. pose proof (count_within_table w Hwf) as Hfits. pose proof Hwf as [_ Hcount].
  destruct (BindGLTextures_loop_binds (Z.to_nat (m_loadedTextures w)) 0 w Hfits)
    as (w' & Hrun & Hs & Hnames & Hin & Hout).
  exists w'. split; [exact Hrun|]. split; [exact Hs|]. split; [|split; [exact Hnames|]].
  - intros i t Hi. destruct Hs as (_ & _ & Hn & Ht & _).
    unfold registry in Hi. rewrite Hn, Ht in Hi.
    destruct (nth_error_registry w i t Hi) as [Hlt Hnth]. apply Hin; [lia|exact Hnth].
  - intros unit Hunit. apply Hout. cbn. lia.
Qed.

(** X8.  [BindGLTextures], on a well formed table, returns, and then the
    texture of every slot is bound to the texture unit of the same number,
    which is the number [SetShaderTexture] pushes as the sampler; units
    beyond the loaded textures keep their binding, no texture name is
    generated, and the members of the object are untouched. *)
Theorem BindGLTextures_binds_each_slot (w : World) :
  well_formed w ->
  exists w',
    BindGLTextures w = Ok (tt, w') /\
    same_members w w' /\
    slots_bound w' /\
    GL.names (gl w') = GL.names (gl w) /\
    (forall unit, ~ (0 <= unit < m_loadedTextures w) ->
                  GL.binding unit (GL.bound (gl w')) = GL.binding unit (GL.bound (gl w))).
Proof. exact (BindGLTextures_spec w). Qed.

Lemma BindGLTextures_binds_each_slot_witness :
  well_formed floor_world /\
  exists w',
    BindGLTextures floor_world = Ok (tt, w') /\
    GL.binding 2 (GL.bound (gl w')) = 3.
Proof.
  split; [exact well_formed_floor_world|].
  destruct (BindGLTextures_binds_each_slot floor_world well_formed_floor_world)
    as (w' & Hrun & Hs & Hbound & _).
  exists w'. split; [exact Hrun|].
  destruct Hs as (_ & _ & Hn & Ht & _).
  apply (Hbound 2%nat (TextureInfo 3 "Floor")).
  unfold registry. rewrite Hn, Ht. reflexivity.
Defined.

(** ** Loading the textures of the scene *)

Lemma decodes_decodable (stbi_load : string -> option IMAGE) (filename : string) :
  decodes stbi_load filename = true <-> decodable stbi_load filename.
Proof.
  unfold decodes, decodable. destruct (stbi_load filename) as [image|].
  - rewrite orb_true_iff, !Z.eqb_eq. split.
    + intros H. now exists image.
    + intros (i & E & H). now inversion E; subst.
  - split; [discriminate|]. intros (i & E & _). discriminate.
Qed.

Lemma CreateGLTexture_step (stbi_load : string -> option IMAGE) (filename tag : string)
    (w : World) :
  well_formed w ->
  m_loadedTextures w < Z.of_nat MAX_TEXTURES ->
  exists w',
    CreateGLTexture stbi_load filename tag w = Ok (decodes stbi_load filename, w') /\
    well_formed w' /\
    map texture_tag (registry w') =
      (map texture_tag (registry w) ++ if decodes stbi_load filename then [tag] else [])%list /\
    m_loadedTextures w' <= m_loadedTextures w + 1 /\
    m_pShaderManager w' = m_pShaderManager w /\
    m_basicMeshes w' = m_basicMeshes w /\
    m_objectMaterials w' = m_objectMaterials w.
Proof.
  intros Hwf Hroom. pose proof Hwf as [Hlen Hcount].
  assert (Hrun : exists w', CreateGLTexture stbi_load filename tag w
                            = Ok (decodes stbi_load filename, w') /\
                            m_pShaderManager w' = m_pShaderManager w /\
                            m_basicMeshes w' = m_basicMeshes w /\
                            m_objectMaterials w' = m_objectMaterials w /\
                            m_loadedTextures w' <= m_loadedTextures w + 1).
  { destruct (decodable_dec stbi_load filename)
      as [(image & E & Hc)|[E|(image & E & H3 & H4)]].
    - assert (Hd : decodes stbi_load filename = true).
      { apply decodes_decodable. now exists image. }
      rewrite Hd.
      destruct (CreateGLTexture_loaded stbi_load filename tag w image E Hc) as [c Hok];
        [rewrite Hlen; lia|].
      eexists. split; [exact Hok|]. cbn. repeat split; lia.
    - assert (Hd : decodes stbi_load filename = false) by (unfold decodes; now rewrite E).
      rewrite Hd. exists w. rewrite (CreateGLTexture_undecoded _ _ _ _ E).
      repeat split; lia.
    - assert (Hd : decodes stbi_load filename = false).
      { unfold decodes. rewrite E. apply Z.eqb_neq in H3, H4. now rewrite H3, H4. }
      rewrite Hd.
      destruct (CreateGLTexture_channels stbi_load filename tag w image E H3 H4)
        as (w' & Hok & Hp & Hm & Hn & Ht & Hmat).
      exists w'. split; [exact Hok|]. repeat split; auto; lia. }
  destruct Hrun as (w' & Hrun & Hp & Hm & Hmat & Hn).
  destruct (CreateGLTexture_registry _ _ _ _ _ _ Hwf Hrun) as [Hwf' Hreg].
  exists w'. split; [exact Hrun|]. split; [exact Hwf'|].
  split; [|auto].
  rewrite Hreg, map_app. now destruct (decodes stbi_load filename).
Qed.

Lemma map_filter_cons {A B : Type} (g : A -> B) (p : A -> bool) (x : A) (l : list A) :
  map g (filter p (x :: l)) = ((if p x then [g x] else []) ++ map g (filter p l))%list.
Proof. cbn [filter]. now destruct (p x). Qed.

(** One [CreateGLTexture] of [LoadSceneTextures] on a table with room. *)
Ltac load_next Hwf Hn :=
  let w1 := fresh "w" in
  let Hrun := fresh "Hrun" in let Hwf1 := fresh "Hwf" in let Hreg := fresh "Hreg" in
  let Hn1 := fresh "Hn" in let Hp := fresh "Hp" in let Hm := fresh "Hm" in
  let Hmat := fresh "Hmat" in
  match goal with
  | |- context [bind (CreateGLTexture ?s ?f ?t) _ ?w] =>
      destruct (CreateGLTexture_step s f t w Hwf ltac:(unfold MAX_TEXTURES in *; lia))
        as (w1 & Hrun & Hwf1 & Hreg & Hn1 & Hp & Hm & Hmat);
      rewrite (bind_Ok _ _ _ _ _ Hrun);
      rewrite <- Hp, <- Hm, <- Hmat, <- ?Hreg;
      clear Hrun Hp Hm Hmat
  end.

(** The nine loads and the binding, one after the other. *)
Lemma LoadSceneTextures_spec (stbi_load : string -> option IMAGE) (w : World) :
  well_formed w ->
  m_loadedTextures w + 9 <= Z.of_nat MAX_TEXTURES ->
  exists w',
    LoadSceneTextures stbi_load w = Ok (tt, w') /\
    well_formed w' /\
    map texture_tag (registry w') =
      (map texture_tag (registry w) ++ decoded_tags stbi_load)%list /\
    slots_bound w' /\
    m_pShaderManager w' = m_pShaderManager w /\
    m_basicMeshes w' = m_basicMeshes w /\
    m_objectMaterials w' = m_objectMaterials w.
Proof.
  intros Hwf Hn. unfold LoadSceneTextures.
  unfold decoded_tags, scene_textures. rewrite !map_filter_cons. cbn [filter map fst snd].
  rewrite app_nil_r, !app_assoc.
  load_next Hwf Hn.
  load_next Hwf0 Hn0.
  load_next Hwf1 Hn1.
  load_next Hwf2 Hn2.
  load_next Hwf3 Hn3.
  load_next Hwf4 Hn4.
  load_next Hwf5 Hn5.
  load_next Hwf6 Hn6.
  load_next Hwf7 Hn7.
  destruct (BindGLTextures_spec _ Hwf8)
    as (w' & Hrun & (Hp & Hm & Hcount & Ht & Hmat) & Hbound & _).
  exists w'. split; [exact Hrun|].
  split; [unfold well_formed; rewrite Ht, Hcount; exact Hwf8|].
  split; [unfold registry; now rewrite Hcount, Ht|].
  split; [exact Hbound|]. auto.
Qed.

(** X9.  [LoadSceneTextures], on a well formed table with nine free
    slots, returns whatever the files are.  The files that decode take the
    next slots in the order of the calls, with no slot left empty for a
    file that does not decode, so that the slot of a tag depends on how
    many files before it decoded; and every registered texture ends up
    bound to the texture unit of its slot. *)
Theorem LoadSceneTextures_fills_slots (stbi_load : string -> option IMAGE) (w : World) :
  well_formed w ->
  m_loadedTextures w + 9 <= Z.of_nat MAX_TEXTURES ->
  exists w',
    LoadSceneTextures stbi_load w = Ok (tt, w') /\
    well_formed w' /\
    map texture_tag (registry w') =
      (map texture_tag (registry w) ++ decoded_tags stbi_load)%list /\
    slots_bound w' /\
    m_pShaderManager w' = m_pShaderManager w /\
    m_basicMeshes w' = m_basicMeshes w /\
    m_objectMaterials w' = m_objectMaterials w.
Proof. exact (LoadSceneTextures_spec stbi_load w). Qed.

Lemma LoadSceneTextures_fills_slots_witness :
  well_formed new_world /\
  m_loadedTextures new_world + 9 <= Z.of_nat MAX_TEXTURES /\
  exists w',
    LoadSceneTextures decode_floor new_world = Ok (tt, w') /\
    map texture_tag (registry w') = ["Floor"].
Proof.
  split; [apply well_formed_new|]. split; [cbn; lia|].
  destruct (LoadSceneTextures_fills_slots decode_floor new_world (well_formed_new _ _))
    as (w' & Hrun & _ & Hreg & _); [cbn; lia|].
  exists w'. split; [exact Hrun|exact Hreg].
Defined.

(** X10.  [PrepareScene] cannot be run without a shader interface: on a
    table with room for the nine textures it loads them and then goes
    through the null pointer in [SetupSceneLights], whatever the files
    are. *)
Theorem PrepareScene_needs_shader (stbi_load : string -> option IMAGE) (w : World) :
  m_pShaderManager w = None ->
  well_formed w ->
  m_loadedTextures w + 9 <= Z.of_nat MAX_TEXTURES ->
  PrepareScene stbi_load w = Undefined NullDereference.
Proof.
  intros Hp Hwf Hn.
  destruct (LoadSceneTextures_spec stbi_load w Hwf Hn)
    as (w' & Hrun & _ & _ & _ & Hp' & _).
  unfold PrepareScene. rewrite (bind_Ok _ _ _ _ _ Hrun).
  apply bind_Undefined. apply SetupSceneLights_None. now rewrite Hp'.
Qed.

Lemma PrepareScene_needs_shader_witness :
  m_pShaderManager unshaded_new_world = None /\
  PrepareScene decode_all unshaded_new_world = Undefined NullDereference.
Proof.
  split; [reflexivity|].
  apply (PrepareScene_needs_shader decode_all unshaded_new_world eq_refl
           (well_formed_new _ _)).
  cbn. lia.
Defined.

(** ** What [DestroyGLTextures] does to the table *)

Lemma nth_error_store_other {A : Type} (l : list A) (n i : nat) (x : A) :
  i <> n -> nth_error (store l n x) i = nth_error l i.
Proof.
  revert n i. induction l as [|y l IH]; intros [|n] [|i] H; cbn [store nth_error];
    try reflexivity; try congruence.
  apply IH. congruence.
Qed.

Lemma DestroyGLTextures_loop_spec (k j : nat) (w : World) :
  (j + k <= length (m_textureIDs w))%nat ->
  exists w',
    DestroyGLTextures_loop k (Z.of_nat j) w = Ok (tt, w') /\
    m_pShaderManager w' = m_pShaderManager w /\
    m_basicMeshes w' = m_basicMeshes w /\
    m_loadedTextures w' = m_loadedTextures w /\
    m_objectMaterials w' = m_objectMaterials w /\
    length (m_textureIDs w') = length (m_textureIDs w) /\
    (forall i, (i < j \/ j + k <= i)%nat ->
               nth_error (m_textureIDs w') i = nth_error (m_textureIDs w) i) /\
    (forall i t, (j <= i < j + k)%nat -> nth_error (m_textureIDs w) i = Some t ->
                 nth_error (m_textureIDs w') i =
                 Some (TextureInfo (GL.next_name (gl w) + Z.of_nat (i - j)) (texture_tag t))) /\
    GL.next_name (gl w') = GL.next_name (gl w) + Z.of_nat k /\
    length (GL.names (gl w')) = (length (GL.names (gl w)) + k)%nat /\
    GL.bound (gl w') = GL.bound (gl w).
Proof.
  revert j w. induction k as [|k IH]; intros j w Hlen.
  - exists w. split; [reflexivity|]. repeat split; auto; try (intros; lia).
  - destruct (nth_error (m_textureIDs w) j) as [t|] eqn:E.
    2:{ apply nth_error_None in E. lia. }
    cbn [DestroyGLTextures_loop].
    rewrite (bind_Ok _ _ _ _ _ (texture_at_registry w j t E)).
    set (w1 := mkWorld (m_pShaderManager w) (m_basicMeshes w) (m_loadedTextures w)
                       (m_textureIDs w) (m_objectMaterials w)
                       (snd (GL.glGenTextures (gl w)))).
    rewrite (bind_Ok _ _ w w1 (GL.next_name (gl w))) by reflexivity.
    set (w2 := mkWorld (m_pShaderManager w) (m_basicMeshes w) (m_loadedTextures w)
                       (store (m_textureIDs w) j
                              (TextureInfo (GL.next_name (gl w)) (texture_tag t)))
                       (m_objectMaterials w)
                       (snd (GL.glGenTextures (gl w)))).
    assert (Hset : set_texture_at (Z.of_nat j)
                     (TextureInfo (GL.next_name (gl w)) (texture_tag t)) w1 = Ok (tt, w2)).
    { unfold set_texture_at. cbn [m_textureIDs w1].
      assert (Hb : (0 <=? Z.of_nat j)
                   && (Z.of_nat j <? Z.of_nat (length (m_textureIDs w))) = true).
      { apply andb_true_intro. split; [apply Z.leb_le|apply Z.ltb_lt]; lia. }
      rewrite Hb, Nat2Z.id. reflexivity. }
    rewrite (bind_Ok _ _ _ _ _ Hset).
    replace (Z.of_nat j + 1) with (Z.of_nat (S j)) by lia.
    destruct (IH (S j) w2)
      as (w' & Hrun & Hp & Hm & Hn & Hmat & Hl & Hout & Hin & Hnext & Hnames & Hbound).
    { cbn [m_textureIDs w2]. rewrite length_store. lia. }
    cbn [m_pShaderManager m_basicMeshes m_loadedTextures m_objectMaterials m_textureIDs gl
         w2 snd GL.glGenTextures GL.next_name GL.names GL.bound length] in *.
    rewrite length_store in Hl.
    exists w'. split; [exact Hrun|]. repeat split; auto; try lia.
    + intros i Hi. rewrite Hout by lia. apply nth_error_store_other. lia.
    + intros i u Hi Hu. destruct (Nat.eq_dec i j) as [->|Hne].
      * rewrite Hout by lia. rewrite nth_error_store by lia.
        rewrite Nat.sub_diag, Z.add_0_r. congruence.
      * rewrite (Hin i u) by (try lia; rewrite nth_error_store_other by lia; exact Hu).
        do 2 f_equal. lia.
Qed.

Lemma first_match_tags (tag : string) (l l' : list TEXTURE_INFO) (from : Z) :
  map texture_tag l = map texture_tag l' ->
  option_map fst (first_match tag l from) = option_map fst (first_match tag l' from).
Proof.
  revert l' from. induction l as [|y l IH]; intros [|y' l'] from H; try discriminate.
  - reflexivity.
  - cbn [map] in H. injection H as Hy Hl. cbn [first_match]. rewrite Hy.
    destruct (String.eqb (texture_tag y') tag); [reflexivity|now apply IH].
Qed.

Lemma length_registry (w : World) :
  well_formed w -> length (registry w) = Z.to_nat (m_loadedTextures w).
Proof.
  intros Hwf. pose proof (count_within_table w Hwf).
  unfold registry, registry_of. rewrite length_firstn. lia.
Qed.

(** X11.  [DestroyGLTextures], on a well formed table, returns, and what
    it does is to give every registered entry a newly generated texture
    name in place of its own, in slot order.  The tags, the count and the
    slot of every tag stay, the texture units keep the bindings they had,
    and the GL context holds as many more names as there are loaded
    textures, none released. *)
Theorem DestroyGLTextures_renames_entries (w : World) :
  well_formed w ->
  exists w',
    DestroyGLTextures w = Ok (tt, w') /\
    well_formed w' /\
    m_loadedTextures w' = m_loadedTextures w /\
    (forall i t, nth_error (registry w) i = Some t ->
                 nth_error (registry w') i =
                 Some (TextureInfo (GL.next_name (gl w) + Z.of_nat i) (texture_tag t))) /\
    (forall tag, slot_of tag w' = slot_of tag w) /\
    length (GL.names (gl w')) =
      (length (GL.names (gl w)) + Z.to_nat (m_loadedTextures w))%nat /\
    incl (GL.names (gl w)) (GL.names (gl w')) /\
    GL.bound (gl w') = GL.bound (gl w).
Proof.
  intros Hwf. pose proof (count_within_table w Hwf) as Hfits. pose proof Hwf as [Hlen Hcount].
  destruct (DestroyGLTextures_loop_spec (Z.to_nat (m_loadedTextures w)) 0 w Hfits)
    as (w' & Hrun & Hp & Hm & Hn & Hmat & Hl & Hout & Hin & Hnext & Hnames & Hbound).
  assert (Hrun' : DestroyGLTextures w = Ok (tt, w')).
  { unfold DestroyGLTextures, get_loadedTextures, bind. exact Hrun. }
  assert (Hwf' : well_formed w').
  { split; [now rewrite Hl|now rewrite Hn]. }
  assert (Hentries : forall i t, nth_error (registry w) i = Some t ->
                       nth_error (registry w') i =
                       Some (TextureInfo (GL.next_name (gl w) + Z.of_nat i) (texture_tag t))).
  { intros i t Hi. destruct (nth_error_registry w i t Hi) as [Hlt Hnth].
    unfold registry, registry_of. rewrite Hn, nth_error_firstn.
    destruct (Nat.ltb_spec i (Z.to_nat (m_loadedTextures w))); [|lia].
    rewrite (Hin i t) by (try lia; exact Hnth). do 3 f_equal. lia. }
  assert (Htags : map texture_tag (registry w') = map texture_tag (registry w)).
  { apply nth_error_ext. intros i. rewrite !nth_error_map.
    destruct (nth_error (registry w) i) as [t|] eqn:E.
    - now rewrite (Hentries i t E).
    - apply nth_error_None in E. rewrite (length_registry w Hwf) in E.
      assert (E' : nth_error (registry w') i = None).
      { apply nth_error_None. rewrite (length_registry w' Hwf'), Hn. exact E. }
      now rewrite E'. }
  exists w'. split; [exact Hrun'|]. split; [exact Hwf'|]. split; [exact Hn|].
  split; [exact Hentries|]. split; [|split; [exact Hnames|split; [|exact Hbound]]].
  - intros tag. unfold slot_of, slot_in. fold (registry w) (registry w').
    pose proof (first_match_tags tag _ _ 0 Htags) as H.
    destruct (first_match tag (registry w') 0) as [[i t]|],
             (first_match tag (registry w) 0) as [[i' t']|]; cbn in H; congruence.
  - now apply DestroyGLTextures_keeps_names.
Qed.

Lemma well_formed_one_texture : well_formed one_texture_world.
Proof. split; [reflexivity|]. cbn. lia. Qed.

Lemma DestroyGLTextures_renames_entries_witness :
  well_formed one_texture_world /\
  exists w',
    DestroyGLTextures one_texture_world = Ok (tt, w') /\
    nth_error (registry w') 0 = Some (TextureInfo 2 "Floor") /\
    slot_of "Floor" w' = 0.
Proof.
  split; [exact well_formed_one_texture|].
  destruct (DestroyGLTextures_renames_entries one_texture_world well_formed_one_texture)
    as (w' & Hrun & _ & _ & Hentries & Hslot & _).
  exists w'. split; [exact Hrun|].
  split; [exact (Hentries 0%nat (TextureInfo 1 "Floor") eq_refl)|].
  rewrite Hslot. reflexivity.
Defined.

(** ** Colour and texture on the same draw step *)

(** X12.  The use-texture flag follows the last of [SetShaderColor] and
    [SetShaderTexture], and neither undoes the value of the other: after
    colour then texture the flag is 1 with the colour still in force,
    after texture then colour the flag is 0 with the sampler still in
    force. *)
Theorem last_of_colour_and_texture_decides
    (w : World) (sh : ShaderManager) (r g b a : float) (textureTag : string) :
  m_pShaderManager w = Some sh ->
  well_formed w ->
  let colour_then_texture := (SetShaderColor r g b a ;; SetShaderTexture textureTag) w in
  let texture_then_colour := (SetShaderTexture textureTag ;; SetShaderColor r g b a) w in
  in_force g_UseTextureName colour_then_texture = Some (IntValue 1) /\
  in_force g_ColorValueName colour_then_texture = Some (Vec4Value (glm.Vec4 r g b a)) /\
  in_force g_TextureValueName colour_then_texture
    = Some (Sampler2DValue (slot_of textureTag w)) /\
  in_force g_UseTextureName texture_then_colour = Some (IntValue 0) /\
  in_force g_ColorValueName texture_then_colour = Some (Vec4Value (glm.Vec4 r g b a)) /\
  in_force g_TextureValueName texture_then_colour
    = Some (Sampler2DValue (slot_of textureTag w)).
Proof.
  intros Hsh Hwf. destruct w as [p meshes n table materials c].
  cbn [m_pShaderManager] in Hsh. subst p. cbv zeta.
  erewrite (bind_Ok (SetShaderColor r g b a)) by (eapply SetShaderColor_Some; reflexivity).
  erewrite (bind_Ok (SetShaderTexture textureTag))
    by (eapply SetShaderTexture_Some; [reflexivity|exact Hwf]).
  tidy.
  erewrite SetShaderTexture_Some by (first [reflexivity|exact Hwf]).
  erewrite SetShaderColor_Some by reflexivity.
  repeat split.
Qed.

Lemma last_of_colour_and_texture_decides_witness :
  m_pShaderManager floor_world = Some [] /\
  in_force g_UseTextureName
    ((SetShaderColor 0.6 0.1 0.1 1.0 ;; SetShaderTexture "Floor") floor_world)
  = Some (IntValue 1).
Proof.
  split; [reflexivity|].
  exact (proj1 (last_of_colour_and_texture_decides floor_world [] 0.6 0.1 0.1 1.0 "Floor"
                  eq_refl well_formed_floor_world)).
Defined.

(** ** Where the model matrix puts the origin *)

Lemma mul_vec_respects (m : glm.mat4) (p q : glm.vec4) :
  glm.vec4_eq p q -> glm.vec4_eq (glm.mul_vec m p) (glm.mul_vec m q).
Proof.
  intros (H1 & H2 & H3 & H4).
  destruct m as [[a00 a01 a02 a03] [a10 a11 a12 a13] [a20 a21 a22 a23] [a30 a31 a32 a33]].
  unfold glm.vec4_eq. cbn. rewrite H1, H2, H3, H4. repeat split; reflexivity.
Qed.

Lemma rotations_keep_origin (cosf sinf : float -> float) (ax ay az : float)
    (position : glm.vec3) :
  glm.vec4_eq
    (glm.mul_vec
       (glm.mul (glm.mul (glm.mul (glm.translate position)
          (glm.rotate cosf sinf az (glm.Vec3 0 0 1)))
          (glm.rotate cosf sinf ay (glm.Vec3 0 1 0)))
          (glm.rotate cosf sinf ax (glm.Vec3 1 0 0)))
       (glm.point (glm.Vec3 0 0 0)))
    (glm.point position).
Proof.
  destruct position as [px py pz].
  set (cx := cosf ax). set (sx := sinf ax).
  set (cy := cosf ay). set (sy := sinf ay).
  set (cz := cosf az). set (sz := sinf az).
  unfold glm.vec4_eq. cbn. fold cx sx cy sy cz sz. repeat split; ring.
Qed.

(** X13.  Whatever the scale and the three angles, and whatever the C
    library returns for cosine and sine, the model matrix of
    [SetTransformations] sends the local origin to [positionXYZ]; and with
    a scale of zero it sends every local point there. *)
Theorem model_matrix_places_origin
    (cosf sinf : float -> float) (w : World) (sh : ShaderManager) (t : Transform) :
  m_pShaderManager w = Some sh ->
  (exists q,
     world_point cosf sinf w t (glm.Vec3 0 0 0) = Some q /\
     glm.vec4_eq q (glm.point (positionXYZ t))) /\
  (forall p,
     glm.vec4_eq (glm.point (scaleXYZ t)) (glm.point (glm.Vec3 0 0 0)) ->
     exists q,
       world_point cosf sinf w t p = Some q /\
       glm.vec4_eq q (glm.point (positionXYZ t))).
Proof.
  intros Hsh.
  assert (Hrun : forall p,
            world_point cosf sinf w t p =
            Some (glm.mul_vec
                    (glm.mul (glm.mul (glm.mul (glm.mul (glm.translate (positionXYZ t))
                       (glm.rotate cosf sinf (glm.radians (ZrotationDegrees t))
                                   (glm.Vec3 0 0 1)))
                       (glm.rotate cosf sinf (glm.radians (YrotationDegrees t))
                                   (glm.Vec3 0 1 0)))
                       (glm.rotate cosf sinf (glm.radians (XrotationDegrees t))
                                   (glm.Vec3 1 0 0)))
                       (glm.scale (scaleXYZ t))) (glm.point p))).
  { intros p. unfold world_point. rewrite (SetTransformations_Some _ _ _ _ Hsh).
    cbn [model_in_force with_shader m_pShaderManager setMat4Value uniform_value].
    now rewrite String.eqb_refl. }
  assert (Hscale : forall p,
            glm.vec4_eq (glm.point (scaleXYZ t)) (glm.point (glm.Vec3 0 0 0)) \/
            glm.vec4_eq (glm.point p) (glm.point (glm.Vec3 0 0 0)) ->
            glm.vec4_eq (glm.mul_vec (glm.scale (scaleXYZ t)) (glm.point p))
                        (glm.point (glm.Vec3 0 0 0))).
  { intros [x y z]. destruct (scaleXYZ t) as [sx sy sz].
    unfold glm.vec4_eq. cbn.
    intros [(H1 & H2 & H3 & _)|(H1 & H2 & H3 & _)]; rewrite H1, H2, H3;
      repeat split; ring. }
  assert (Hplace : forall p,
            glm.vec4_eq (glm.point (scaleXYZ t)) (glm.point (glm.Vec3 0 0 0)) \/
            glm.vec4_eq (glm.point p) (glm.point (glm.Vec3 0 0 0)) ->
            exists q, world_point cosf sinf w t p = Some q /\
                      glm.vec4_eq q (glm.point (positionXYZ t))).
  { intros p Hp. eexists. split; [apply Hrun|].
    eapply vec4_eq_trans; [apply mul_vec_mul|].
    eapply vec4_eq_trans; [apply mul_vec_respects; exact (Hscale p Hp)|].
    apply rotations_keep_origin. }
  split.
  - apply Hplace. right. unfold glm.vec4_eq. cbn. repeat split; reflexivity.
  - intros p Hzero. apply Hplace. now left.
Qed.

Lemma model_matrix_places_origin_witness :
  m_pShaderManager floor_world = Some [] /\
  exists q,
    world_point cos_series sin_series floor_world quarter_turn (glm.Vec3 0 0 0) = Some q /\
    glm.vec4_eq q (glm.point (glm.Vec3 0 0 5)).
Proof.
  split; [reflexivity|].
  exact (proj1 (model_matrix_places_origin cos_series sin_series floor_world []
                  quarter_turn eq_refl)).
Defined.

(** ** The lights *)

Lemma uniform_value_skips_light (name light : string) (val : uniform) (sh : ShaderManager) :
  is_light_name light = true -> is_light_name name = false ->
  uniform_value name ((light, val) :: sh) = uniform_value name sh.
Proof.
  intros Hl Hn. cbn [uniform_value]. destruct (String.eqb light name) eqn:E; [|reflexivity].
  apply String.eqb_eq in E. subst. congruence.
Qed.

(** X14.  [SetupSceneLights], on a shader interface that is there,
    returns after 22 writes, all of them to lighting uniforms: the
    lighting switch is on, the two point lights and the directional light
    are active, and every uniform that is not a lighting uniform (the
    model matrix, the colour, the sampler, the use-texture flag, the UV
    scale, the material) keeps the value in force. *)
Theorem SetupSceneLights_writes_lights_only (w : World) (sh : ShaderManager) :
  m_pShaderManager w = Some sh ->
  exists sh',
    SetupSceneLights w = Ok (tt, with_shader sh' w) /\
    length sh' = (22 + length sh)%nat /\
    (forall name, is_light_name name = false ->
                  uniform_value name sh' = uniform_value name sh) /\
    uniform_value g_UseLightingName sh' = Some (BoolValue true) /\
    uniform_value "pointLights[0].bActive" sh' = Some (BoolValue true) /\
    uniform_value "pointLights[1].bActive" sh' = Some (BoolValue true) /\
    uniform_value "directionalLight.bActive" sh' = Some (BoolValue true).
Proof.
  intros E. destruct w as [p meshes n table materials c]. cbn in E. subst p.
  unfold SetupSceneLights.
  repeat run call_shader_Some.
  erewrite call_shader_Some by reflexivity. tidy.
  eexists. split; [reflexivity|].
  unfold setBoolValue, setFloatValue, setVec3Value.
  split; [reflexivity|]. split; [|repeat split].
  intros name Hname.
  repeat (rewrite uniform_value_skips_light by (first [exact Hname|reflexivity])).
  reflexivity.
Qed.

Lemma SetupSceneLights_writes_lights_only_witness :
  m_pShaderManager wood_world = Some wood_pushed /\
  exists sh',
    SetupSceneLights wood_world = Ok (tt, with_shader sh' wood_world) /\
    material_in_force sh' = material_in_force wood_pushed.
Proof.
  split; [reflexivity|].
  destruct (SetupSceneLights_writes_lights_only wood_world wood_pushed eq_refl)
    as (sh' & Hrun & _ & Hkeep & _).
  exists sh'. split; [exact Hrun|].
  unfold material_in_force.
  rewrite !Hkeep by reflexivity. reflexivity.
Defined.

(** ** The sampler and the texture units *)

(** X15.  Where every registered texture is bound to the unit of its slot,
    as [LoadSceneTextures] leaves the scene, the sampler that
    [SetShaderTexture] writes for a registered tag is the number of a unit
    bound to the texture [FindTextureID] reports for that tag. *)
Theorem sampler_is_the_bound_unit
    (w : World) (sh : ShaderManager) (tag : string) (i : nat) (t : TEXTURE_INFO) :
  m_pShaderManager w = Some sh ->
  well_formed w ->
  slots_bound w ->
  first_entry tag w i t ->
  0 <= ID t < 2 ^ 31 ->
  in_force g_TextureValueName (SetShaderTexture tag w)
    = Some (Sampler2DValue (Z.of_nat i)) /\
  FindTextureID tag w = Ok (GL.binding (Z.of_nat i) (GL.bound (gl w)), w).
Proof.
  intros Hsh Hwf Hbound Hfirst Hsmall.
  pose proof (count_within_table w Hwf) as Hfits.
  destruct (lookup_first_entry w tag Hfits i t Hfirst) as [Hslot Hid].
  split.
  - rewrite (SetShaderTexture_Some _ _ Hsh _ Hwf).
    cbn [in_force with_shader m_pShaderManager setSampler2DValue uniform_value].
    rewrite String.eqb_refl.
    rewrite (FindTextureSlot_first_match w tag Hfits) in Hslot.
    unfold slot_in. fold (registry w). congruence.
  - rewrite Hid, (Hbound i t (proj1 Hfirst)). now rewrite int_of_GLuint_small.
Qed.

Lemma slots_bound_after_bind :
  exists w,
    BindGLTextures floor_world = Ok (tt, w) /\
    m_pShaderManager w = Some [] /\ well_formed w /\ slots_bound w /\
    first_entry "Blue" w 1 (TextureInfo 2 "Blue").
Proof.
  destruct (BindGLTextures_spec floor_world well_formed_floor_world)
    as (w & Hrun & (Hp & Hm & Hn & Ht & Hmat) & Hbound & _).
  exists w. split; [exact Hrun|]. split; [exact Hp|].
  split; [unfold well_formed; rewrite Ht, Hn; exact well_formed_floor_world|].
  split; [exact Hbound|].
  unfold first_entry, registry. rewrite Hn, Ht. exact first_entry_blue.
Defined.

Lemma sampler_is_the_bound_unit_witness :
  exists w,
    BindGLTextures floor_world = Ok (tt, w) /\
    in_force g_TextureValueName (SetShaderTexture "Blue" w) = Some (Sampler2DValue 1).
Proof.
  destruct slots_bound_after_bind as (w & Hrun & Hp & Hwf & Hbound & Hfirst).
  exists w. split; [exact Hrun|].
  refine (proj1 (sampler_is_the_bound_unit w [] "Blue" 1 (TextureInfo 2 "Blue")
                   Hp Hwf Hbound Hfirst _)).
  cbn. lia.
Defined.

(** ** Defining the materials *)

(** X16.  [DefineObjectMaterials] returns on every scene, a new one
    included, and appends: the materials afterwards are those before
    followed by its seven, nothing else in the scene changes, and each of
    its seven tags is defined.  A tag that had a material before still
    has that one as its first, so that running it a second time changes
    no lookup. *)
Theorem DefineObjectMaterials_keeps_earlier_materials (w : World) :
  exists w',
    DefineObjectMaterials w = Ok (tt, w') /\
    m_objectMaterials w' = (m_objectMaterials w ++ scene_materials)%list /\
    m_pShaderManager w' = m_pShaderManager w /\
    m_basicMeshes w' = m_basicMeshes w /\
    m_loadedTextures w' = m_loadedTextures w /\
    m_textureIDs w' = m_textureIDs w /\
    gl w' = gl w /\
    defines (map material_tag scene_materials) w' /\
    (forall tag before m,
       first_material tag w before m -> first_material tag w' before m) /\
    exists w'',
      DefineObjectMaterials w' = Ok (tt, w'') /\
      forall tag before m,
        first_material tag w' before m -> first_material tag w'' before m.
Proof.
  assert (Hkeep : forall (v : World) tag before m,
            first_material tag v before m ->
            first_material tag
              (mkWorld (m_pShaderManager v) (m_basicMeshes v) (m_loadedTextures v)
                       (m_textureIDs v) (m_objectMaterials v ++ scene_materials) (gl v))
              before m).
  { intros v tag before m ((after & Hl) & Hm & Hb).
    split; [|split; [exact Hm|exact Hb]].
    exists (after ++ scene_materials)%list. cbn [m_objectMaterials].
    rewrite Hl, <- app_assoc. reflexivity. }
  eexists. split; [apply DefineObjectMaterials_appends|].
  cbn [m_objectMaterials m_pShaderManager m_basicMeshes m_loadedTextures m_textureIDs gl].
  do 6 (split; [reflexivity|]).
  split.
  { intros t Hin. unfold defined. cbn [m_objectMaterials].
    apply in_map_iff in Hin. destruct Hin as (x & Hx & Hin).
    exists x. split; [apply in_or_app; now right|exact Hx]. }
  split; [apply Hkeep|].
  eexists. split; [apply DefineObjectMaterials_appends|]. apply Hkeep.
Qed.

Lemma first_material_wood : first_material "Wood" wood_world [] wood.
Proof. split; [eexists; reflexivity|]. split; [reflexivity|]. intros m' []. Defined.

Lemma DefineObjectMaterials_keeps_earlier_materials_witness :
  first_material "Wood" wood_world [] wood /\
  (exists w', DefineObjectMaterials wood_world = Ok (tt, w') /\
              first_material "Wood" w' [] wood) /\
  (exists w', DefineObjectMaterials new_world = Ok (tt, w') /\
              m_objectMaterials w' = scene_materials).
Proof.
  split; [exact first_material_wood|]. split.
  - destruct (DefineObjectMaterials_keeps_earlier_materials wood_world)
      as (w' & Hrun & _ & _ & _ & _ & _ & _ & _ & Hfirst & _).
    exists w'. split; [exact Hrun|exact (Hfirst _ _ _ first_material_wood)].
  - destruct (DefineObjectMaterials_keeps_earlier_materials new_world)
      as (w' & Hrun & Hmat & _).
    exists w'. split; [exact Hrun|exact Hmat].
Defined.

(** ** Preparing, then rendering *)

Lemma PrepareScene_spec (stbi_load : string -> option IMAGE) (w : World) (sh : ShaderManager) :
  m_pShaderManager w = Some sh ->
  well_formed w ->
  m_loadedTextures w + 9 <= Z.of_nat MAX_TEXTURES ->
  exists w',
    PrepareScene stbi_load w = Ok (tt, w') /\
    renderable w' /\
    slots_bound w' /\
    loaded (m_basicMeshes w') = (prepared_meshes ++ loaded (m_basicMeshes w))%list /\
    drawn (m_basicMeshes w') = drawn (m_basicMeshes w).
Proof.
  intros Hsh Hwf Hroom.
  destruct (LoadSceneTextures_spec stbi_load w Hwf Hroom)
    as (w1 & Hrun1 & Hwf1 & _ & Hbound1 & Hp1 & Hm1 & _).
  rewrite Hsh in Hp1.
  destruct (SetupSceneLights_Some w1 sh Hp1) as [sh' Hrun2].
  unfold PrepareScene.
  rewrite (bind_Ok _ _ _ _ _ Hrun1), (bind_Ok _ _ _ _ _ Hrun2).
  rewrite (bind_Ok _ _ _ _ _ (DefineObjectMaterials_appends _)). tidy.
  do 5 run LoadMesh_Ok. rewrite LoadMesh_Ok. tidy.
  eexists. split; [reflexivity|].
  split; [split; [discriminate|exact Hwf1]|].
  split; [exact Hbound1|].
  cbn [m_basicMeshes loaded drawn]. rewrite Hm1. split; reflexivity.
Qed.

(** X17.  Setup before render: on a scene with a shader interface, a well
    formed table with nine free slots and no mesh loaded, [PrepareScene]
    followed by [RenderScene] returns, whatever the files and the C
    library; each of the six primitives has been uploaded once, the
    seventeen draw calls have been issued in order, and no mesh is drawn
    that was not uploaded. *)
Theorem every_drawn_mesh_is_loaded
    (stbi_load : string -> option IMAGE) (cosf sinf : float -> float)
    (uninitialised : OBJECT_MATERIAL) (w : World) (sh : ShaderManager) :
  m_pShaderManager w = Some sh ->
  well_formed w ->
  m_loadedTextures w + 9 <= Z.of_nat MAX_TEXTURES ->
  loaded (m_basicMeshes w) = [] ->
  exists w',
    shipped_scene stbi_load cosf sinf uninitialised w = Ok (tt, w') /\
    loaded (m_basicMeshes w') = prepared_meshes /\
    NoDup (loaded (m_basicMeshes w')) /\
    map fst (drawn (m_basicMeshes w')) =
      (map fst (drawn (m_basicMeshes w)) ++ draw_order)%list /\
    (forall k, In k draw_order -> In k (loaded (m_basicMeshes w'))).
Proof.
  intros Hsh Hwf Hroom Hnone.
  destruct (PrepareScene_spec stbi_load w sh Hsh Hwf Hroom)
    as (w1 & Hrun1 & Hr1 & _ & Hloaded & Hdrawn).
  destruct (RenderScene_returns cosf sinf uninitialised w1 Hr1) as ([] & w' & Hrun2 & _).
  destruct (RenderScene_issues cosf sinf uninitialised _ _ _ Hrun2)
    as ((_ & _ & _ & _ & Hl) & _ & Hd).
  exists w'. split; [unfold shipped_scene; now rewrite (bind_Ok _ _ _ _ _ Hrun1)|].
  rewrite Hl, Hloaded, Hnone, app_nil_r, Hd, Hdrawn.
  split; [reflexivity|]. split.
  - unfold prepared_meshes. repeat constructor; cbn; intuition discriminate.
  - split; [reflexivity|]. intros k Hk. unfold draw_order in Hk. unfold prepared_meshes.
    cbn in Hk |- *. intuition (subst; auto 10).
Qed.

Lemma every_drawn_mesh_is_loaded_witness :
  m_pShaderManager new_world = Some [] /\
  exists w',
    shipped_scene decode_all cos_series sin_series garbage new_world = Ok (tt, w') /\
    loaded (m_basicMeshes w') = prepared_meshes.
Proof.
  split; [reflexivity|].
  destruct (every_drawn_mesh_is_loaded decode_all cos_series sin_series garbage new_world []
              eq_refl (well_formed_new _ _)) as (w' & Hrun & Hloaded & _);
    [cbn; lia|reflexivity|].
  exists w'. split; [exact Hrun|exact Hloaded].
Defined.

(** ** The cake draws *)

Lemma decodable_decodes (stbi_load : string -> option IMAGE) (filename : string) :
  decodable stbi_load filename -> decodes stbi_load filename = true.
Proof.
  intros (image & Hload & Hch). unfold decodes. rewrite Hload.
  destruct Hch as [-> | ->]; reflexivity.
Qed.

Lemma filter_split {A B : Type} (g : A -> B) (p : A -> bool) (before after : list A)
    (entry : A) :
  p entry = true ->
  map g (filter p (before ++ entry :: after)) =
  (map g (filter p before) ++ g entry :: map g (filter p after))%list.
Proof.
  intros H. rewrite filter_app. cbn [filter]. rewrite H, map_app. reflexivity.
Qed.

Lemma in_map_filter {A B : Type} (g : A -> B) (p : A -> bool) (l : list A) (y : B) :
  In y (map g (filter p l)) -> In y (map g l).
Proof.
  intros H. apply in_map_iff in H. destruct H as (x & Hx & Hin).
  apply filter_In in Hin. apply in_map_iff. exists x. tauto.
Qed.

Lemma filter_all {A : Type} (p : A -> bool) (l : list A) :
  (forall x, p x = true) -> filter p l = l.
Proof.
  intros H. induction l as [|x l IH]; [reflexivity|].
  cbn [filter]. now rewrite H, IH.
Qed.

(** A tag that stands in the registry after the tags [before], none of
    which is the same, has the slot [length before]. *)
Lemma first_entry_of_tags (tag : string) (w : World) (before after : list string) :
  map texture_tag (registry w) = (before ++ tag :: after)%list ->
  ~ In tag before ->
  exists t, first_entry tag w (length before) t /\
            slot_of tag w = Z.of_nat (length before).
Proof.
  intros Htags Hnot.
  assert (Hnth : nth_error (map texture_tag (registry w)) (length before) = Some tag).
  { rewrite Htags, nth_error_app2 by lia. now rewrite Nat.sub_diag. }
  rewrite nth_error_map in Hnth.
  destruct (nth_error (registry w) (length before)) as [t|] eqn:Ht; [|discriminate].
  injection Hnth as Htag.
  assert (Hfirst : forall j u, (j < length before)%nat ->
                     nth_error (registry w) j = Some u -> texture_tag u <> tag).
  { intros j u Hj Hu Heq. apply Hnot.
    assert (Hj' : nth_error (map texture_tag (registry w)) j = Some tag).
    { rewrite nth_error_map, Hu. cbn. now rewrite Heq. }
    rewrite Htags, nth_error_app1 in Hj' by exact Hj.
    eapply nth_error_In. exact Hj'. }
  exists t. split; [split; [exact Ht|split; [exact Htag|exact Hfirst]]|].
  unfold slot_of, slot_in. fold (registry w).
  now rewrite (first_match_first tag _ 0 _ t Ht Htag Hfirst).
Qed.

(** The registry [PrepareScene] leaves on a new scene: the tags of the
    files that decode, in the order of the calls. *)
Lemma PrepareScene_registers (stbi_load : string -> option IMAGE) (sh0 : ShaderManager)
    (c : GL.context) :
  exists w,
    PrepareScene stbi_load (SceneManager_new (Some sh0) c) = Ok (tt, w) /\
    map texture_tag (registry w) = decoded_tags stbi_load.
Proof.
  destruct (LoadSceneTextures_spec stbi_load (SceneManager_new (Some sh0) c)
              (well_formed_new _ _))
    as (w1 & Hrun1 & _ & Htags & _ & Hp1 & _).
  { cbn. lia. }
  cbn [SceneManager_new m_pShaderManager] in Hp1.
  destruct (SetupSceneLights_Some w1 sh0 Hp1) as [sh Hrun2].
  unfold PrepareScene.
  rewrite (bind_Ok _ _ _ _ _ Hrun1), (bind_Ok _ _ _ _ _ Hrun2).
  rewrite (bind_Ok _ _ _ _ _ (DefineObjectMaterials_appends _)). tidy.
  do 5 run LoadMesh_Ok. rewrite LoadMesh_Ok. tidy.
  eexists. split; [reflexivity|].
  unfold registry in *. cbn [m_loadedTextures m_textureIDs].
  rewrite Htags. reflexivity.
Qed.

(** The slots of the two frostings after [PrepareScene], by the files
    that decode. *)
Lemma PrepareScene_frostings (stbi_load : string -> option IMAGE) (sh0 : ShaderManager)
    (c : GL.context) (w : World) :
  PrepareScene stbi_load (SceneManager_new (Some sh0) c) = Ok (tt, w) ->
  (decodable stbi_load "textures/frosting_sides.png" ->
   exists i t, first_entry "Frost_sides" w i t /\ slot_of "Frost_sides" w = Z.of_nat i) /\
  (decodable stbi_load "textures/top_frosting.png" ->
   exists i t, first_entry "Frost" w i t /\ slot_of "Frost" w = Z.of_nat i) /\
  ((forall filename, decodable stbi_load filename) ->
   slot_of "Frost_sides" w = 6 /\ slot_of "Frost" w = 5).
Proof.
  intros Hrun.
  destruct (PrepareScene_registers stbi_load sh0 c) as (w2 & Hrun2 & Htags).
  rewrite Hrun in Hrun2. injection Hrun2 as <-.
  set (f := fun entry : string * string => decodes stbi_load (fst entry)).
  assert (Hsides : decodable stbi_load "textures/frosting_sides.png" ->
            exists t, first_entry "Frost_sides" w
                        (length (map snd (filter f (firstn 6 scene_textures)))) t /\
                      slot_of "Frost_sides" w =
                        Z.of_nat (length (map snd (filter f (firstn 6 scene_textures))))).
  { intros Hd. apply decodable_decodes in Hd.
    eapply first_entry_of_tags.
    - rewrite Htags. unfold decoded_tags.
      change scene_textures
        with (firstn 6 scene_textures
                ++ ("textures/frosting_sides.png", "Frost_sides") :: skipn 7 scene_textures)%list
        at 1.
      apply (filter_split snd f). exact Hd.
    - intros Hin. apply in_map_filter in Hin. cbn in Hin.
      repeat (destruct Hin as [Hin|Hin]; [discriminate|]). exact Hin. }
  assert (Hfrost : decodable stbi_load "textures/top_frosting.png" ->
            exists t, first_entry "Frost" w
                        (length (map snd (filter f (firstn 5 scene_textures)))) t /\
                      slot_of "Frost" w =
                        Z.of_nat (length (map snd (filter f (firstn 5 scene_textures))))).
  { intros Hd. apply decodable_decodes in Hd.
    eapply first_entry_of_tags.
    - rewrite Htags. unfold decoded_tags.
      change scene_textures
        with (firstn 5 scene_textures
                ++ ("textures/top_frosting.png", "Frost") :: skipn 6 scene_textures)%list
        at 1.
      apply (filter_split snd f). exact Hd.
    - intros Hin. apply in_map_filter in Hin. cbn in Hin.
      repeat (destruct Hin as [Hin|Hin]; [discriminate|]). exact Hin. }
  split; [intros Hd; destruct (Hsides Hd) as (t & H); eauto|].
  split; [intros Hd; destruct (Hfrost Hd) as (t & H); eauto|].
  intros Hall.
  assert (Hf : forall entry, f entry = true).
  { intros entry. unfold f. apply decodable_decodes. apply Hall. }
  destruct (Hsides (Hall _)) as (_ & _ & ->).
  destruct (Hfrost (Hall _)) as (_ & _ & ->).
  rewrite !(filter_all f _ Hf). split; reflexivity.
Qed.

(** C9.  The scene as shipped, on any files, any C library and any shader
    interface: [PrepareScene] and [RenderScene] return; no texture is
    registered under ["Cake"], which is the tag of a material; the draw
    calls 13 and 14, the cake body and the cake top, are issued with the
    sampler uniform at -1; and that -1 is the write that follows the slot
    of ["Frost_sides"], for the body, and of ["Frost"], for the top.
    Where the file of a frosting decodes, its tag is registered and the
    slot written before the -1 is the valid one, the position of its
    entry in the registry; where every file decodes, the slots written
    over are 6 and 5. *)
Theorem cake_draws_sample_the_sentinel
    (stbi_load : string -> option IMAGE) (cosf sinf : float -> float)
    (uninitialised : OBJECT_MATERIAL) (sh0 : ShaderManager) (c : GL.context) :
  exists w' shBody shTop,
    shipped_scene stbi_load cosf sinf uninitialised (SceneManager_new (Some sh0) c)
    = Ok (tt, w') /\
    unregistered "Cake" w' /\
    (exists m, In m (m_objectMaterials w') /\ material_tag m = "Cake") /\
    map fst (drawn (m_basicMeshes w')) = draw_order /\
    uniforms_at_draw 13 w' = Some shBody /\
    uniforms_at_draw 14 w' = Some shTop /\
    uniform_value g_TextureValueName shBody = Some (Sampler2DValue (-1)) /\
    uniform_value g_TextureValueName shTop = Some (Sampler2DValue (-1)) /\
    firstn 2 (sampler_writes shBody) = [-1; slot_of "Frost_sides" w'] /\
    firstn 2 (sampler_writes shTop) = [-1; slot_of "Frost" w'] /\
    (decodable stbi_load "textures/frosting_sides.png" ->
     exists i t, first_entry "Frost_sides" w' i t /\
                 slot_of "Frost_sides" w' = Z.of_nat i) /\
    (decodable stbi_load "textures/top_frosting.png" ->
     exists i t, first_entry "Frost" w' i t /\ slot_of "Frost" w' = Z.of_nat i) /\
    ((forall filename, decodable stbi_load filename) ->
     slot_of "Frost_sides" w' = 6 /\ slot_of "Frost" w' = 5).
Proof.
  destruct (PrepareScene_ready stbi_load sh0 c)
    as (w & sh & Hprep & Hsh & Hwf & Habs & Hdrawn & Hcake).
  destruct (RenderScene_cake cosf sinf uninitialised w sh Hsh Hwf Habs Hdrawn)
    as (w' & shBody & shTop & Hrun & Hn & Ht & Hmat & Horder & Hb & Htop & Hvb & Hvt
        & Hwb & Hwt).
  pose proof (PrepareScene_frostings stbi_load sh0 c w Hprep) as Hfrost.
  exists w', shBody, shTop.
  split; [unfold shipped_scene; now rewrite (bind_Ok _ _ _ _ _ Hprep)|].
  split; [unfold unregistered, registry; rewrite Hn, Ht; exact Habs|].
  split; [rewrite Hmat; exact Hcake|].
  unfold first_entry, registry, slot_of. rewrite Hn, Ht.
  fold (slot_of "Frost_sides" w) (slot_of "Frost" w) (registry w).
  fold (first_entry "Frost_sides" w) (first_entry "Frost" w).
  do 7 (split; [assumption|]). exact Hfrost.
Qed.

Lemma decode_all_decodes (filename : string) : decodable decode_all filename.
Proof. exists (Image 4 4 3). split; [reflexivity|now left]. Defined.

Lemma cake_draws_sample_the_sentinel_witness :
  decodable decode_all "textures/frosting_sides.png" /\
  decodable decode_all "textures/top_frosting.png" /\
  exists w' shBody shTop,
    shipped_scene decode_all cos_series sin_series garbage new_world = Ok (tt, w') /\
    uniforms_at_draw 13 w' = Some shBody /\
    uniforms_at_draw 14 w' = Some shTop /\
    firstn 2 (sampler_writes shBody) = [-1; 6] /\
    firstn 2 (sampler_writes shTop) = [-1; 5] /\
    (exists i t, first_entry "Frost_sides" w' i t) /\
    (exists i t, first_entry "Frost" w' i t).
Proof.
  split; [apply decode_all_decodes|]. split; [apply decode_all_decodes|].
  destruct (cake_draws_sample_the_sentinel decode_all cos_series sin_series garbage
              [] GL.fresh)
    as (w' & shBody & shTop & Hrun & _ & _ & _ & Hb & Ht & _ & _ & Hwb & Hwt
        & Hsides & Hfrost & Hall).
  destruct (Hall decode_all_decodes) as [H6 H5].
  destruct (Hsides (decode_all_decodes _)) as (i & t & Hi & _).
  destruct (Hfrost (decode_all_decodes _)) as (j & u & Hj & _).
  rewrite H6 in Hwb. rewrite H5 in Hwt.
  exists w', shBody, shTop.
  split; [exact Hrun|]. split; [exact Hb|]. split; [exact Ht|].
  split; [exact Hwb|]. split; [exact Hwt|].
  split; [exists i, t; exact Hi|exists j, u; exact Hj].
Defined.
